(** * Advance-A.IChatbot: provider registry, rule-based fallbacks and the
      conversation orchestrator

    A shallow embedding of
      - [client/src/services/aiService.ts] and its sibling copies (the
        provider classes, their rule-based fallbacks and the [AIService]
        registry),
      - [src/services/aiService.ts] (the registry of the root application),
      - [src/App.tsx] ([handleSendMessage], [handleRegenerate],
        [generateConversationTitle], and with them [handleRetry], the
        conversation handlers and the [onRegenerate] test),
      - [src/services/imageService.ts] (the two prompt tests).

    JavaScript strings are modelled by [string]: one [ascii] stands for one
    code unit.  The built-ins whose behaviour depends on Unicode tables
    ([toLowerCase], [trim]) are Section variables, so every statement holds
    for whatever these built-ins compute; the ASCII versions defined in
    [JS] are used to run the code on concrete inputs. *)

From Stdlib Require Import String Ascii List Bool Arith ZArith Lia.
From Stdlib Require Import DecimalString.
Import ListNotations.
Open Scope string_scope.
Set Warnings "-register-all".

(* ================================================================== *)
(** ** JavaScript values and string built-ins *)
(* ================================================================== *)

Module JS.

(** [s.includes(sub)]: [sub] occurs in [s] as a contiguous run. *)
Fixpoint includes (s sub : string) : bool :=
  if String.prefix sub s then true
  else match s with
       | EmptyString => false
       | String _ s' => includes s' sub
       end.

(** [s.startsWith(p)]. *)
Definition startsWith (s p : string) : bool := String.prefix p s.

(** [parts.join(sep)]. *)
Definition join (parts : list string) (sep : string) : string :=
  String.concat sep parts.

(** [s.substring(0, n)] for a literal [n]. *)
Definition substring0 (n : nat) (s : string) : string :=
  String.substring 0 n s.

(** [s.substring(n)]: everything from index [n] on. *)
Definition substringFrom (n : nat) (s : string) : string :=
  String.substring n (String.length s - n) s.

(** Truthiness of a string: only the empty string is falsy. *)
Definition truthy (s : string) : bool :=
  match s with EmptyString => false | _ => true end.

(** A string that may be [undefined] or [null], where only its truthiness
    is asked: the string when it is there and not empty. *)
Definition present (v : option string) : option string :=
  match v with
  | Some k => if truthy k then Some k else None
  | None => None
  end.

(** The double quote and the line feed of string literals. *)
Definition dquote : string := String (ascii_of_nat 34) EmptyString.
Definition nl : string := String (ascii_of_nat 10) EmptyString.

(** ASCII white space, for [trim] on concrete inputs. *)
Definition is_space (c : ascii) : bool :=
  let n := nat_of_ascii c in
  ((n =? 32) || ((9 <=? n) && (n <=? 13)))%nat.

Fixpoint trimStart (s : string) : string :=
  match s with
  | String c s' => if is_space c then trimStart s' else s
  | EmptyString => s
  end.

Fixpoint trimEnd (s : string) : string :=
  match s with
  | EmptyString => EmptyString
  | String c s' =>
      match trimEnd s' with
      | EmptyString => if is_space c then EmptyString else String c EmptyString
      | t => String c t
      end
  end.

Definition trim (s : string) : string := trimEnd (trimStart s).

(** ASCII lower-casing: the letters A-Z move to a-z, every other code
    unit stays. *)
Definition lower_ascii (c : ascii) : ascii :=
  let n := nat_of_ascii c in
  if ((65 <=? n) && (n <=? 90))%nat then ascii_of_nat (n + 32) else c.

Fixpoint toLowerCase (s : string) : string :=
  match s with
  | EmptyString => EmptyString
  | String c s' => String (lower_ascii c) (toLowerCase s')
  end.

(** [\d] of a regular expression (no unicode flag): 0-9. *)
Definition is_digit (c : ascii) : bool :=
  let n := nat_of_ascii c in ((48 <=? n) && (n <=? 57))%nat.

(** The class [[\+\-\*\/]]. *)
Definition is_operator (c : ascii) : bool :=
  let n := nat_of_ascii c in
  ((n =? 43) || (n =? 45) || (n =? 42) || (n =? 47))%nat.

(** What remains of [s] after a greedy run of digits. *)
Fixpoint skip_digits (s : string) : string :=
  match s with
  | String c s' => if is_digit c then skip_digits s' else s
  | EmptyString => s
  end.

(** [\d+] at the start of [s]: the rest after the greedy run, [None]
    when [s] does not start with a digit. *)
Definition digits1 (s : string) : option string :=
  match s with
  | String c s' => if is_digit c then Some (skip_digits s') else None
  | EmptyString => None
  end.

(** [/\d+[\+\-\*\/]\d+/] anchored at the start of [s].  After the greedy
    run of digits the next code unit is no digit, so giving digits back
    can never help and the greedy match decides. *)
Definition arith_match_here (s : string) : bool :=
  match digits1 s with
  | Some (String c rest) =>
      if is_operator c
      then match digits1 rest with Some _ => true | None => false end
      else false
  | _ => false
  end.

(** [/\d+[\+\-\*\/]\d+/.test(s)]: the pattern matches at some position. *)
Fixpoint arith_test (s : string) : bool :=
  if arith_match_here s then true
  else match s with
       | EmptyString => false
       | String _ s' => arith_test s'
       end.

End JS.

(* ================================================================== *)
(** ** The rule-based terminal fallbacks
       ([GPTProvider.generateFallbackResponse],
        [ClaudeProvider.generateSmartFallback]) *)
(* ================================================================== *)

Module Canned.
Definition greeting : string := "Hello! How can I help you today?".
Definition help : string :=
  "I'm here to help! You can ask me questions about various topics, request explanations, or just chat.".
Definition question : string :=
  "That's an interesting question! While I may not have all the answers, I'd be happy to discuss this topic with you.".
Definition thanks : string :=
  "You're welcome! Is there anything else I can help you with?".
Definition generic : string :=
  "I understand what you're saying. Could you tell me more about that or ask me something specific I can help with?".

Definition programming : string :=
  "I can help with programming questions! Could you be more specific about what you'd like to build or debug?".
Definition math : string :=
  "I can help with calculations and math problems. Please provide the specific equation or problem you'd like me to solve.".
Definition explanation : string :=
  "I'd be happy to explain that concept! Could you give me a bit more context about what specific aspect you'd like me to focus on?".
Definition creative : string :=
  "I can help with creative writing! What kind of story, article, or content would you like me to help you create?".
Definition smart_generic : string :=
  "I understand your message. While I may not have a complete response right now, I'm here to help with various topics including programming, explanations, creative writing, and problem-solving. Could you tell me more about what you need assistance with?".
End Canned.

Section Fallback.

(** [String.prototype.toLowerCase]. *)
Variable toLowerCase : string -> string.

(** [GPTProvider.generateFallbackResponse(message)]. *)
Definition generateFallbackResponse (message : string) : string :=
  let lowerMessage := toLowerCase message in
  if JS.includes lowerMessage "hello" || JS.includes lowerMessage "hi"
  then Canned.greeting
  else if JS.includes lowerMessage "help"
  then Canned.help
  else if JS.includes lowerMessage "what" || JS.includes lowerMessage "how"
          || JS.includes lowerMessage "why"
  then Canned.question
  else if JS.includes lowerMessage "thank"
  then Canned.thanks
  else Canned.generic.

(** [ClaudeProvider.generateSmartFallback(message)].  The arithmetic
    pattern is tested on [message] itself, the keywords on
    [lowerMessage]. *)
Definition generateSmartFallback (message : string) : string :=
  let lowerMessage := toLowerCase message in
  if JS.includes lowerMessage "code" || JS.includes lowerMessage "program"
     || JS.includes lowerMessage "function"
  then Canned.programming
  else if JS.includes lowerMessage "calculate" || JS.includes lowerMessage "math"
          || JS.arith_test message
  then Canned.math
  else if JS.includes lowerMessage "explain" || JS.includes lowerMessage "what is"
          || JS.includes lowerMessage "how does"
  then Canned.explanation
  else if JS.includes lowerMessage "write" || JS.includes lowerMessage "story"
          || JS.includes lowerMessage "creative"
  then Canned.creative
  else Canned.smart_generic.

End Fallback.


(* ================================================================== *)
(** ** Exceptions, promises and parsed JSON *)
(* ================================================================== *)

(** What a [throw] carries: an [Error] object with its message, or any
    other value (the [instanceof Error] tests tell them apart). *)
Inductive Thrown : Type :=
| Err (message : string)
| NonError.

(** A call returns or throws; an awaited promise resolves or rejects. *)
Inductive Result (A : Type) : Type :=
| Return (a : A)
| Throw (e : Thrown).
Arguments Return {A} a.
Arguments Throw {A} e.

Definition bindR {A B} (r : Result A) (k : A -> Result B) : Result B :=
  match r with
  | Return a => k a
  | Throw e => Throw e
  end.

(** [try { body } catch (error) { handler }]. *)
Definition tryCatch {A} (body : Result A) (handler : Thrown -> Result A)
  : Result A :=
  match body with
  | Return a => Return a
  | Throw e => handler e
  end.

Declare Scope result_scope.
Delimit Scope result_scope with result.
Notation "x <- c ;; k" := (bindR c (fun x => k))
  (at level 61, c at next level, right associativity) : result_scope.

(** A value produced by [response.json()].  Numbers are integers here:
    the code only ever asks whether one is truthy. *)
Inductive Value : Type :=
| VNull
| VBool (b : bool)
| VNum (n : Z)
| VStr (s : string)
| VArr (items : list Value)
| VObj (fields : list (string * Value)).

Module Json.

(** [Array.isArray(v)]. *)
Definition isArray (v : Value) : bool :=
  match v with VArr _ => true | _ => false end.

(** [v[0]] on an array; [None] is [undefined]. *)
Definition first (v : Value) : option Value :=
  match v with
  | VArr (x :: _) => Some x
  | _ => None
  end.

(** Own property [k] of a parsed object (its keys are distinct). *)
Fixpoint lookup (fields : list (string * Value)) (k : string)
  : option Value :=
  match fields with
  | [] => None
  | (k', v) :: rest => if String.eqb k' k then Some v else lookup rest k
  end.

(** [x?.k] for a property name [k] that no prototype defines:
    [undefined] on [undefined] and [null], the own property on an object,
    [undefined] on every other value. *)
Definition optGet (x : option Value) (k : string) : option Value :=
  match x with
  | Some (VObj fields) => lookup fields k
  | _ => None
  end.

(** [v.k] for such a name [k]: a [TypeError] on [null], else as [?.]. *)
Definition get (v : Value) (k : string) : Result (option Value) :=
  match v with
  | VNull => Throw (Err "Cannot read properties of null")
  | _ => Return (optGet (Some v) k)
  end.

(** [x[0]] on any value that is there: the first element of an array, the
    property "0" of an object, the first code unit of a string,
    [undefined] otherwise. *)
Definition index0 (x : option Value) : option Value :=
  match x with
  | Some (VArr items) => first (VArr items)
  | Some (VObj fields) => lookup fields "0"
  | Some (VStr (String c _)) => Some (VStr (String c EmptyString))
  | _ => None
  end.

(** Truthiness. *)
Definition truthy (x : option Value) : bool :=
  match x with
  | None => false
  | Some VNull => false
  | Some (VBool b) => b
  | Some (VNum n) => negb (Z.eqb n 0)
  | Some (VStr s) => JS.truthy s
  | Some (VArr _) => true
  | Some (VObj _) => true
  end.

End Json.

(** What [fetch] is asked: the endpoint and the prompt that the constant
    JSON body wraps. *)
Record Request : Type := {
  url : string;
  prompt : string
}.

Record Response : Type := {
  ok : bool;
  status : nat;
  json : Result Value        (* [await response.json()] *)
}.

(** The network, as one call sees it: [await fetch(...)] rejects or
    resolves with a response. *)
Definition Fetch : Type := Request -> Result Response.

(** [interface AIProvider]. *)
Record AIProvider : Type := {
  generateResponse : string -> Result string;
  getName : string
}.

(* ================================================================== *)
(** ** Providers *)
(* ================================================================== *)

(** [import.meta.env]: a variable is absent ([None]) or holds a string. *)
Record Env : Type := {
  VITE_GEMINI_API_KEY : option string;
  VITE_OPENAI_API_KEY : option string;
  VITE_CLAUDE_API_KEY : option string
}.

(** The key a provider finds: [!this.apiKey] is false exactly when the
    variable holds a non-empty string. *)
Definition credential (v : option string) : option string := JS.present v.

Section Providers.

Variable toLowerCase : string -> string.     (* String.prototype.toLowerCase *)
Variable trim : string -> string.            (* String.prototype.trim *)
Variable fetch : Fetch.

(** The remote calls of the credential-holding providers, taken as they
    answer: given the key and the prompt, text or a thrown error. *)
Variable gemini_remote : string -> string -> Result string.
Variable claude_remote : string -> string -> Result string.

Local Open Scope result_scope.

(** *** [GeminiProvider] *)

Definition GeminiProvider_new (env : Env) : Result AIProvider :=
  match credential (VITE_GEMINI_API_KEY env) with
  | None => Throw (Err "VITE_GEMINI_API_KEY environment variable is not set")
  | Some apiKey =>
      Return {| generateResponse := gemini_remote apiKey;
                getName := "Gemini 1.5 Flash" |}
  end.

(** *** [GPTProvider], the Hugging Face one *)

Definition GPT_apiUrl : string :=
  "https://api-inference.huggingface.co/models/microsoft/DialoGPT-large".

Definition GPT_rephrase : string :=
  "I understand your message. Could you please rephrase or ask something else?".

(** The part of [generateResponse] that follows [await response.json()],
    for [data[0]?.generated_text] truthy.  On a value that is no string,
    [responseText.startsWith] is no function and the call throws. *)
Definition cleanGenerated (message : string) (generated : option Value)
  (orElse : string) : Result string :=
  match generated with
  | Some (VStr responseText) =>
      let responseText :=
        if JS.startsWith responseText message
        then trim (JS.substringFrom (String.length message) responseText)
        else responseText in
      Return (if JS.truthy responseText then responseText else orElse)
  | _ => Throw (Err "responseText.startsWith is not a function")
         (* a TypeError; its wording is the engine's and is never read *)
  end.

Definition GPT_generateResponse (message : string) : Result string :=
  tryCatch
    (response <- fetch {| url := GPT_apiUrl; prompt := message |} ;;
     if negb (ok response)
     then Return (generateFallbackResponse toLowerCase message)
     else
       data <- json response ;;
       if Json.isArray data
          && Json.truthy (Json.optGet (Json.first data) "generated_text")
       then cleanGenerated message
              (Json.optGet (Json.first data) "generated_text") GPT_rephrase
       else Return (generateFallbackResponse toLowerCase message))
    (fun _ => Return (generateFallbackResponse toLowerCase message)).

Definition GPTProvider_new (env : Env) : Result AIProvider :=
  Return {| generateResponse := GPT_generateResponse;
            getName := "DialoGPT Large (Free)" |}.

(** *** [ClaudeProvider], the Anthropic one *)

Definition ClaudeProvider_new (env : Env) : Result AIProvider :=
  match credential (VITE_CLAUDE_API_KEY env) with
  | None => Throw (Err "VITE_CLAUDE_API_KEY environment variable is not set")
  | Some apiKey =>
      Return {| generateResponse := claude_remote apiKey;
                getName := "Claude 3" |}
  end.

(** *** [ClaudeProvider], the Groq one: its second and terminal stages *)

Definition Claude_fallbackUrl : string :=
  "https://api-inference.huggingface.co/models/microsoft/DialoGPT-medium".

Definition generateHuggingFaceResponse (message : string) : Result string :=
  tryCatch
    (response <- fetch {| url := Claude_fallbackUrl; prompt := message |} ;;
     if ok response
     then
       data <- json response ;;
       if Json.isArray data
          && Json.truthy (Json.optGet (Json.first data) "generated_text")
       then cleanGenerated message
              (Json.optGet (Json.first data) "generated_text")
              (generateSmartFallback toLowerCase message)
       else Return (generateSmartFallback toLowerCase message)
     else Return (generateSmartFallback toLowerCase message))
    (fun _ => Return (generateSmartFallback toLowerCase message)).

Definition Groq_apiUrl : string :=
  "https://api.groq.com/openai/v1/chat/completions".

(** [generateResponse] of the Groq provider.  What it resolves with on
    success is whatever value [data.choices[0].message.content] holds, so
    the result is a value; the later stages give strings. *)
Definition Groq_generateResponse (message : string) : Result Value :=
  tryCatch
    (response <- fetch {| url := Groq_apiUrl; prompt := message |} ;;
     found <-
       (if ok response
        then
          data <- json response ;;
          choices <- Json.get data "choices" ;;
          let content :=
            Json.optGet (Json.optGet (Json.index0 choices) "message")
              "content" in
          Return (if Json.truthy choices && Json.truthy content
                  then content else None)
        else Return None) ;;
     match found with
     | Some content => Return content
     | None =>
         (* Fallback to Hugging Face *)
         text <- generateHuggingFaceResponse message ;; Return (VStr text)
     end)
    (fun _ =>
       text <- generateHuggingFaceResponse message ;; Return (VStr text)).

End Providers.

(* ================================================================== *)
(** ** [Map<string, V>]: keyed entries in insertion order *)
(* ================================================================== *)

Module JSMap.
Section Def.
Context {V : Type}.

Definition t : Type := list (string * V).

Definition empty : t := [].

(** [m.set(k, v)]: a present key keeps its place and takes the new value,
    a new key goes to the end. *)
Fixpoint set (m : t) (k : string) (v : V) : t :=
  match m with
  | [] => [(k, v)]
  | (k', v') :: rest =>
      if String.eqb k' k then (k', v) :: rest
      else (k', v') :: set rest k v
  end.

(** [m.get(k)]; [None] is [undefined]. *)
Fixpoint get (m : t) (k : string) : option V :=
  match m with
  | [] => None
  | (k', v) :: rest => if String.eqb k' k then Some v else get rest k
  end.

(** [m.entries()], in iteration order. *)
Definition entries (m : t) : list (string * V) := m.

Definition keys (m : t) : list string := List.map fst m.

End Def.
Arguments t V : clear implicits.
End JSMap.

(* ================================================================== *)
(** ** The registry, [class AIService] *)
(* ================================================================== *)

Record AIService : Type := {
  providers : JSMap.t AIProvider
}.

(** An element of the array that [getAvailableModels] returns. *)
Record ModelInfo : Type := {
  key : string;
  name : string
}.

(** [getAvailableModels()], the same in every copy of the class. *)
Definition getAvailableModels (this : AIService) : list ModelInfo :=
  List.map (fun '(key, provider) => {| key := key; name := getName provider |})
           (JSMap.entries (providers this)).

(** [try { providers.set(key, new P()) } catch (error) { console.warn(..) }] *)
Definition trySet (providers : JSMap.t AIProvider) (key : string)
  (constructed : Result AIProvider) : JSMap.t AIProvider :=
  match constructed with
  | Return provider => JSMap.set providers key provider
  | Throw _ => providers
  end.

(** *** [client/src/services/aiService.ts] *)
Module Client.
Section Service.

Variable toLowerCase : string -> string.
Variable trim : string -> string.
Variable fetch : Fetch.
Variable gemini_remote : string -> string -> Result string.
Variable claude_remote : string -> string -> Result string.

(** [new AIService()]. *)
Definition AIService_new (env : Env) : Result AIService :=
  let providers := JSMap.empty in
  let providers :=
    trySet providers "gemini" (GeminiProvider_new gemini_remote env) in
  let providers :=
    trySet providers "gpt" (GPTProvider_new toLowerCase trim fetch env) in
  let providers :=
    trySet providers "claude" (ClaudeProvider_new claude_remote env) in
  Return {| providers := providers |}.

End Service.

Definition notAvailable (model : string) : string :=
  "AI model " ++ JS.dquote ++ model ++ JS.dquote
    ++ " not available. Please check your API keys.".

(** [getProvider(model)]. *)
Definition getProvider (this : AIService) (model : string)
  : Result AIProvider :=
  match JSMap.get (providers this) model with
  | None => Throw (Err (notAvailable model))
  | Some provider => Return provider
  end.

End Client.

(** *** [src/services/aiService.ts], the registry the root [App.tsx] imports *)
Module Root.

(** The mock [GPTProvider] and [ClaudeProvider] of this copy: they wait and
    answer with a fixed sentence around the prompt. *)
Definition GPT_generateResponse (message : string) : Result string :=
  Return ("GPT-4 Response: This is a simulated response to " ++ JS.dquote
            ++ message ++ JS.dquote
            ++ ". To use real GPT-4, implement OpenAI API integration.").

Definition GPTProvider_new : Result AIProvider :=
  Return {| generateResponse := GPT_generateResponse; getName := "GPT-4" |}.

Definition Claude_generateResponse (message : string) : Result string :=
  Return ("Claude 3 Response: This is a simulated response to " ++ JS.dquote
            ++ message ++ JS.dquote
            ++ ". To use real Claude, implement Anthropic API integration.").

Definition ClaudeProvider_new : Result AIProvider :=
  Return {| generateResponse := Claude_generateResponse;
            getName := "Claude 3" |}.

Section Service.

Variable gemini_remote : string -> string -> Result string.

Local Open Scope result_scope.

(** [new AIService()]: the three [set] calls stand unguarded. *)
Definition AIService_new (env : Env) : Result AIService :=
  let providers := JSMap.empty in
  gemini <- GeminiProvider_new gemini_remote env ;;
  let providers := JSMap.set providers "gemini" gemini in
  gpt <- GPTProvider_new ;;
  let providers := JSMap.set providers "gpt" gpt in
  claude <- ClaudeProvider_new ;;
  let providers := JSMap.set providers "claude" claude in
  Return {| providers := providers |}.

End Service.

Definition notSupported (model : string) : string :=
  "AI model " ++ JS.dquote ++ model ++ JS.dquote ++ " not supported".

(** [getProvider(model)]. *)
Definition getProvider (this : AIService) (model : string)
  : Result AIProvider :=
  match JSMap.get (providers this) model with
  | None => Throw (Err (notSupported model))
  | Some provider => Return provider
  end.

End Root.

(* ================================================================== *)
(** ** The chat state of [App.tsx] *)
(* ================================================================== *)

Module Attachment.
Record t : Type := {
  id : string;
  name : string;
  type : string;
  size : nat;
  url : string;
  content : option string     (* [content?: string] *)
}.
End Attachment.

(** [type: 'user' | 'ai']. *)
Inductive Role : Type := user | ai.

Definition Role_eqb (a b : Role) : bool :=
  match a, b with
  | user, user | ai, ai => true
  | _, _ => false
  end.

Module Message.
Record t : Type := {
  id : string;
  type : Role;
  text : string;
  timestamp : Z;
  model : option string;
  attachments : option (list Attachment.t)
}.
End Message.

Record ChatState : Type := {
  messages : list Message.t;
  isLoading : bool;
  error : option string       (* [string | null] *)
}.

(** Of [Settings] the handlers below read [aiModel] alone. *)
Record Settings : Type := {
  aiModel : string
}.

Record Conversation : Type := {
  conv_id : string;
  title : string;
  conv_messages : list Message.t;
  createdAt : Z;
  updatedAt : Z
}.

(** What a handler does, in the order it does it. *)
Inductive Event : Type :=
| SetChatState (next : ChatState)                      (* a state update ran *)
| GetProvider (model : string)                         (* [aiService.getProvider] *)
| GenerateResponse (provider : string) (prompt : string). (* [provider.generateResponse] *)

(** The application as a handler sees it: the React state, how many ids and
    dates have been drawn, and the events so far (oldest first). *)
Record Sys : Type := {
  chatState : ChatState;
  drawn : nat;
  log : list Event
}.

(** A handler: it runs on the application, leaves it changed, and returns
    or throws. *)
Definition M (A : Type) : Type := Sys -> Result A * Sys.

Definition ret {A} (a : A) : M A := fun s => (Return a, s).

Definition bind {A B} (c : M A) (k : A -> M B) : M B :=
  fun s =>
    match c s with
    | (Return a, s') => k a s'
    | (Throw e, s') => (Throw e, s')
    end.

(** [try { body } catch (error) { handler }]: what [body] did before it
    threw stays done. *)
Definition try_ {A} (body : M A) (handler : Thrown -> M A) : M A :=
  fun s =>
    match body s with
    | (Return a, s') => (Return a, s')
    | (Throw e, s') => handler e s'
    end.

(** A call that touches no state, such as a method of the registry. *)
Definition call {A} (ev : list Event) (r : Result A) : M A :=
  fun s => (r, {| chatState := chatState s; drawn := drawn s;
                  log := log s ++ ev |}).

(** [setChatState(prev => f(prev))]. *)
Definition setChatState (f : ChatState -> ChatState) : M unit :=
  fun s =>
    let next := f (chatState s) in
    (Return tt, {| chatState := next; drawn := drawn s;
                   log := log s ++ [SetChatState next] |}).

(** Reading [chatState] in a handler. *)
Definition getChatState : M ChatState := fun s => (Return (chatState s), s).

Declare Scope app_scope.
Delimit Scope app_scope with app.
Notation "x <- c ;; k" := (bind c (fun x => k))
  (at level 61, c at next level, right associativity) : app_scope.
Notation "c ;; k" := (bind c (fun _ => k))
  (at level 61, right associativity) : app_scope.

(** [array.slice(0, -1)]. *)
Definition slice_0_minus1 {A} (l : list A) : list A := List.removelast l.

(** The arrow function that [handleSendMessage] maps over the attachments. *)
Definition attachmentBlock (att : Attachment.t) : string :=
  match Attachment.content att with
  | Some content =>
      if JS.truthy content && JS.startsWith (Attachment.type att) "text/"
      then "File " ++ JS.dquote ++ Attachment.name att ++ JS.dquote
             ++ " content:" ++ JS.nl ++ content
      else "File attached: " ++ Attachment.name att
             ++ " (" ++ Attachment.type att ++ ")"
  | None => "File attached: " ++ Attachment.name att
              ++ " (" ++ Attachment.type att ++ ")"
  end.

(** [contextualMessage] of [handleSendMessage]. *)
Definition contextualMessage (messageText : string)
  (attachments : option (list Attachment.t)) : string :=
  match attachments with
  | Some ((_ :: _) as attachments) =>
      let attachmentContext :=
        JS.join (List.map attachmentBlock attachments) (JS.nl ++ JS.nl) in
      messageText ++ JS.nl ++ JS.nl ++ "Attached files:" ++ JS.nl
        ++ attachmentContext
  | _ => messageText
  end.

(** [error instanceof Error ? error.message : 'Failed to get AI response']. *)
Definition errorText (e : Thrown) : string :=
  match e with
  | Err message => message
  | NonError => "Failed to get AI response"
  end.

Definition is_user (msg : Message.t) : bool := Role_eqb (Message.type msg) user.

(** [generateConversationTitle(messages)]. *)
Definition generateConversationTitle (messages : list Message.t) : string :=
  match List.find is_user messages with
  | Some firstUserMessage =>
      if (30 <? String.length (Message.text firstUserMessage))%nat
      then JS.substring0 30 (Message.text firstUserMessage) ++ "..."
      else Message.text firstUserMessage
  | None => "New Conversation"
  end.

Section App.

Variable uuidv4_at : nat -> string.    (* the n-th id that [uuidv4()] yields *)
Variable date_at : nat -> Z.           (* the clock at the n-th draw *)
Variable aiService : AIService.        (* [aiService.current] *)
Variable settings : Settings.

Local Open Scope app_scope.

(** [uuidv4()]. *)
Definition uuidv4 : M string :=
  fun s => (Return (uuidv4_at (drawn s)),
            {| chatState := chatState s; drawn := S (drawn s); log := log s |}).

(** [new Date()]. *)
Definition newDate : M Z :=
  fun s => (Return (date_at (drawn s)),
            {| chatState := chatState s; drawn := S (drawn s); log := log s |}).

(** [handleSendMessage(messageText, attachments?)]. *)
Definition handleSendMessage (messageText : string)
  (attachments : option (list Attachment.t)) : M unit :=
  id <- uuidv4 ;;
  timestamp <- newDate ;;
  let userMessage :=
    {| Message.id := id; Message.type := user; Message.text := messageText;
       Message.timestamp := timestamp; Message.model := None;
       Message.attachments := attachments |} in
  setChatState (fun prev =>
    {| messages := messages prev ++ [userMessage];
       isLoading := true;
       error := None |}) ;;
  try_
    (provider <- call [GetProvider (aiModel settings)]
                   (Root.getProvider aiService (aiModel settings)) ;;
     let contextualMessage := contextualMessage messageText attachments in
     response <- call [GenerateResponse (getName provider) contextualMessage]
                   (generateResponse provider contextualMessage) ;;
     id <- uuidv4 ;;
     timestamp <- newDate ;;
     let aiMessage :=
       {| Message.id := id; Message.type := ai; Message.text := response;
          Message.timestamp := timestamp;
          Message.model := Some (getName provider);
          Message.attachments := None |} in
     setChatState (fun prev =>
       {| messages := messages prev ++ [aiMessage];
          isLoading := false;
          error := error prev |}))
    (fun error_ =>
       setChatState (fun prev =>
         {| messages := messages prev;
            isLoading := false;
            error := Some (errorText error_) |})).

(** [handleRegenerate()].  The [chatState] it reads is the one of the render
    that made the handler; React renders again after every update, so this
    is the state at the time of the click. *)
Definition handleRegenerate : M unit :=
  chatState <- getChatState ;;
  let lastUserMessage := List.find is_user (List.rev (messages chatState)) in
  match lastUserMessage with
  | Some lastUserMessage =>
      (* Remove the last AI response *)
      setChatState (fun prev =>
        {| messages := slice_0_minus1 (messages prev);
           isLoading := isLoading prev;
           error := None |}) ;;
      (* Regenerate response *)
      handleSendMessage (Message.text lastUserMessage) None
  | None => ret tt
  end.

(** [handleRetry()]. *)
Definition handleRetry : M unit :=
  chatState <- getChatState ;;
  let lastUserMessage := List.find is_user (List.rev (messages chatState)) in
  match lastUserMessage with
  | Some lastUserMessage =>
      setChatState (fun prev =>
        {| messages := messages prev;
           isLoading := isLoading prev;
           error := None |}) ;;
      handleSendMessage (Message.text lastUserMessage) None
  | None => ret tt
  end.

(** The [conversation] object that [handleNewConversation] builds, and
    saves, when the chat holds messages;
    [currentConversationId || uuidv4()] gives its id. *)
Definition conversationToSave (currentConversationId : option string)
  : M (option Conversation) :=
  chatState <- getChatState ;;
  match messages chatState with
  | [] => ret None
  | _ :: _ =>
      id <- match JS.present currentConversationId with
            | Some id => ret id
            | None => uuidv4
            end ;;
      let title := generateConversationTitle (messages chatState) in
      created <- newDate ;;
      updated <- newDate ;;
      ret (Some {| conv_id := id; title := title;
                   conv_messages := messages chatState;
                   createdAt := created; updatedAt := updated |})
  end.

End App.

(* ================================================================== *)
(** ** The remote calls of the credential-holding providers *)
(* ================================================================== *)

(** [`${n}`] for a status code. *)
Definition decimal (n : nat) : string :=
  NilEmpty.string_of_uint (Nat.to_uint n).

Section Remote.

Variable fetch : Fetch.
(** The message of the [TypeError] that reading property [k] of [null] or
    [undefined] raises; its wording is the engine's. *)
Variable typeErrorMessage : string -> string.
(** [String(v)] for a value that is no string. *)
Variable toStringOther : Value -> string.

Local Open Scope result_scope.

(** The message that [new Error(v)] takes from [v]. *)
Definition toStringValue (v : option Value) : string :=
  match v with
  | Some (VStr s) => s
  | Some other => toStringOther other
  | None => "undefined"
  end.

(** [x.k], which throws on [null] and [undefined]. *)
Definition getT (x : option Value) (k : string) : Result (option Value) :=
  match x with
  | None | Some VNull => Throw (Err (typeErrorMessage k))
  | _ => Return (Json.optGet x k)
  end.

(** [x[0]], which throws on [null] and [undefined]. *)
Definition index0T (x : option Value) : Result (option Value) :=
  match x with
  | None | Some VNull => Throw (Err (typeErrorMessage "0"))
  | _ => Return (Json.index0 x)
  end.

(** The branch [if (!response.ok) { ... }], the same in the three
    providers: it always throws. *)
Definition throwHttpError {A} (response : Response) : Result A :=
  errorData <- json response ;;
  error_ <- getT (Some errorData) "error" ;;
  let vendor := Json.optGet error_ "message" in
  Throw (Err (if Json.truthy vendor then toStringValue vendor
              else "HTTP error! status: " ++ decimal (status response))).

(** *** [GeminiProvider.generateResponse] *)

Definition Gemini_apiUrl : string :=
  "https://generativelanguage.googleapis.com/v1beta/models/gemini-1.5-flash:generateContent".

(** The [catch] block of [GeminiProvider.generateResponse]: what it throws
    for what it caught. *)
Definition Gemini_catch (error_ : Thrown) : Thrown :=
  match error_ with
  | Err message =>
      if JS.includes message "API key not valid"
      then Err "Invalid API key. Please check your Gemini API key."
      else if JS.includes message "quota"
      then Err "API quota exceeded. Please try again later."
      else if JS.includes message "Failed to fetch"
      then Err "Network error. Please check your internet connection."
      else error_
  | NonError =>
      Err "An unexpected error occurred while contacting the AI service."
  end.

Definition Gemini_generateResponse (apiKey message : string)
  : Result (option Value) :=
  tryCatch
    (response <- fetch {| url := Gemini_apiUrl ++ "?key=" ++ apiKey;
                          prompt := message |} ;;
     if negb (ok response) then throwHttpError response
     else
       data <- json response ;;
       candidates <- getT (Some data) "candidates" ;;
       if negb (Json.truthy candidates)
          || negb (Json.truthy (Json.index0 candidates))
          || negb (Json.truthy
                     (Json.optGet (Json.index0 candidates) "content"))
       then Throw (Err "Invalid response format from Gemini API")
       else
         parts <- getT (Json.optGet (Json.index0 candidates) "content")
                    "parts" ;;
         part <- index0T parts ;;
         getT part "text")
    (fun error_ => Throw (Gemini_catch error_)).

(** *** [ClaudeProvider.generateResponse], the Anthropic one.  The key
    travels in a header; [fetch] stands for the network as this provider,
    with its key, meets it. *)

Definition Claude_apiUrl : string := "https://api.anthropic.com/v1/messages".

Definition Claude_catch (error_ : Thrown) : Thrown :=
  match error_ with
  | Err message =>
      if JS.includes message "authentication"
      then Err "Invalid Claude API key. Please check your API key."
      else if JS.includes message "rate_limit"
      then Err "Claude API rate limit exceeded. Please try again later."
      else error_
  | NonError => Err "An unexpected error occurred while contacting Claude."
  end.

Definition Claude_generateResponse (message : string)
  : Result (option Value) :=
  tryCatch
    (response <- fetch {| url := Claude_apiUrl; prompt := message |} ;;
     if negb (ok response) then throwHttpError response
     else
       data <- json response ;;
       content <- getT (Some data) "content" ;;
       if negb (Json.truthy content)
          || negb (Json.truthy (Json.index0 content))
          || negb (Json.truthy (Json.optGet (Json.index0 content) "text"))
       then Throw (Err "Invalid response format from Claude API")
       else Return (Json.optGet (Json.index0 content) "text"))
    (fun error_ => Throw (Claude_catch error_)).

(** *** [GPTProvider.generateResponse], the OpenAI one *)

Definition OpenAI_apiUrl : string :=
  "https://api.openai.com/v1/chat/completions".

Definition OpenAI_catch (error_ : Thrown) : Thrown :=
  match error_ with
  | Err message =>
      if JS.includes message "Incorrect API key"
      then Err "Invalid OpenAI API key. Please check your API key."
      else if JS.includes message "quota"
      then Err "OpenAI API quota exceeded. Please try again later."
      else error_
  | NonError => Err "An unexpected error occurred while contacting OpenAI."
  end.

Definition OpenAI_generateResponse (message : string)
  : Result (option Value) :=
  tryCatch
    (response <- fetch {| url := OpenAI_apiUrl; prompt := message |} ;;
     if negb (ok response) then throwHttpError response
     else
       data <- json response ;;
       choices <- getT (Some data) "choices" ;;
       if negb (Json.truthy choices)
          || negb (Json.truthy (Json.index0 choices))
          || negb (Json.truthy
                     (Json.optGet (Json.index0 choices) "message"))
       then Throw (Err "Invalid response format from OpenAI API")
       else
         Return (Json.optGet (Json.optGet (Json.index0 choices) "message")
                   "content"))
    (fun error_ => Throw (OpenAI_catch error_)).

End Remote.

(** *** The second [aiService.ts] under [client/src/services]: every
    provider holds a credential *)
Module ClientKeyed.
Section Service.

Variable gemini_remote : string -> string -> Result string.
Variable gpt_remote : string -> string -> Result string.
Variable claude_remote : string -> string -> Result string.

Definition GPTProvider_new (env : Env) : Result AIProvider :=
  match credential (VITE_OPENAI_API_KEY env) with
  | None => Throw (Err "VITE_OPENAI_API_KEY environment variable is not set")
  | Some apiKey =>
      Return {| generateResponse := gpt_remote apiKey; getName := "GPT-4" |}
  end.

(** [new AIService()]. *)
Definition AIService_new (env : Env) : Result AIService :=
  let providers := JSMap.empty in
  let providers :=
    trySet providers "gemini" (GeminiProvider_new gemini_remote env) in
  let providers := trySet providers "gpt" (GPTProvider_new env) in
  let providers :=
    trySet providers "claude" (ClaudeProvider_new claude_remote env) in
  Return {| providers := providers |}.

End Service.
End ClientKeyed.

(* ================================================================== *)
(** ** The conversation list and the other handlers of [App.tsx] *)
(* ================================================================== *)

(** A call on [storageService.current]. *)
Inductive StorageCall : Type :=
| SaveConversation (conversation : Conversation)
| DeleteConversation (conversationId : string)
| ClearCurrentConversation
| ClearAllData.

(** The state hooks of [App] next to [chatState], and the storage calls made
    so far (oldest first). *)
Record AppState : Type := {
  sys : Sys;
  conversations : list Conversation;
  currentConversationId : option string;     (* [string | null] *)
  isSettingsOpen : bool;
  isSidebarOpen : bool;
  storage : list StorageCall
}.

Definition id_is (conversationId : string) (c : Conversation) : bool :=
  String.eqb (conv_id c) conversationId.

(** The updater that [handleNewConversation] gives to [setConversations]. *)
Definition upsertConversation (conversation : Conversation)
  (prev : list Conversation) : list Conversation :=
  match List.find (id_is (conv_id conversation)) prev with
  | Some existing =>
      List.map (fun c => if id_is (conv_id conversation) c
                         then conversation else c) prev
  | None => conversation :: prev
  end.

(** The updater that [handleDeleteConversation] gives to
    [setConversations]. *)
Definition removeConversation (conversationId : string)
  (prev : list Conversation) : list Conversation :=
  List.filter (fun c => negb (id_is conversationId c)) prev.

(** The [onRegenerate] test of the message list: the handler is handed to
    the message at [index] exactly when this holds. *)
Definition regenerateOffered (messages : list Message.t) (index : nat)
  : bool :=
  match List.nth_error messages index with
  | Some message =>
      Role_eqb (Message.type message) ai
      && (index =? List.length messages - 1)%nat
  | None => false
  end.

Definition welcomeText : string :=
  "Hello! I'm your AI assistant with multi-model support. I can help you with questions, creative tasks, problem-solving, and much more. You can switch between different AI models in settings, use voice input/output, and even attach files to our conversation. How can I assist you today?".

Section AppHandlers.

Variable uuidv4_at : nat -> string.
Variable date_at : nat -> Z.
Variable settings : Settings.

(** Running a step of the chat on the application. *)
Definition onSys {A} (c : M A) (app : AppState) : Result A * AppState :=
  let (r, s) := c (sys app) in
  (r, {| sys := s; conversations := conversations app;
         currentConversationId := currentConversationId app;
         isSettingsOpen := isSettingsOpen app;
         isSidebarOpen := isSidebarOpen app;
         storage := storage app |}).

Definition setConversations
  (f : list Conversation -> list Conversation) (app : AppState) : AppState :=
  {| sys := sys app; conversations := f (conversations app);
     currentConversationId := currentConversationId app;
     isSettingsOpen := isSettingsOpen app;
     isSidebarOpen := isSidebarOpen app;
     storage := storage app |}.

Definition setCurrentConversationId (v : option string) (app : AppState)
  : AppState :=
  {| sys := sys app; conversations := conversations app;
     currentConversationId := v;
     isSettingsOpen := isSettingsOpen app;
     isSidebarOpen := isSidebarOpen app;
     storage := storage app |}.

Definition setIsSettingsOpen (v : bool) (app : AppState) : AppState :=
  {| sys := sys app; conversations := conversations app;
     currentConversationId := currentConversationId app;
     isSettingsOpen := v;
     isSidebarOpen := isSidebarOpen app;
     storage := storage app |}.

Definition setIsSidebarOpen (v : bool) (app : AppState) : AppState :=
  {| sys := sys app; conversations := conversations app;
     currentConversationId := currentConversationId app;
     isSettingsOpen := isSettingsOpen app;
     isSidebarOpen := v;
     storage := storage app |}.

Definition storageCall (c : StorageCall) (app : AppState) : AppState :=
  {| sys := sys app; conversations := conversations app;
     currentConversationId := currentConversationId app;
     isSettingsOpen := isSettingsOpen app;
     isSidebarOpen := isSidebarOpen app;
     storage := storage app ++ [c] |}.

(** [addWelcomeMessage()]. *)
Definition addWelcomeMessage : M unit :=
  (id <- uuidv4 uuidv4_at ;;
   timestamp <- newDate date_at ;;
   let welcomeMessage :=
     {| Message.id := id; Message.type := ai; Message.text := welcomeText;
        Message.timestamp := timestamp;
        Message.model := Some (aiModel settings);
        Message.attachments := None |} in
   setChatState (fun prev =>
     {| messages := [welcomeMessage];
        isLoading := isLoading prev;
        error := error prev |}))%app.

(** [setChatState({ messages: [], isLoading: false, error: null })]. *)
Definition resetChat : M unit :=
  setChatState (fun _ => {| messages := []; isLoading := false;
                            error := None |}).

(** [handleNewConversation()].  What it reads of [chatState] and
    [currentConversationId] is what the render that made it saw, [rendered];
    what it updates is the application as it stands, [app]. *)
Definition handleNewConversation (rendered : AppState) (app : AppState)
  : AppState :=
  let chat := chatState (sys rendered) in
  let app :=
    match messages chat with
    | [] => app
    | _ :: _ =>
        (* Save current conversation if it has messages *)
        let (id, app) :=
          match JS.present (currentConversationId rendered) with
          | Some id => (Return id, app)
          | None => onSys (uuidv4 uuidv4_at) app
          end in
        let (created, app) := onSys (newDate date_at) app in
        let (updated, app) := onSys (newDate date_at) app in
        match id, created, updated with
        | Return id, Return created, Return updated =>
            let conversation :=
              {| conv_id := id;
                 title := generateConversationTitle (messages chat);
                 conv_messages := messages chat;
                 createdAt := created;
                 updatedAt := updated |} in
            let app := storageCall (SaveConversation conversation) app in
            setConversations (upsertConversation conversation) app
        | _, _, _ => app
        end
    end in
  (* Start new conversation *)
  let app := snd (onSys resetChat app) in
  let app := setCurrentConversationId None app in
  let app := storageCall ClearCurrentConversation app in
  let app := snd (onSys addWelcomeMessage app) in
  setIsSidebarOpen false app.

(** [handleSelectConversation(conversation)]. *)
Definition handleSelectConversation (conversation : Conversation)
  (app : AppState) : AppState :=
  let app :=
    snd (onSys (setChatState (fun _ =>
                  {| messages := conv_messages conversation;
                     isLoading := false;
                     error := None |})) app) in
  let app := setCurrentConversationId (Some (conv_id conversation)) app in
  setIsSidebarOpen false app.

(** [handleDeleteConversation(conversationId)]. *)
Definition handleDeleteConversation (conversationId : string)
  (rendered : AppState) (app : AppState) : AppState :=
  let app := storageCall (DeleteConversation conversationId) app in
  let app := setConversations (removeConversation conversationId) app in
  match currentConversationId rendered with
  | Some current =>
      if String.eqb current conversationId
      then handleNewConversation rendered app
      else app
  | None => app
  end.

(** [handleClearHistory()]; [confirmed] is what [confirm(...)] answers. *)
Definition handleClearHistory (confirmed : bool) (app : AppState) : AppState :=
  if confirmed then
    let app := storageCall ClearAllData app in
    let app := setConversations (fun _ => []) app in
    let app := snd (onSys resetChat app) in
    let app := setCurrentConversationId None app in
    let app := snd (onSys addWelcomeMessage app) in
    setIsSettingsOpen false app
  else app.

(** A handler as the interface runs it: on the application that the last
    render showed. *)
Definition click (handler : AppState -> AppState -> AppState)
  (app : AppState) : AppState :=
  handler app app.

End AppHandlers.

(* ================================================================== *)
(** ** [src/services/imageService.ts]: the prompt tests *)
(* ================================================================== *)

Definition imageKeywords : list string :=
  ["generate image"; "create image"; "draw"; "paint"; "sketch";
   "make a picture"; "show me"; "visualize"; "illustrate";
   "generate a photo"; "create artwork"; "design"].

Definition imagePrefixes : list string :=
  ["generate image of"; "create image of"; "draw"; "paint";
   "make a picture of"; "show me"; "visualize"; "illustrate";
   "generate a photo of"; "create artwork of"; "design"].

Section ImageService.

Variable toLowerCase : string -> string.
Variable trim : string -> string.

(** [isImageGenerationPrompt(text)]. *)
Definition isImageGenerationPrompt (text : string) : bool :=
  let lowerText := toLowerCase text in
  List.existsb (fun keyword => JS.includes lowerText keyword) imageKeywords.

(** The [for] loop of [extractImagePrompt]: the first prefix that
    [cleanPrompt] starts with is cut off, and the loop ends there. *)
Fixpoint stripFirstPrefix (prefixes : list string) (cleanPrompt : string)
  : string :=
  match prefixes with
  | [] => cleanPrompt
  | prefix :: rest =>
      if JS.startsWith cleanPrompt prefix
      then trim (JS.substringFrom (String.length prefix) cleanPrompt)
      else stripFirstPrefix rest cleanPrompt
  end.

(** [extractImagePrompt(text)]. *)
Definition extractImagePrompt (text : string) : string :=
  let cleanPrompt := stripFirstPrefix imagePrefixes (toLowerCase text) in
  if JS.truthy cleanPrompt then cleanPrompt else text.

End ImageService.

(* ================================================================== *)
(** ** The rule tables the specification speaks of *)
(* ================================================================== *)

(** A rule: a test on the prompt and the canned response it selects. *)
Definition Rule : Type := ((string -> bool) * string)%type.

(** Ordered rules, first match wins; [otherwise] when none matches. *)
Fixpoint firstMatch (rules : list Rule) (otherwise : string)
  (message : string) : string :=
  match rules with
  | [] => otherwise
  | (test, response) :: rest =>
      if test message then response else firstMatch rest otherwise message
  end.

Section Rules.

Variable toLowerCase : string -> string.

Definition lowerHas (keyword : string) (message : string) : bool :=
  JS.includes (toLowerCase message) keyword.

Definition greetingRule : Rule :=
  (fun m => lowerHas "hello" m || lowerHas "hi" m, Canned.greeting).
Definition helpRule : Rule :=
  (fun m => lowerHas "help" m, Canned.help).
Definition questionRule : Rule :=
  (fun m => lowerHas "what" m || lowerHas "how" m || lowerHas "why" m,
   Canned.question).
Definition thanksRule : Rule :=
  (fun m => lowerHas "thank" m, Canned.thanks).
Definition programmingRule : Rule :=
  (fun m => lowerHas "code" m || lowerHas "program" m || lowerHas "function" m,
   Canned.programming).
Definition mathRule : Rule :=
  (fun m => lowerHas "calculate" m || lowerHas "math" m || JS.arith_test m,
   Canned.math).
Definition explanationRule : Rule :=
  (fun m => lowerHas "explain" m || lowerHas "what is" m
            || lowerHas "how does" m,
   Canned.explanation).
Definition creativeRule : Rule :=
  (fun m => lowerHas "write" m || lowerHas "story" m || lowerHas "creative" m,
   Canned.creative).

(** The rules of [GPTProvider.generateFallbackResponse], in its order. *)
Definition GPT_rules : list Rule :=
  [greetingRule; helpRule; questionRule; thanksRule].

(** The rules of [ClaudeProvider.generateSmartFallback], in its order. *)
Definition Smart_rules : list Rule :=
  [programmingRule; mathRule; explanationRule; creativeRule].

(** The specification's reading: one terminal strategy running the eight
    checks as a single sequence (greeting, help, interrogative, thank,
    programming, arithmetic, explain, write), with one generic response. *)
Definition spec_single_chain (generic : string) (message : string) : string :=
  firstMatch (GPT_rules ++ Smart_rules) generic message.

End Rules.

(** The canned responses of either fallback. *)
Definition GPT_canned : list string :=
  [Canned.greeting; Canned.help; Canned.question; Canned.thanks;
   Canned.generic].

Definition Smart_canned : list string :=
  [Canned.programming; Canned.math; Canned.explanation; Canned.creative;
   Canned.smart_generic].


(** The user message that a send creates on the application [s]: the next
    id and the next date are drawn for it. *)
Definition sentMessage (uuidv4_at : nat -> string) (date_at : nat -> Z)
  (s : Sys) (messageText : string) (attachments : option (list Attachment.t))
  : Message.t :=
  {| Message.id := uuidv4_at (drawn s); Message.type := user;
     Message.text := messageText;
     Message.timestamp := date_at (S (drawn s)); Message.model := None;
     Message.attachments := attachments |}.


(** A small world to run the handlers in: the registry of the root
    application with its Gemini key set, the mock GPT provider selected,
    ids and dates numbered by the draw. *)
Module Demo.

Definition env : Env :=
  {| VITE_GEMINI_API_KEY := Some "k";
     VITE_OPENAI_API_KEY := None;
     VITE_CLAUDE_API_KEY := None |}.

Definition aiService : AIService :=
  match Root.AIService_new (fun _ _ => Throw (Err "Failed to fetch")) env with
  | Return this => this
  | Throw _ => {| providers := JSMap.empty |}
  end.

Definition uuidv4_at (n : nat) : string :=
  "id-" ++ String (ascii_of_nat (48 + n)) EmptyString.

Definition date_at (n : nat) : Z := Z.of_nat n.

Definition gpt : Settings := {| aiModel := "gpt" |}.
Definition gemini : Settings := {| aiModel := "gemini" |}.
Definition unknown : Settings := {| aiModel := "llama" |}.

Definition userSays (text : string) : Message.t :=
  {| Message.id := "u"; Message.type := user; Message.text := text;
     Message.timestamp := 0%Z; Message.model := None;
     Message.attachments := None |}.

Definition aiSays (text : string) : Message.t :=
  {| Message.id := "a"; Message.type := ai; Message.text := text;
     Message.timestamp := 0%Z; Message.model := Some "GPT-4";
     Message.attachments := None |}.

Definition textFile : Attachment.t :=
  {| Attachment.id := "1"; Attachment.name := "a.txt";
     Attachment.type := "text/plain"; Attachment.size := 1;
     Attachment.url := "blob:1"; Attachment.content := Some "X" |}.

Definition image : Attachment.t :=
  {| Attachment.id := "2"; Attachment.name := "a.png";
     Attachment.type := "image/png"; Attachment.size := 4;
     Attachment.url := "blob:2"; Attachment.content := None |}.

(** An image whose [content] carries its base64 data. *)
Definition imageWithData : Attachment.t :=
  {| Attachment.id := "3"; Attachment.name := "b.png";
     Attachment.type := "image/png"; Attachment.size := 4;
     Attachment.url := "blob:3"; Attachment.content := Some "iVBORw0KGgo=" |}.

(** A text file that is empty. *)
Definition emptyTextFile : Attachment.t :=
  {| Attachment.id := "4"; Attachment.name := "empty.txt";
     Attachment.type := "text/plain"; Attachment.size := 0;
     Attachment.url := "blob:4"; Attachment.content := Some "" |}.

Definition idle (messages : list Message.t) : Sys :=
  {| chatState := {| messages := messages; isLoading := false; error := None |};
     drawn := 0;
     log := [] |}.

End Demo.

(** The same small world with its conversation list. *)
Module DemoApp.

Definition first : Conversation :=
  {| conv_id := "c1"; title := "hi";
     conv_messages := [Demo.userSays "hi"; Demo.aiSays "hello"];
     createdAt := 1%Z; updatedAt := 1%Z |}.

Definition second : Conversation :=
  {| conv_id := "c2"; title := "bye";
     conv_messages := [Demo.userSays "bye"];
     createdAt := 2%Z; updatedAt := 2%Z |}.

(** The application showing [messages], with [current] open. *)
Definition showing (messages : list Message.t) (current : option string)
  : AppState :=
  {| sys := Demo.idle messages;
     conversations := [first; second];
     currentConversationId := current;
     isSettingsOpen := false;
     isSidebarOpen := true;
     storage := [] |}.

End DemoApp.

(* ================================================================== *)
(** * Properties *)
(* ================================================================== *)

(** ** Strings *)

Lemma prefix_app (p s : string) :
  String.prefix p s = true <-> exists rest, s = p ++ rest.
Proof.
  revert s; induction p as [|c p IH]; intros s.
  - split; [intros _; exists s; reflexivity | intros _; destruct s; reflexivity].
  - destruct s as [|d s]; simpl.
    + split; [discriminate | intros [rest H]; discriminate H].
    + destruct (Ascii.ascii_dec c d) as [->|Hne].
      * rewrite IH. split; intros [rest H]; exists rest.
        -- now rewrite H.
        -- now inversion H.
      * split; [discriminate | intros [rest H]; inversion H; congruence].
Qed.

Lemma includes_unfold (s sub : string) :
  JS.includes s sub =
  if String.prefix sub s then true
  else match s with
       | EmptyString => false
       | String _ s' => JS.includes s' sub
       end.
Proof. destruct s; reflexivity. Qed.

(** [includes] finds exactly the contiguous occurrences. *)
Lemma includes_app (s sub : string) :
  JS.includes s sub = true <-> exists before after, s = before ++ sub ++ after.
Proof.
  induction s as [|c s IH]; rewrite includes_unfold.
  - destruct (String.prefix sub "") eqn:P.
    + split; [intros _ | reflexivity].
      apply prefix_app in P as [rest H]. exists "", rest. exact H.
    + split; [discriminate|].
      intros [before [after H]].
      destruct before; simpl in H.
      * assert (String.prefix sub "" = true) by (apply prefix_app; eauto).
        congruence.
      * discriminate H.
  - destruct (String.prefix sub (String c s)) eqn:P.
    + split; [intros _ | reflexivity].
      apply prefix_app in P as [rest H]. exists "", rest. exact H.
    + rewrite IH. split.
      * intros [before [after H]]. exists (String c before), after.
        simpl. now rewrite H.
      * intros [before [after H]].
        destruct before as [|d before]; simpl in H.
        -- assert (String.prefix sub (String c s) = true)
             by (apply prefix_app; eauto).
           congruence.
        -- inversion H; subst. now exists before, after.
Qed.

Lemma includes_mid (before sub after : string) :
  JS.includes (before ++ sub ++ after) sub = true.
Proof. apply includes_app; eauto. Qed.

(** ** The arithmetic pattern *)

Lemma operator_not_digit (c : ascii) :
  JS.is_operator c = true -> JS.is_digit c = false.
Proof.
  unfold JS.is_operator, JS.is_digit.
  generalize (nat_of_ascii c) as n. intros n H.
  repeat (apply orb_prop in H as [H|H]);
    apply Nat.eqb_eq in H; subst n; reflexivity.
Qed.

Lemma skip_digits_stops (s : string) (d c : ascii) (rest : string) :
  JS.is_digit d = true ->
  JS.skip_digits s = String c rest ->
  exists run d1, String d s = run ++ String d1 (String c rest)
                 /\ JS.is_digit d1 = true.
Proof.
  revert d. induction s as [|x s IH]; intros d Hd Hskip; simpl in Hskip.
  - discriminate Hskip.
  - destruct (JS.is_digit x) eqn:Hx.
    + destruct (IH x Hx Hskip) as [run [d1 [Hrun Hd1]]].
      exists (String d run), d1. split; [|exact Hd1].
      simpl. now rewrite Hrun.
    + exists "", d. split; [|exact Hd]. simpl. now rewrite Hskip.
Qed.

Lemma digits1_Some (s rest : string) :
  JS.digits1 s = Some rest ->
  exists d s', s = String d s' /\ JS.is_digit d = true
               /\ rest = JS.skip_digits s'.
Proof.
  destruct s as [|d s']; simpl; [discriminate|].
  destruct (JS.is_digit d) eqn:Hd; [|discriminate].
  intros [= <-]. now exists d, s'.
Qed.

Lemma arith_match_here_occurrence (s : string) :
  JS.arith_match_here s = true ->
  exists run d1 op d2 after,
    s = run ++ String d1 (String op (String d2 after))
    /\ JS.is_digit d1 = true /\ JS.is_operator op = true
    /\ JS.is_digit d2 = true.
Proof.
  unfold JS.arith_match_here.
  destruct (JS.digits1 s) as [[|op rest]|] eqn:Hdigits; try discriminate.
  destruct (JS.is_operator op) eqn:Hop; [|discriminate].
  destruct (JS.digits1 rest) as [rest'|] eqn:Hrest; [|discriminate].
  intros _.
  apply digits1_Some in Hdigits as [d [s' [-> [Hd Hskip]]]].
  apply digits1_Some in Hrest as [d2 [after [-> [Hd2 _]]]].
  destruct (skip_digits_stops s' d op (String d2 after) Hd (eq_sym Hskip))
    as [run [d1 [Hrun Hd1]]].
  now exists run, d1, op, d2, after.
Qed.

Lemma arith_test_unfold (s : string) :
  JS.arith_test s =
  if JS.arith_match_here s then true
  else match s with
       | EmptyString => false
       | String _ s' => JS.arith_test s'
       end.
Proof. destruct s; reflexivity. Qed.

(** The pattern [\d+[\+\-\*\/]\d+] is found exactly when a digit, an
    operator and a digit stand next to each other somewhere. *)
Lemma arith_test_occurrence (s : string) :
  JS.arith_test s = true <->
  exists before d1 op d2 after,
    s = before ++ String d1 (String op (String d2 after))
    /\ JS.is_digit d1 = true /\ JS.is_operator op = true
    /\ JS.is_digit d2 = true.
Proof.
  split.
  - induction s as [|c s IH]; rewrite arith_test_unfold.
    + destruct (JS.arith_match_here "") eqn:M; [|discriminate].
      intros _. now apply arith_match_here_occurrence.
    + destruct (JS.arith_match_here (String c s)) eqn:M.
      * intros _. now apply arith_match_here_occurrence.
      * intros H. destruct (IH H) as [before [d1 [op [d2 [after [-> Hrest]]]]]].
        now exists (String c before), d1, op, d2, after.
  - intros [before [d1 [op [d2 [after [-> [Hd1 [Hop Hd2]]]]]]]].
    induction before as [|c before IH]; simpl append;
      rewrite arith_test_unfold.
    + unfold JS.arith_match_here. cbn [JS.digits1 JS.skip_digits append].
      rewrite Hd1. cbn [JS.skip_digits].
      rewrite (operator_not_digit op Hop), Hop. cbn [JS.digits1].
      now rewrite Hd2.
    + destruct (JS.arith_match_here _); [reflexivity | exact IH].
Qed.

(** ** The rule-based fallbacks *)

Section FallbackFacts.

Variable toLowerCase : string -> string.

(** Each test of a rule list is tried in turn. *)
Ltac rules_cases :=
  repeat match goal with
         | |- context [if ?b then _ else _] => destruct b eqn:?; simpl
         end.

Lemma generateFallbackResponse_rules (message : string) :
  generateFallbackResponse toLowerCase message
  = firstMatch (GPT_rules toLowerCase) Canned.generic message.
Proof.
  unfold generateFallbackResponse, GPT_rules, firstMatch, greetingRule,
    helpRule, questionRule, thanksRule, lowerHas.
  rules_cases; reflexivity.
Qed.

Lemma generateSmartFallback_rules (message : string) :
  generateSmartFallback toLowerCase message
  = firstMatch (Smart_rules toLowerCase) Canned.smart_generic message.
Proof.
  unfold generateSmartFallback, Smart_rules, firstMatch, programmingRule,
    mathRule, explanationRule, creativeRule, lowerHas.
  rules_cases; reflexivity.
Qed.

(** A rule list answers with the response of one of its rules or with the
    generic one. *)
Lemma firstMatch_In (rules : list Rule) (otherwise message : string) :
  In (firstMatch rules otherwise message) (List.map snd rules ++ [otherwise]).
Proof.
  induction rules as [|[test response] rules IH]; simpl.
  - now left.
  - destruct (test message); [now left | now right].
Qed.

(** The first rule whose test holds decides, whatever the later rules. *)
Lemma firstMatch_first (before : list Rule) (test : string -> bool)
  (response : string) (after : list Rule) (otherwise message : string) :
  Forall (fun r => fst r message = false) before ->
  test message = true ->
  firstMatch (before ++ (test, response) :: after) otherwise message = response.
Proof.
  intros Hbefore Htest.
  induction Hbefore as [|[t r] before Hr _ IH]; simpl.
  - now rewrite Htest.
  - simpl in Hr. now rewrite Hr.
Qed.

Lemma firstMatch_none (rules : list Rule) (otherwise message : string) :
  Forall (fun r => fst r message = false) rules ->
  firstMatch rules otherwise message = otherwise.
Proof.
  induction 1 as [|[t r] rules Hr _ IH]; simpl; [reflexivity|].
  simpl in Hr. now rewrite Hr.
Qed.

End FallbackFacts.

(** C3, as amended.  The code has two rule-based terminal strategies, one
    per provider, and each is an ordered first-match-wins rule list of its
    own: [generateFallbackResponse] tries greeting, help, interrogative and
    thank and otherwise gives its generic response;
    [generateSmartFallback] tries programming, arithmetic, explanation and
    creative writing and otherwise gives its own generic response.  In
    either list a rule decides as soon as no rule before it matches. *)
Theorem fallbacks_are_ordered_rule_lists (toLowerCase : string -> string) :
  (forall message,
      generateFallbackResponse toLowerCase message
      = firstMatch [greetingRule toLowerCase; helpRule toLowerCase;
                    questionRule toLowerCase; thanksRule toLowerCase]
                   Canned.generic message)
  /\ (forall message,
      generateSmartFallback toLowerCase message
      = firstMatch [programmingRule toLowerCase; mathRule toLowerCase;
                    explanationRule toLowerCase; creativeRule toLowerCase]
                   Canned.smart_generic message)
  /\ (forall rules otherwise message,
      (forall before test response after,
          rules = (before ++ (test, response) :: after)%list ->
          (forall r, In r before -> fst r message = false) ->
          test message = true ->
          firstMatch rules otherwise message = response)
      /\ ((forall r, In r rules -> fst r message = false) ->
          firstMatch rules otherwise message = otherwise)).
Proof.
  split; [|split].
  - intro message. apply generateFallbackResponse_rules.
  - intro message. apply generateSmartFallback_rules.
  - intros rules otherwise message. split.
    + intros before test response after -> Hbefore Htest.
      apply firstMatch_first; [now apply Forall_forall | exact Htest].
    + intros Hnone. apply firstMatch_none. now apply Forall_forall.
Qed.

(** C3, as stated, fails: neither fallback runs the eight checks as one
    sequence.  On "code" the programming check is the first of the eight
    to match, yet [generateFallbackResponse] answers with its generic
    response; on "hello" the greeting check matches, yet
    [generateSmartFallback] answers with its own generic response. *)
Lemma single_chain_refuted :
  generateFallbackResponse JS.toLowerCase "code"
    <> spec_single_chain JS.toLowerCase Canned.generic "code"
  /\ generateSmartFallback JS.toLowerCase "hello"
    <> spec_single_chain JS.toLowerCase Canned.smart_generic "hello".
Proof.
  split; vm_compute; intro H; discriminate H.
Qed.

Example order_greeting_before_help :
  generateFallbackResponse JS.toLowerCase "Hello, I need help"
  = Canned.greeting.
Proof. reflexivity. Qed.

Example order_help_before_question :
  generateFallbackResponse JS.toLowerCase "What can HELP me?" = Canned.help.
Proof. reflexivity. Qed.

Example order_question_before_thanks :
  generateFallbackResponse JS.toLowerCase "Thanks, but why?" = Canned.question.
Proof. reflexivity. Qed.

Example order_programming_before_math :
  generateSmartFallback JS.toLowerCase "Write code for 2+2"
  = Canned.programming.
Proof. reflexivity. Qed.

Example order_math_before_explanation :
  generateSmartFallback JS.toLowerCase "Explain 12*3" = Canned.math.
Proof. reflexivity. Qed.

Example generic_when_nothing_matches :
  generateFallbackResponse JS.toLowerCase "Good morning" = Canned.generic
  /\ generateSmartFallback JS.toLowerCase "Good morning"
     = Canned.smart_generic.
Proof. split; reflexivity. Qed.

Lemma fallbacks_are_ordered_rule_lists_witness :
  firstMatch (GPT_rules JS.toLowerCase) Canned.generic "What can HELP me?"
    = Canned.help
  /\ generateFallbackResponse JS.toLowerCase "What can HELP me?" = Canned.help.
Proof.
  destruct (fallbacks_are_ordered_rule_lists JS.toLowerCase)
    as [Hgpt [_ Hrules]].
  assert (firstMatch (GPT_rules JS.toLowerCase) Canned.generic
            "What can HELP me?" = Canned.help) as E.
  { destruct (Hrules (GPT_rules JS.toLowerCase) Canned.generic
                "What can HELP me?") as [Hfirst _].
    apply (Hfirst [greetingRule JS.toLowerCase]
                  (fst (helpRule JS.toLowerCase)) Canned.help
                  [questionRule JS.toLowerCase; thanksRule JS.toLowerCase]).
    - reflexivity.
    - intros r [<-|[]]. reflexivity.
    - reflexivity. }
  split; [exact E | rewrite Hgpt; exact E].
Defined.

(** C10.  The greeting check is a raw substring test: as soon as the
    lower-cased prompt holds "hi" anywhere, inside a word or not, and
    whatever other keywords it holds, [generateFallbackResponse] answers
    with the canned greeting. *)
Theorem greeting_on_any_hi (toLowerCase : string -> string)
  (message before after : string) :
  toLowerCase message = before ++ "hi" ++ after ->
  generateFallbackResponse toLowerCase message = Canned.greeting.
Proof.
  intros Hlower. unfold generateFallbackResponse.
  rewrite Hlower, (includes_mid before "hi" after).
  now rewrite orb_true_r.
Qed.

Lemma greeting_on_any_hi_witness :
  JS.toLowerCase "Is THIS a story? Thanks for the help"
    = "is t" ++ "hi" ++ "s a story? thanks for the help"
  /\ generateFallbackResponse JS.toLowerCase
       "Is THIS a story? Thanks for the help" = Canned.greeting.
Proof.
  split; [reflexivity|].
  apply (greeting_on_any_hi JS.toLowerCase
           "Is THIS a story? Thanks for the help"
           "is t" "s a story? thanks for the help").
  reflexivity.
Defined.

(** ** The fallback chains never reject *)

(** Every canned response is non-empty text. *)
Lemma canned_truthy (text : string) :
  In text GPT_canned \/ In text Smart_canned -> JS.truthy text = true.
Proof.
  unfold GPT_canned, Smart_canned. simpl.
  intuition (subst; reflexivity).
Qed.

Section ChainFacts.

Variable toLowerCase : string -> string.
Variable trim : string -> string.
Variable fetch : Fetch.

Lemma generateFallbackResponse_canned (message : string) :
  In (generateFallbackResponse toLowerCase message) GPT_canned.
Proof.
  rewrite generateFallbackResponse_rules.
  apply (firstMatch_In (GPT_rules toLowerCase) Canned.generic message).
Qed.

Lemma generateSmartFallback_canned (message : string) :
  In (generateSmartFallback toLowerCase message) Smart_canned.
Proof.
  rewrite generateSmartFallback_rules.
  apply (firstMatch_In (Smart_rules toLowerCase) Canned.smart_generic message).
Qed.

(** The cleaning step yields non-empty text or throws. *)
Lemma cleanGenerated_text (message : string) (generated : option Value)
  (orElse text : string) :
  JS.truthy orElse = true ->
  cleanGenerated trim message generated orElse = Return text ->
  JS.truthy text = true.
Proof.
  intros HorElse. unfold cleanGenerated.
  destruct generated as [[ | | |responseText| | ]|]; try discriminate.
  intros [= <-].
  destruct (JS.truthy (if JS.startsWith responseText message
                       then trim (JS.substringFrom (String.length message)
                                    responseText)
                       else responseText)) eqn:T; [exact T | exact HorElse].
Qed.

(** [GPTProvider.generateResponse] resolves whatever the network does. *)
Lemma GPT_generateResponse_resolves (message : string) :
  exists text,
    GPT_generateResponse toLowerCase trim fetch message = Return text
    /\ JS.truthy text = true.
Proof.
  assert (JS.truthy (generateFallbackResponse toLowerCase message) = true)
    as Hfb by (apply canned_truthy; left; apply generateFallbackResponse_canned).
  unfold GPT_generateResponse.
  destruct (fetch _) as [response|e]; simpl; [|eauto].
  destruct (ok response); simpl; [|eauto].
  destruct (json response) as [data|e]; simpl; [|eauto].
  destruct (Json.isArray data && _); simpl; [|eauto].
  destruct (cleanGenerated trim message _ GPT_rephrase) as [text|e] eqn:C;
    simpl; [|eauto].
  exists text. split; [reflexivity|].
  now apply cleanGenerated_text in C.
Qed.

(** So does the second stage of the Groq provider, which ends in
    [generateSmartFallback]. *)
Lemma generateHuggingFaceResponse_resolves (message : string) :
  exists text,
    generateHuggingFaceResponse toLowerCase trim fetch message = Return text
    /\ JS.truthy text = true.
Proof.
  assert (JS.truthy (generateSmartFallback toLowerCase message) = true)
    as Hfb by (apply canned_truthy; right; apply generateSmartFallback_canned).
  unfold generateHuggingFaceResponse.
  destruct (fetch _) as [response|e]; simpl; [|eauto].
  destruct (ok response); simpl; [|eauto].
  destruct (json response) as [data|e]; simpl; [|eauto].
  destruct (Json.isArray data && _); simpl; [|eauto].
  destruct (cleanGenerated trim message _ _) as [text|e] eqn:C;
    simpl; [|eauto].
  exists text. split; [reflexivity|].
  now apply cleanGenerated_text in C.
Qed.

(** And so does the whole chain of the Groq provider: with a value when the
    first stage delivers one, with the text of the later stages otherwise. *)
Lemma Groq_generateResponse_resolves (message : string) :
  exists value,
    Groq_generateResponse toLowerCase trim fetch message = Return value.
Proof.
  destruct (generateHuggingFaceResponse_resolves message) as [text [Hhf _]].
  unfold Groq_generateResponse. rewrite Hhf.
  destruct (fetch _) as [response|e]; simpl; [|eauto].
  destruct (ok response); simpl; [|eauto].
  destruct (json response) as [data|e]; simpl; [|eauto].
  destruct (Json.get data "choices") as [choices|e]; simpl; [|eauto].
  destruct (Json.truthy choices && _); simpl; [|eauto].
  destruct (Json.optGet _ "content"); simpl; eauto.
Qed.

(** Every way the remote attempt can fail ends in the rule-based fallback. *)
Lemma GPT_generateResponse_falls_back (message : string) :
  (forall e, fetch {| url := GPT_apiUrl; prompt := message |} = Throw e ->
     GPT_generateResponse toLowerCase trim fetch message
     = Return (generateFallbackResponse toLowerCase message))
  /\ (forall response,
     fetch {| url := GPT_apiUrl; prompt := message |} = Return response ->
     ok response = false \/ (exists e, json response = Throw e) ->
     GPT_generateResponse toLowerCase trim fetch message
     = Return (generateFallbackResponse toLowerCase message)).
Proof.
  unfold GPT_generateResponse. split.
  - intros e ->. reflexivity.
  - intros response -> [Hok|[e He]]; simpl.
    + now rewrite Hok.
    + rewrite He. now destruct (ok response).
Qed.

End ChainFacts.

(** C4.  Whatever the prompt, either rule-based terminal fallback answers,
    and answers with one of its canned, non-empty responses; the chains that
    end in them resolve whatever the network does
    ([GPTProvider.generateResponse] and the Hugging Face stage of the Groq
    provider with non-empty text, the Groq provider as a whole with a
    value); and equal prompts select equal responses. *)
Theorem terminal_fallback_resolves (toLowerCase trim : string -> string)
  (fetch : Fetch) (message : string) :
  In (generateFallbackResponse toLowerCase message) GPT_canned
  /\ In (generateSmartFallback toLowerCase message) Smart_canned
  /\ JS.truthy (generateFallbackResponse toLowerCase message) = true
  /\ JS.truthy (generateSmartFallback toLowerCase message) = true
  /\ (exists text,
        GPT_generateResponse toLowerCase trim fetch message = Return text
        /\ JS.truthy text = true)
  /\ (exists text,
        generateHuggingFaceResponse toLowerCase trim fetch message
          = Return text
        /\ JS.truthy text = true)
  /\ (exists value,
        Groq_generateResponse toLowerCase trim fetch message = Return value)
  /\ (forall again,
        again = message ->
        generateFallbackResponse toLowerCase again
          = generateFallbackResponse toLowerCase message
        /\ generateSmartFallback toLowerCase again
          = generateSmartFallback toLowerCase message).
Proof.
  pose proof (generateFallbackResponse_canned toLowerCase message) as Hgpt.
  pose proof (generateSmartFallback_canned toLowerCase message) as Hsmart.
  split; [exact Hgpt|].
  split; [exact Hsmart|].
  split; [apply canned_truthy; left; exact Hgpt|].
  split; [apply canned_truthy; right; exact Hsmart|].
  split; [apply GPT_generateResponse_resolves|].
  split; [apply generateHuggingFaceResponse_resolves|].
  split; [apply Groq_generateResponse_resolves|].
  intros again ->. split; reflexivity.
Qed.

Lemma terminal_fallback_resolves_witness :
  generateFallbackResponse JS.toLowerCase "thank you"
    = generateFallbackResponse JS.toLowerCase "thank you"
  /\ generateSmartFallback JS.toLowerCase "thank you"
    = generateSmartFallback JS.toLowerCase "thank you".
Proof.
  apply (terminal_fallback_resolves JS.toLowerCase JS.trim
           (fun _ => Throw (Err "Failed to fetch")) "thank you").
  reflexivity.
Defined.

(** ** The map of providers *)

Section MapFacts.

Context {V : Type}.
Implicit Types (m : JSMap.t V) (k : string) (v : V).

Lemma get_empty k : JSMap.get (@JSMap.empty V) k = None.
Proof. reflexivity. Qed.

Lemma get_set_same m k v : JSMap.get (JSMap.set m k v) k = Some v.
Proof.
  induction m as [|[k' v'] m IH]; simpl.
  - now rewrite String.eqb_refl.
  - destruct (String.eqb k' k) eqn:E; simpl; now rewrite E.
Qed.

Lemma get_set_other m k k' v :
  k' <> k -> JSMap.get (JSMap.set m k v) k' = JSMap.get m k'.
Proof.
  intros Hne. induction m as [|[k0 v0] m IH]; simpl.
  - destruct (String.eqb k k') eqn:E; [|reflexivity].
    apply String.eqb_eq in E. congruence.
  - destruct (String.eqb k0 k) eqn:E; simpl.
    + apply String.eqb_eq in E. subst k0.
      destruct (String.eqb k k') eqn:E'; [|reflexivity].
      apply String.eqb_eq in E'. congruence.
    + now rewrite IH.
Qed.

Lemma get_None_keys m k : JSMap.get m k = None <-> ~ In k (JSMap.keys m).
Proof.
  induction m as [|[k' v'] m IH]; simpl.
  - tauto.
  - destruct (String.eqb k' k) eqn:E.
    + apply String.eqb_eq in E. split; [discriminate | tauto].
    + apply String.eqb_neq in E. rewrite IH. tauto.
Qed.

Lemma get_Some_In m k v : JSMap.get m k = Some v -> In (k, v) (JSMap.entries m).
Proof.
  induction m as [|[k' v'] m IH]; simpl; [discriminate|].
  destruct (String.eqb k' k) eqn:E.
  - apply String.eqb_eq in E. intros [= ->]. left. now subst.
  - intros H. right. now apply IH.
Qed.

(** A key that is new goes to the end: insertion order. *)
Lemma set_fresh m k v :
  JSMap.get m k = None -> JSMap.set m k v = (m ++ [(k, v)])%list.
Proof.
  induction m as [|[k' v'] m IH]; simpl; [reflexivity|].
  destruct (String.eqb k' k); [discriminate|].
  intros H. now rewrite IH.
Qed.

(** A key that is present keeps its place. *)
Lemma set_present_keys m k v :
  JSMap.get m k <> None -> JSMap.keys (JSMap.set m k v) = JSMap.keys m.
Proof.
  induction m as [|[k' v'] m IH]; simpl; [congruence|].
  destruct (String.eqb k' k) eqn:E; simpl; [reflexivity|].
  intros H. now rewrite IH.
Qed.

End MapFacts.

(** ** The registry *)

Lemma getAvailableModels_keys (this : AIService) :
  List.map key (getAvailableModels this) = JSMap.keys (providers this).
Proof.
  unfold getAvailableModels, JSMap.entries, JSMap.keys.
  rewrite List.map_map. apply List.map_ext. now intros [k p].
Qed.

Section ClientFacts.

Variable toLowerCase : string -> string.
Variable trim : string -> string.
Variable fetch : Fetch.
Variable gemini_remote : string -> string -> Result string.
Variable claude_remote : string -> string -> Result string.

(** Construction never throws. *)
Lemma Client_new_succeeds (env : Env) :
  exists this,
    Client.AIService_new toLowerCase trim fetch gemini_remote claude_remote env
    = Return this.
Proof. eexists. reflexivity. Qed.

(** What the registry lists, by the credentials at hand: the providers that
    could be built, in the order gemini, gpt, claude of the constructor. *)
Lemma Client_models (env : Env) (this : AIService) :
  Client.AIService_new toLowerCase trim fetch gemini_remote claude_remote env
  = Return this ->
  getAvailableModels this
  = ((match credential (VITE_GEMINI_API_KEY env) with
      | Some _ => [{| key := "gemini"; name := "Gemini 1.5 Flash" |}]
      | None => []
      end)
     ++ [{| key := "gpt"; name := "DialoGPT Large (Free)" |}]
     ++ (match credential (VITE_CLAUDE_API_KEY env) with
         | Some _ => [{| key := "claude"; name := "Claude 3" |}]
         | None => []
         end))%list.
Proof.
  unfold Client.AIService_new, GeminiProvider_new,
    ClaudeProvider_new, GPTProvider_new.
  intros [= <-].
  destruct (credential (VITE_GEMINI_API_KEY env)),
           (credential (VITE_CLAUDE_API_KEY env)); reflexivity.
Qed.

Lemma Client_gemini_absent (env : Env) (this : AIService) :
  credential (VITE_GEMINI_API_KEY env) = None ->
  Client.AIService_new toLowerCase trim fetch gemini_remote claude_remote env
  = Return this ->
  ~ In "gemini" (List.map key (getAvailableModels this))
  /\ Client.getProvider this "gemini"
     = Throw (Err (Client.notAvailable "gemini")).
Proof.
  intros Hcred Hnew. rewrite (Client_models env this Hnew), Hcred.
  revert Hnew.
  unfold Client.AIService_new, GeminiProvider_new,
    ClaudeProvider_new, GPTProvider_new, Client.getProvider.
  rewrite Hcred. intros [= <-].
  destruct (credential (VITE_CLAUDE_API_KEY env)); simpl;
    (split; [intuition discriminate | reflexivity]).
Qed.

Lemma Client_claude_absent (env : Env) (this : AIService) :
  credential (VITE_CLAUDE_API_KEY env) = None ->
  Client.AIService_new toLowerCase trim fetch gemini_remote claude_remote env
  = Return this ->
  ~ In "claude" (List.map key (getAvailableModels this))
  /\ Client.getProvider this "claude"
     = Throw (Err (Client.notAvailable "claude")).
Proof.
  intros Hcred Hnew. rewrite (Client_models env this Hnew), Hcred.
  revert Hnew.
  unfold Client.AIService_new, GeminiProvider_new,
    ClaudeProvider_new, GPTProvider_new, Client.getProvider.
  rewrite Hcred. intros [= <-].
  destruct (credential (VITE_GEMINI_API_KEY env)); simpl;
    (split; [intuition discriminate | reflexivity]).
Qed.

End ClientFacts.

(** The registry of [client/src/services/aiService.ts] does what C2 says:
    whatever credentials are missing, construction returns; a provider
    whose credential is absent is not listed; and asking for it throws the
    "not available" error, which names the requested key. *)
Lemma Client_registry_tolerates_missing_credentials
  (toLowerCase trim : string -> string) (fetch : Fetch)
  (gemini_remote claude_remote : string -> string -> Result string)
  (env : Env) :
  exists this,
    Client.AIService_new toLowerCase trim fetch gemini_remote claude_remote env
      = Return this
    /\ (credential (VITE_GEMINI_API_KEY env) = None ->
        ~ In "gemini" (List.map key (getAvailableModels this))
        /\ Client.getProvider this "gemini"
           = Throw (Err (Client.notAvailable "gemini")))
    /\ (credential (VITE_CLAUDE_API_KEY env) = None ->
        ~ In "claude" (List.map key (getAvailableModels this))
        /\ Client.getProvider this "claude"
           = Throw (Err (Client.notAvailable "claude")))
    /\ (forall model,
        ~ In model (List.map key (getAvailableModels this)) ->
        Client.getProvider this model
          = Throw (Err (Client.notAvailable model))
        /\ JS.includes (Client.notAvailable model) model = true).
Proof.
  destruct (Client_new_succeeds toLowerCase trim fetch gemini_remote
              claude_remote env) as [this Hnew].
  exists this. split; [exact Hnew|]. split; [|split].
  - intros Hcred. now apply (Client_gemini_absent toLowerCase trim fetch
                               gemini_remote claude_remote env).
  - intros Hcred. now apply (Client_claude_absent toLowerCase trim fetch
                               gemini_remote claude_remote env).
  - intros model Habsent. rewrite getAvailableModels_keys in Habsent.
    apply get_None_keys in Habsent.
    unfold Client.getProvider. rewrite Habsent. split; [reflexivity|].
    unfold Client.notAvailable.
    change ("AI model " ++ JS.dquote ++ model ++ JS.dquote
              ++ " not available. Please check your API keys.")
      with (("AI model " ++ JS.dquote) ++ model
              ++ (JS.dquote ++ " not available. Please check your API keys.")).
    apply includes_mid.
Qed.

(** C2, where the code departs from it.  The registry of
    [src/services/aiService.ts], the one the root [App.tsx] imports,
    constructs its providers unguarded: with the Gemini credential absent,
    [new AIService()] itself throws the constructor's error, and no
    registry comes to be. *)
Theorem Root_registry_fails_without_gemini_key
  (gemini_remote : string -> string -> Result string) (env : Env) :
  credential (VITE_GEMINI_API_KEY env) = None ->
  Root.AIService_new gemini_remote env
  = Throw (Err "VITE_GEMINI_API_KEY environment variable is not set").
Proof.
  intros Hcred. unfold Root.AIService_new, GeminiProvider_new.
  now rewrite Hcred.
Qed.

Lemma Root_registry_fails_without_gemini_key_witness :
  credential (VITE_GEMINI_API_KEY
                {| VITE_GEMINI_API_KEY := None;
                   VITE_OPENAI_API_KEY := None;
                   VITE_CLAUDE_API_KEY := None |}) = None
  /\ Root.AIService_new (fun _ _ => Return "pong")
       {| VITE_GEMINI_API_KEY := None;
          VITE_OPENAI_API_KEY := None;
          VITE_CLAUDE_API_KEY := None |}
     = Throw (Err "VITE_GEMINI_API_KEY environment variable is not set").
Proof.
  split; [reflexivity|].
  apply (Root_registry_fails_without_gemini_key (fun _ _ => Return "pong")).
  reflexivity.
Defined.

(** On the same environment the client registry is built, lists the one
    provider that needs no credential, and refuses "gemini" by name. *)
Example Client_registry_without_keys :
  exists this,
    Client.AIService_new JS.toLowerCase JS.trim
      (fun _ => Throw (Err "Failed to fetch"))
      (fun _ _ => Return "pong") (fun _ _ => Return "pong")
      {| VITE_GEMINI_API_KEY := None;
         VITE_OPENAI_API_KEY := None;
         VITE_CLAUDE_API_KEY := None |} = Return this
    /\ getAvailableModels this
       = [{| key := "gpt"; name := "DialoGPT Large (Free)" |}]
    /\ Client.getProvider this "gemini"
       = Throw (Err (String.concat JS.dquote
                       ["AI model "; "gemini";
                        " not available. Please check your API keys."])).
Proof. eexists. repeat split. Qed.

(** With every credential at hand the listing follows the constructor, not
    the alphabet. *)
Example Client_registry_with_all_keys :
  exists this,
    Client.AIService_new JS.toLowerCase JS.trim
      (fun _ => Throw (Err "Failed to fetch"))
      (fun _ _ => Return "pong") (fun _ _ => Return "pong")
      {| VITE_GEMINI_API_KEY := Some "g";
         VITE_OPENAI_API_KEY := None;
         VITE_CLAUDE_API_KEY := Some "c" |} = Return this
    /\ List.map key (getAvailableModels this) = ["gemini"; "gpt"; "claude"].
Proof. eexists. split; reflexivity. Qed.

(** C6.  [getAvailableModels] lists exactly the keys of the providers map,
    each with the display name of the provider stored under it, in the
    order of the map, which is insertion order: a provider registered under
    a new key is listed last, and the client registry lists what it could
    build in the constructor's order gemini, gpt, claude (which is not the
    sorted order). *)
Theorem getAvailableModels_in_insertion_order (this : AIService) :
  List.map key (getAvailableModels this) = JSMap.keys (providers this)
  /\ (forall model,
        In model (List.map key (getAvailableModels this))
        <-> JSMap.get (providers this) model <> None)
  /\ (forall model provider,
        JSMap.get (providers this) model = Some provider ->
        In {| key := model; name := getName provider |}
           (getAvailableModels this))
  /\ (forall info,
        In info (getAvailableModels this) ->
        exists provider,
          In (key info, provider) (JSMap.entries (providers this))
          /\ name info = getName provider)
  /\ (forall model provider,
        JSMap.get (providers this) model = None ->
        getAvailableModels
          {| providers := JSMap.set (providers this) model provider |}
        = (getAvailableModels this
             ++ [{| key := model; name := getName provider |}])%list)
  /\ (forall toLowerCase trim fetch gemini_remote claude_remote env built,
        Client.AIService_new toLowerCase trim fetch gemini_remote
          claude_remote env = Return built ->
        getAvailableModels built
        = ((match credential (VITE_GEMINI_API_KEY env) with
            | Some _ => [{| key := "gemini"; name := "Gemini 1.5 Flash" |}]
            | None => []
            end)
           ++ [{| key := "gpt"; name := "DialoGPT Large (Free)" |}]
           ++ (match credential (VITE_CLAUDE_API_KEY env) with
               | Some _ => [{| key := "claude"; name := "Claude 3" |}]
               | None => []
               end))%list).
Proof.
  split; [apply getAvailableModels_keys|].
  split; [|split; [|split; [|split]]].
  - intros model. rewrite getAvailableModels_keys.
    pose proof (get_None_keys (providers this) model) as H.
    destruct (JSMap.get (providers this) model) eqn:G.
    + split; [congruence|]. intros _.
      destruct (in_dec string_dec model (JSMap.keys (providers this)))
        as [Hin|Hout]; [exact Hin|].
      apply H in Hout. discriminate Hout.
    + split; [|congruence]. intros Hin. now apply H in Hin.
  - intros model provider Hget. apply get_Some_In in Hget.
    unfold getAvailableModels.
    apply (in_map (fun '(key, provider) =>
                     {| key := key; name := getName provider |})) in Hget.
    exact Hget.
  - intros info Hin. unfold getAvailableModels in Hin.
    apply in_map_iff in Hin as [[k p] [<- Hin]]. now exists p.
  - intros model provider Hfresh. unfold getAvailableModels, JSMap.entries.
    simpl. rewrite (set_fresh _ _ _ Hfresh), List.map_app. reflexivity.
  - intros toLowerCase trim fetch gemini_remote claude_remote env built.
    apply Client_models.
Qed.

Lemma getAvailableModels_in_insertion_order_witness :
  getAvailableModels
    {| providers :=
         JSMap.set (JSMap.set JSMap.empty "gpt"
                      {| generateResponse := Root.GPT_generateResponse;
                         getName := "GPT-4" |})
                   "claude"
                   {| generateResponse := Root.Claude_generateResponse;
                      getName := "Claude 3" |} |}
  = [{| key := "gpt"; name := "GPT-4" |};
     {| key := "claude"; name := "Claude 3" |}].
Proof.
  pose proof (getAvailableModels_in_insertion_order
                {| providers :=
                     JSMap.set JSMap.empty "gpt"
                       {| generateResponse := Root.GPT_generateResponse;
                          getName := "GPT-4" |} |})
    as [_ [_ [_ [_ [Hlast _]]]]].
  apply (Hlast "claude"
           {| generateResponse := Root.Claude_generateResponse;
              getName := "Claude 3" |}).
  reflexivity.
Defined.

(** ** The handlers of [App.tsx] *)

Lemma find_app_none {A} (f : A -> bool) (l1 l2 : list A) :
  (forall x, In x l1 -> f x = false) ->
  List.find f (l1 ++ l2) = List.find f l2.
Proof.
  induction l1 as [|a l1 IH]; simpl; intros H; [reflexivity|].
  rewrite (H a) by now left. apply IH. intros x Hx. apply H. now right.
Qed.

Lemma find_all_false {A} (f : A -> bool) (l : list A) :
  (forall x, In x l -> f x = false) -> List.find f l = None.
Proof.
  intros H. rewrite <- (app_nil_r l), find_app_none by exact H. reflexivity.
Qed.

Lemma is_user_iff (msg : Message.t) :
  is_user msg = true <-> Message.type msg = user.
Proof. unfold is_user. destruct (Message.type msg); simpl; intuition congruence. Qed.

Lemma not_user_ai (msg : Message.t) :
  Message.type msg = ai -> is_user msg = false.
Proof. unfold is_user. now intros ->. Qed.

(** Scanning from the end finds the user message that only assistant
    messages follow. *)
Lemma last_user_found (before after : list Message.t) (lastUser : Message.t) :
  Message.type lastUser = user ->
  (forall m, In m after -> Message.type m = ai) ->
  List.find is_user (List.rev (before ++ lastUser :: after)) = Some lastUser.
Proof.
  intros Huser Hafter.
  rewrite rev_app_distr. simpl. rewrite <- app_assoc.
  rewrite find_app_none.
  - simpl. now rewrite (proj2 (is_user_iff lastUser) Huser).
  - intros x Hx. apply in_rev in Hx. apply not_user_ai. now apply Hafter.
Qed.

Lemma removelast_snoc {A} (l : list A) (x : A) :
  List.removelast (l ++ [x]) = l.
Proof. apply List.removelast_last. Qed.

Section AppFacts.

Variable uuidv4_at : nat -> string.
Variable date_at : nat -> Z.
Variable aiService : AIService.
Variable settings : Settings.

Ltac run_handler :=
  unfold handleSendMessage, handleRegenerate, bind, try_, call, uuidv4,
    newDate, setChatState, getChatState, ret; simpl.

(** How a send unfolds when the provider cannot be resolved. *)
Lemma send_unresolved (messageText : string)
  (attachments : option (list Attachment.t)) (s : Sys) (e : Thrown) :
  Root.getProvider aiService (aiModel settings) = Throw e ->
  let sent := {| messages := messages (chatState s)
                   ++ [sentMessage uuidv4_at date_at s messageText attachments];
                 isLoading := true; error := None |} in
  let failed := {| messages := messages sent; isLoading := false;
                   error := Some (errorText e) |} in
  handleSendMessage uuidv4_at date_at aiService settings messageText
    attachments s
  = (Return tt,
     {| chatState := failed;
        drawn := S (S (drawn s));
        log := log s ++ [SetChatState sent; GetProvider (aiModel settings);
                         SetChatState failed] |}).
Proof.
  intros Hget. run_handler. rewrite Hget. simpl.
  now rewrite <- !app_assoc.
Qed.

(** How it unfolds when the provider rejects. *)
Lemma send_rejected (messageText : string)
  (attachments : option (list Attachment.t)) (s : Sys)
  (provider : AIProvider) (e : Thrown) :
  Root.getProvider aiService (aiModel settings) = Return provider ->
  generateResponse provider (contextualMessage messageText attachments)
    = Throw e ->
  let sent := {| messages := messages (chatState s)
                   ++ [sentMessage uuidv4_at date_at s messageText attachments];
                 isLoading := true; error := None |} in
  let failed := {| messages := messages sent; isLoading := false;
                   error := Some (errorText e) |} in
  handleSendMessage uuidv4_at date_at aiService settings messageText
    attachments s
  = (Return tt,
     {| chatState := failed;
        drawn := S (S (drawn s));
        log := log s ++ [SetChatState sent; GetProvider (aiModel settings);
                         GenerateResponse (getName provider)
                           (contextualMessage messageText attachments);
                         SetChatState failed] |}).
Proof.
  intros Hget Hgen. run_handler. rewrite Hget. simpl. rewrite Hgen. simpl.
  now rewrite <- !app_assoc.
Qed.

(** And how it unfolds when the provider resolves with text. *)
Lemma send_answered (messageText : string)
  (attachments : option (list Attachment.t)) (s : Sys)
  (provider : AIProvider) (response : string) :
  Root.getProvider aiService (aiModel settings) = Return provider ->
  generateResponse provider (contextualMessage messageText attachments)
    = Return response ->
  let sent := {| messages := messages (chatState s)
                   ++ [sentMessage uuidv4_at date_at s messageText attachments];
                 isLoading := true; error := None |} in
  let aiMessage :=
    {| Message.id := uuidv4_at (S (S (drawn s))); Message.type := ai;
       Message.text := response;
       Message.timestamp := date_at (S (S (S (drawn s))));
       Message.model := Some (getName provider);
       Message.attachments := None |} in
  let answered := {| messages := messages sent ++ [aiMessage];
                     isLoading := false; error := None |} in
  handleSendMessage uuidv4_at date_at aiService settings messageText
    attachments s
  = (Return tt,
     {| chatState := answered;
        drawn := S (S (S (S (drawn s))));
        log := log s ++ [SetChatState sent; GetProvider (aiModel settings);
                         GenerateResponse (getName provider)
                           (contextualMessage messageText attachments);
                         SetChatState answered] |}).
Proof.
  intros Hget Hgen. run_handler. rewrite Hget. simpl. rewrite Hgen. simpl.
  now rewrite <- !app_assoc.
Qed.

End AppFacts.

(** C9.  A send first appends the user message to the chat state (with the
    loading flag raised and the error cleared), and only then resolves the
    provider; any call of [generateResponse] comes later still.  The handler
    itself never throws, the user message stays in the sequence whatever
    happens, and when the provider cannot be resolved or rejects, the state
    that remains is the one with the user message appended, the loading
    flag lowered and the error text set. *)
Theorem send_appends_user_message_first
  (uuidv4_at : nat -> string) (date_at : nat -> Z) (aiService : AIService)
  (settings : Settings) (messageText : string)
  (attachments : option (list Attachment.t)) (s : Sys) :
  let userMessage := sentMessage uuidv4_at date_at s messageText attachments in
  let sent := {| messages := messages (chatState s) ++ [userMessage];
                 isLoading := true; error := None |} in
  exists s' later,
    handleSendMessage uuidv4_at date_at aiService settings messageText
      attachments s = (Return tt, s')
    /\ log s' = (log s ++ SetChatState sent
                   :: GetProvider (aiModel settings) :: later)%list
    /\ (exists answers,
          messages (chatState s')
          = (messages (chatState s) ++ userMessage :: answers)%list)
    /\ (forall e,
          Root.getProvider aiService (aiModel settings) = Throw e
          \/ (exists provider,
                Root.getProvider aiService (aiModel settings) = Return provider
                /\ generateResponse provider
                     (contextualMessage messageText attachments) = Throw e) ->
          chatState s'
          = {| messages := messages (chatState s) ++ [userMessage];
               isLoading := false;
               error := Some (errorText e) |}).
Proof.
  intros userMessage sent.
  destruct (Root.getProvider aiService (aiModel settings))
    as [provider|e0] eqn:Hget.
  - destruct (generateResponse provider
                (contextualMessage messageText attachments))
      as [response|e0] eqn:Hgen.
    + rewrite (send_answered uuidv4_at date_at aiService settings messageText
                 attachments s provider response Hget Hgen).
      eexists; eexists. split; [reflexivity|]. simpl.
      split; [reflexivity|]. split.
      * eexists. rewrite <- app_assoc. reflexivity.
      * intros e [Habs|[provider' [[= <-] Habs]]]; [discriminate|].
        rewrite Hgen in Habs. discriminate Habs.
    + rewrite (send_rejected uuidv4_at date_at aiService settings messageText
                 attachments s provider e0 Hget Hgen).
      eexists; eexists. split; [reflexivity|]. simpl.
      split; [reflexivity|]. split.
      * exists []. reflexivity.
      * intros e [Habs|[provider' [[= <-] Habs]]]; [discriminate|].
        rewrite Hgen in Habs. now injection Habs as <-.
  - rewrite (send_unresolved uuidv4_at date_at aiService settings messageText
               attachments s e0 Hget).
    eexists; eexists. split; [reflexivity|]. simpl.
    split; [reflexivity|]. split.
    + exists []. reflexivity.
    + intros e [[= <-]|[provider' [Habs _]]]; [reflexivity|discriminate].
Qed.

Lemma send_appends_user_message_first_witness :
  Root.getProvider Demo.aiService (aiModel Demo.unknown)
    = Throw (Err (Root.notSupported "llama"))
  /\ chatState
       (snd (handleSendMessage Demo.uuidv4_at Demo.date_at Demo.aiService
               Demo.unknown "hi" None (Demo.idle [Demo.aiSays "welcome"])))
     = {| messages :=
            [Demo.aiSays "welcome";
             {| Message.id := "id-0"; Message.type := user;
                Message.text := "hi"; Message.timestamp := 1%Z;
                Message.model := None; Message.attachments := None |}];
          isLoading := false;
          error := Some (Root.notSupported "llama") |}.
Proof.
  split; [reflexivity|].
  destruct (send_appends_user_message_first Demo.uuidv4_at Demo.date_at
              Demo.aiService Demo.unknown "hi" None
              (Demo.idle [Demo.aiSays "welcome"]))
    as [s' [later [Hrun [_ [_ Hfail]]]]].
  rewrite Hrun. simpl.
  apply (Hfail (Err (Root.notSupported "llama"))).
  left. reflexivity.
Defined.

(** The same on a provider that rejects: the Gemini provider of the small
    world, whose remote call fails. *)
Example send_rejected_keeps_user_message :
  handleSendMessage Demo.uuidv4_at Demo.date_at Demo.aiService Demo.gemini
    "hi" None (Demo.idle [])
  = (Return tt,
     let userMessage :=
       {| Message.id := "id-0"; Message.type := user; Message.text := "hi";
          Message.timestamp := 1%Z; Message.model := None;
          Message.attachments := None |} in
     let sent := {| messages := [userMessage]; isLoading := true;
                    error := None |} in
     let failed := {| messages := [userMessage]; isLoading := false;
                      error := Some "Failed to fetch" |} in
     {| chatState := failed;
        drawn := 2;
        log := [SetChatState sent; GetProvider "gemini";
                GenerateResponse "Gemini 1.5 Flash" "hi";
                SetChatState failed] |}).
Proof. reflexivity. Qed.

(** C8.  On a sequence with no user message, regenerate does nothing: the
    application is left as it was (same chat state, nothing drawn) and
    nothing is logged, so no send, no provider lookup and no state update
    took place. *)
Theorem regenerate_without_user_is_noop
  (uuidv4_at : nat -> string) (date_at : nat -> Z) (aiService : AIService)
  (settings : Settings) (s : Sys) :
  (forall m, In m (messages (chatState s)) -> Message.type m = ai) ->
  handleRegenerate uuidv4_at date_at aiService settings s = (Return tt, s).
Proof.
  intros Hnone. unfold handleRegenerate, bind, getChatState. simpl.
  rewrite find_all_false; [reflexivity|].
  intros m Hm. apply in_rev in Hm. apply not_user_ai. now apply Hnone.
Qed.

Lemma regenerate_without_user_is_noop_witness :
  handleRegenerate Demo.uuidv4_at Demo.date_at Demo.aiService Demo.gpt
    (Demo.idle [Demo.aiSays "welcome"])
  = (Return tt, Demo.idle [Demo.aiSays "welcome"]).
Proof.
  apply regenerate_without_user_is_noop.
  intros m [<-|[]]. reflexivity.
Defined.

(** Where regenerate is offered, on a sequence ending with the assistant's
    answer, the answer goes, the user's text is sent again as a new user
    message, and the new answer follows it. *)
Example regenerate_after_answer :
  List.map (fun m => (Message.type m, Message.text m))
    (messages (chatState (snd
       (handleRegenerate Demo.uuidv4_at Demo.date_at Demo.aiService Demo.gpt
          (Demo.idle [Demo.userSays "hi"; Demo.aiSays "hello"])))))
  = [(user, "hi"); (user, "hi");
     (ai, String.concat JS.dquote
            ["GPT-4 Response: This is a simulated response to "; "hi";
             ". To use real GPT-4, implement OpenAI API integration."])].
Proof. reflexivity. Qed.

(** ** The effective prompt *)

Lemma contextualMessage_none (messageText : string) :
  contextualMessage messageText None = messageText
  /\ contextualMessage messageText (Some []) = messageText.
Proof. split; reflexivity. Qed.

Lemma contextualMessage_some (messageText : string) (att : Attachment.t)
  (more : list Attachment.t) :
  contextualMessage messageText (Some (att :: more))
  = messageText ++ JS.nl ++ JS.nl ++ "Attached files:" ++ JS.nl
      ++ JS.join (List.map attachmentBlock (att :: more)) (JS.nl ++ JS.nl).
Proof. reflexivity. Qed.

Lemma append_nil_r (s : string) : s ++ "" = s.
Proof. induction s as [|c s IH]; simpl; [reflexivity | now rewrite IH]. Qed.

Lemma append_assoc (a b c : string) : (a ++ b) ++ c = a ++ b ++ c.
Proof. induction a as [|x a IH]; simpl; [reflexivity | now rewrite IH]. Qed.

(** One block per attachment, a blank line between two blocks. *)
Lemma join_cons (block next : string) (blocks : list string) (sep : string) :
  JS.join (block :: next :: blocks) sep
  = block ++ sep ++ JS.join (next :: blocks) sep.
Proof. reflexivity. Qed.

(** C5.  The effective prompt begins with the prompt text.  Without
    attachments it is the prompt text; with attachments the text is followed
    by a blank line, the constant header line "Attached files:" and one
    block per attachment, in order, with a blank line between two blocks.
    The block of a textual attachment (type starting with "text/") whose
    content is a non-empty string gives the name and then the content,
    literally; every other attachment gives the one reference line
    "File attached: name (type)", in which no content appears.  That prompt
    is what the resolved provider is called with. *)
Theorem effective_prompt_layout
  (messageText : string) (attachments : option (list Attachment.t)) :
  (exists appended, contextualMessage messageText attachments
                    = messageText ++ appended)
  /\ (attachments = None \/ attachments = Some [] ->
      contextualMessage messageText attachments = messageText)
  /\ (forall att more,
        attachments = Some (att :: more) ->
        contextualMessage messageText attachments
        = messageText ++ JS.nl ++ JS.nl ++ "Attached files:" ++ JS.nl
            ++ JS.join (List.map attachmentBlock (att :: more))
                 (JS.nl ++ JS.nl))
  /\ (forall block next blocks,
        JS.join (block :: next :: blocks) (JS.nl ++ JS.nl)
        = block ++ (JS.nl ++ JS.nl)
            ++ JS.join (next :: blocks) (JS.nl ++ JS.nl))
  /\ (forall att content,
        Attachment.content att = Some content ->
        content <> "" ->
        JS.startsWith (Attachment.type att) "text/" = true ->
        attachmentBlock att
        = "File " ++ JS.dquote ++ Attachment.name att ++ JS.dquote
            ++ " content:" ++ JS.nl ++ content)
  /\ (forall att,
        Attachment.content att = None
        \/ Attachment.content att = Some ""
        \/ JS.startsWith (Attachment.type att) "text/" = false ->
        attachmentBlock att
        = "File attached: " ++ Attachment.name att
            ++ " (" ++ Attachment.type att ++ ")")
  /\ (forall uuidv4_at date_at aiService settings s provider,
        Root.getProvider aiService (aiModel settings) = Return provider ->
        In (GenerateResponse (getName provider)
              (contextualMessage messageText attachments))
           (log (snd (handleSendMessage uuidv4_at date_at aiService settings
                        messageText attachments s)))).
Proof.
  split; [|split; [|split; [|split; [|split; [|split]]]]].
  - destruct attachments as [[|att more]|].
    + exists "". simpl. now rewrite append_nil_r.
    + eexists. rewrite contextualMessage_some. reflexivity.
    + exists "". simpl. now rewrite append_nil_r.
  - intros [->| ->]; reflexivity.
  - intros att more ->. apply contextualMessage_some.
  - intros block next blocks. apply join_cons.
  - intros att content Hcontent Hfull Htext. unfold attachmentBlock.
    rewrite Hcontent, Htext.
    destruct content; [congruence | reflexivity].
  - intros att [Hnone|[Hempty|Hbinary]]; unfold attachmentBlock.
    + now rewrite Hnone.
    + now rewrite Hempty.
    + rewrite Hbinary.
      destruct (Attachment.content att) as [content|]; [|reflexivity].
      now rewrite andb_false_r.
  - intros uuidv4_at date_at aiService settings s provider Hget.
    destruct (generateResponse provider
                (contextualMessage messageText attachments))
      as [response|e] eqn:Hgen.
    + rewrite (send_answered uuidv4_at date_at aiService settings messageText
                 attachments s provider response Hget Hgen).
      simpl. apply in_or_app. right. simpl. tauto.
    + rewrite (send_rejected uuidv4_at date_at aiService settings messageText
                 attachments s provider e Hget Hgen).
      simpl. apply in_or_app. right. simpl. tauto.
Qed.

Lemma effective_prompt_layout_witness :
  contextualMessage "Summarize" (Some [Demo.textFile; Demo.image])
  = String.concat JS.nl
      ["Summarize"; ""; "Attached files:";
       String.concat JS.dquote ["File "; "a.txt"; " content:"]; "X"; "";
       "File attached: a.png (image/png)"].
Proof.
  destruct (effective_prompt_layout "Summarize"
              (Some [Demo.textFile; Demo.image]))
    as [_ [_ [Hsome [_ [Hinline [Hreference _]]]]]].
  rewrite (Hsome Demo.textFile [Demo.image] eq_refl).
  simpl List.map.
  rewrite (Hinline Demo.textFile "X" eq_refl)
    by (discriminate || reflexivity).
  rewrite (Hreference Demo.image) by (left; reflexivity).
  reflexivity.
Defined.

(** Base64 data of an image is not inlined, and neither is an empty text
    file: both give the reference line. *)
Example binary_content_is_not_inlined :
  contextualMessage "Look" (Some [Demo.imageWithData; Demo.emptyTextFile])
  = String.concat JS.nl
      ["Look"; ""; "Attached files:";
       "File attached: b.png (image/png)"; "";
       "File attached: empty.txt (text/plain)"].
Proof. reflexivity. Qed.

(** ** The conversation title *)

Lemma substring0_prefix (n : nat) (s : string) :
  n <= String.length s ->
  String.length (JS.substring0 n s) = n
  /\ exists rest, s = JS.substring0 n s ++ rest.
Proof.
  unfold JS.substring0. revert s.
  induction n as [|n IH]; intros s Hlen.
  - destruct s; simpl; (split; [reflexivity | eexists; reflexivity]).
  - destruct s as [|c s]; simpl in *; [lia|].
    destruct (IH s) as [Hn [rest Hrest]]; [lia|].
    split; [now rewrite Hn|].
    exists rest. now rewrite <- Hrest.
Qed.

Lemma append_length (a b : string) :
  String.length (a ++ b) = String.length a + String.length b.
Proof. induction a as [|c a IH]; simpl; [reflexivity | now rewrite IH]. Qed.

Lemma first_user_found (before after : list Message.t) (first : Message.t) :
  (forall m, In m before -> Message.type m = ai) ->
  Message.type first = user ->
  List.find is_user (before ++ first :: after) = Some first.
Proof.
  intros Hbefore Huser. rewrite find_app_none.
  - simpl. now rewrite (proj2 (is_user_iff first) Huser).
  - intros m Hm. apply not_user_ai. now apply Hbefore.
Qed.

(** C7.  The title of a conversation comes from its first user message: the
    text itself when it has at most 30 characters, and otherwise its first
    30 characters followed by "...".  It depends on nothing else: whatever
    is appended to the sequence later, and whatever assistant message is
    taken from its end, the title is the same; it is the title that
    [handleNewConversation] stores in the conversation. *)
Theorem title_from_first_user_message
  (before after : list Message.t) (first : Message.t) :
  (forall m, In m before -> Message.type m = ai) ->
  Message.type first = user ->
  let text := Message.text first in
  let derived := generateConversationTitle (before ++ first :: after) in
  (String.length text <= 30 -> derived = text)
  /\ (30 < String.length text ->
      derived = JS.substring0 30 text ++ "..."
      /\ String.length derived = 33
      /\ exists cut, text = JS.substring0 30 text ++ cut)
  /\ (forall appended,
        generateConversationTitle ((before ++ first :: after) ++ appended)
        = derived)
  /\ (forall kept last,
        after = (kept ++ [last])%list ->
        generateConversationTitle
          (slice_0_minus1 (before ++ first :: after)) = derived)
  /\ (forall uuidv4_at date_at currentConversationId s,
        messages (chatState s) = (before ++ first :: after)%list ->
        exists conversation s',
          conversationToSave uuidv4_at date_at currentConversationId s
          = (Return (Some conversation), s')
          /\ title conversation = derived).
Proof.
  intros Hbefore Huser text derived.
  assert (forall rest,
            generateConversationTitle (before ++ first :: rest)
            = if (30 <? String.length text)%nat
              then JS.substring0 30 text ++ "..." else text) as Htitle.
  { intros rest. unfold generateConversationTitle.
    now rewrite (first_user_found before rest first Hbefore Huser). }
  unfold derived. split; [|split; [|split; [|split]]].
  - intros Hshort. rewrite Htitle.
    destruct (Nat.ltb_spec 30 (String.length text)); [lia | reflexivity].
  - intros Hlong. rewrite Htitle.
    destruct (Nat.ltb_spec 30 (String.length text)); [|lia].
    destruct (substring0_prefix 30 text) as [Hlen Hcut]; [lia|].
    split; [reflexivity|]. split; [|exact Hcut].
    rewrite append_length, Hlen. reflexivity.
  - intros appended. rewrite <- app_assoc. simpl. now rewrite !Htitle.
  - intros kept last ->.
    change (before ++ first :: kept ++ [last])%list
      with (before ++ (first :: kept) ++ [last])%list.
    unfold slice_0_minus1. rewrite app_assoc, removelast_snoc.
    rewrite <- app_assoc. simpl. now rewrite !Htitle.
  - intros uuidv4_at date_at currentConversationId s Hmsgs.
    unfold conversationToSave, bind, getChatState, ret, newDate, uuidv4.
    simpl. rewrite Hmsgs.
    destruct (before ++ first :: after)%list eqn:E.
    + destruct before; discriminate E.
    + destruct (JS.present currentConversationId);
        eexists; eexists; (split; [reflexivity|]); simpl;
        rewrite <- E; reflexivity.
Qed.

Lemma title_from_first_user_message_witness :
  generateConversationTitle
    [Demo.aiSays "welcome";
     Demo.userSays "Please summarise the attached report for me";
     Demo.aiSays "Sure"]
  = "Please summarise the attached ..."
  /\ generateConversationTitle [Demo.aiSays "welcome"; Demo.userSays "hi"]
     = "hi".
Proof.
  assert (forall m, In m [Demo.aiSays "welcome"] -> Message.type m = ai)
    as Hbefore by (intros m [<-|[]]; reflexivity).
  split.
  - destruct (title_from_first_user_message [Demo.aiSays "welcome"]
                [Demo.aiSays "Sure"]
                (Demo.userSays "Please summarise the attached report for me")
                Hbefore eq_refl) as [_ [Hlong _]].
    destruct Hlong as [Htitle _]; [simpl; lia|].
    exact Htitle.
  - destruct (title_from_first_user_message [Demo.aiSays "welcome"] []
                (Demo.userSays "hi") Hbefore eq_refl) as [Hshort _].
    apply Hshort. simpl. lia.
Defined.

(** Without a user message the title is the fixed "New Conversation". *)
Example title_without_user_message :
  generateConversationTitle [Demo.aiSays "welcome"] = "New Conversation".
Proof. reflexivity. Qed.

(* ================================================================== *)
(** * Further properties of the code *)
(* ================================================================== *)

(** ** The registries *)

(** X1.  The registry of the root application is built exactly when the
    Gemini credential is a non-empty string; it then holds the three
    providers gemini, gpt, claude in this order, and refuses every other
    model with the "not supported" error that names it. *)
Theorem Root_registry_built_iff_gemini_key
  (gemini_remote : string -> string -> Result string) (env : Env) :
  ((exists this, Root.AIService_new gemini_remote env = Return this)
   <-> credential (VITE_GEMINI_API_KEY env) <> None)
  /\ (forall this,
        Root.AIService_new gemini_remote env = Return this ->
        getAvailableModels this
        = [{| key := "gemini"; name := "Gemini 1.5 Flash" |};
           {| key := "gpt"; name := "GPT-4" |};
           {| key := "claude"; name := "Claude 3" |}]
        /\ (forall model,
              model <> "gemini" -> model <> "gpt" -> model <> "claude" ->
              Root.getProvider this model
              = Throw (Err (Root.notSupported model)))).
Proof.
  unfold Root.AIService_new, GeminiProvider_new.
  destruct (credential (VITE_GEMINI_API_KEY env)) as [apiKey|];
    cbn [bindR Root.GPTProvider_new Root.ClaudeProvider_new].
  - split.
    + split; [congruence | intros _; eexists; reflexivity].
    + intros this [= <-]. split; [reflexivity|].
      intros model Hgemini Hgpt Hclaude.
      unfold Root.getProvider. cbn [providers JSMap.get].
      destruct (String.eqb_spec "gemini" model); [congruence|].
      destruct (String.eqb_spec "gpt" model); [congruence|].
      destruct (String.eqb_spec "claude" model); [congruence|].
      reflexivity.
  - split.
    + split; [intros [this H]; discriminate H | congruence].
    + intros this H. discriminate H.
Qed.

Lemma Root_registry_built_iff_gemini_key_witness :
  getAvailableModels Demo.aiService
  = [{| key := "gemini"; name := "Gemini 1.5 Flash" |};
     {| key := "gpt"; name := "GPT-4" |};
     {| key := "claude"; name := "Claude 3" |}]
  /\ Root.getProvider Demo.aiService "llama"
     = Throw (Err (Root.notSupported "llama")).
Proof.
  destruct (Root_registry_built_iff_gemini_key
              (fun _ _ => Throw (Err "Failed to fetch")) Demo.env)
    as [_ Hbuilt].
  destruct (Hbuilt Demo.aiService eq_refl) as [Hlist Hother].
  split; [exact Hlist|].
  apply Hother; discriminate.
Defined.

(** X2.  Whatever the environment, the client registry resolves "gpt", to
    the provider named "DialoGPT Large (Free)", and that provider's
    [generateResponse] resolves with non-empty text whatever the network
    does: the client application always has a provider that answers. *)
Theorem Client_gpt_always_answers
  (toLowerCase trim : string -> string) (fetch : Fetch)
  (gemini_remote claude_remote : string -> string -> Result string)
  (env : Env) (message : string) :
  exists this provider text,
    Client.AIService_new toLowerCase trim fetch gemini_remote claude_remote env
      = Return this
    /\ Client.getProvider this "gpt" = Return provider
    /\ getName provider = "DialoGPT Large (Free)"
    /\ In {| key := "gpt"; name := "DialoGPT Large (Free)" |}
          (getAvailableModels this)
    /\ generateResponse provider message = Return text
    /\ JS.truthy text = true.
Proof.
  destruct (GPT_generateResponse_resolves toLowerCase trim fetch message)
    as [text [Htext Hfull]].
  unfold Client.AIService_new, GeminiProvider_new, ClaudeProvider_new,
    GPTProvider_new, Client.getProvider.
  destruct (credential (VITE_GEMINI_API_KEY env)),
           (credential (VITE_CLAUDE_API_KEY env)); simpl;
    eexists; eexists; exists text;
    (split; [reflexivity|]); simpl;
    (split; [reflexivity|]); simpl;
    (split; [reflexivity|]);
    (split; [simpl; tauto|]);
    (split; [exact Htext | exact Hfull]).
Qed.

(** X3.  In the copy of the client registry whose three providers all hold
    a credential, the listing is exactly the providers whose credential is
    a non-empty string, in the order gemini, gpt, claude; with no
    credential at all the registry is still built, is empty, and refuses
    every model by name. *)
Theorem ClientKeyed_lists_credentialed_providers
  (gemini_remote gpt_remote claude_remote : string -> string -> Result string)
  (env : Env) :
  exists this,
    ClientKeyed.AIService_new gemini_remote gpt_remote claude_remote env
      = Return this
    /\ getAvailableModels this
       = ((match credential (VITE_GEMINI_API_KEY env) with
           | Some _ => [{| key := "gemini"; name := "Gemini 1.5 Flash" |}]
           | None => []
           end)
          ++ (match credential (VITE_OPENAI_API_KEY env) with
              | Some _ => [{| key := "gpt"; name := "GPT-4" |}]
              | None => []
              end)
          ++ (match credential (VITE_CLAUDE_API_KEY env) with
              | Some _ => [{| key := "claude"; name := "Claude 3" |}]
              | None => []
              end))%list
    /\ (credential (VITE_GEMINI_API_KEY env) = None ->
        credential (VITE_OPENAI_API_KEY env) = None ->
        credential (VITE_CLAUDE_API_KEY env) = None ->
        getAvailableModels this = []
        /\ forall model,
             Client.getProvider this model
             = Throw (Err (Client.notAvailable model))).
Proof.
  unfold ClientKeyed.AIService_new, GeminiProvider_new, ClaudeProvider_new,
    ClientKeyed.GPTProvider_new.
  eexists. split; [reflexivity|].
  destruct (credential (VITE_GEMINI_API_KEY env)),
           (credential (VITE_OPENAI_API_KEY env)),
           (credential (VITE_CLAUDE_API_KEY env)); simpl;
    (split; [reflexivity|]); intros H1 H2 H3; try discriminate.
  split; reflexivity.
Qed.

Lemma ClientKeyed_lists_credentialed_providers_witness :
  exists this,
    ClientKeyed.AIService_new (fun _ _ => Return "pong")
      (fun _ _ => Return "pong") (fun _ _ => Return "pong")
      {| VITE_GEMINI_API_KEY := None;
         VITE_OPENAI_API_KEY := Some "";
         VITE_CLAUDE_API_KEY := None |} = Return this
    /\ getAvailableModels this = []
    /\ Client.getProvider this "gpt"
       = Throw (Err (Client.notAvailable "gpt")).
Proof.
  destruct (ClientKeyed_lists_credentialed_providers
              (fun _ _ => Return "pong") (fun _ _ => Return "pong")
              (fun _ _ => Return "pong")
              {| VITE_GEMINI_API_KEY := None;
                 VITE_OPENAI_API_KEY := Some "";
                 VITE_CLAUDE_API_KEY := None |})
    as [this [Hnew [_ Hnone]]].
  exists this. split; [exact Hnew|].
  destruct (Hnone eq_refl eq_refl eq_refl) as [Hempty Hrefuse].
  split; [exact Hempty | apply Hrefuse].
Defined.

(** ** The fallbacks and their chains *)

(** X4.  [generateSmartFallback] takes any digit, operator, digit in a row
    for arithmetic: a prompt that holds such a run anywhere (a date such as
    2024-01-15, a fraction, a version range) and none of the programming
    keywords gets the canned math response, whatever else it says. *)
Theorem digit_operator_digit_is_math (toLowerCase : string -> string)
  (message before after : string) (d1 op d2 : ascii) :
  message = before ++ String d1 (String op (String d2 after)) ->
  JS.is_digit d1 = true -> JS.is_operator op = true ->
  JS.is_digit d2 = true ->
  JS.includes (toLowerCase message) "code" = false ->
  JS.includes (toLowerCase message) "program" = false ->
  JS.includes (toLowerCase message) "function" = false ->
  generateSmartFallback toLowerCase message = Canned.math.
Proof.
  intros Hmsg Hd1 Hop Hd2 Hcode Hprogram Hfunction.
  assert (JS.arith_test message = true) as Harith
    by (apply arith_test_occurrence; now exists before, d1, op, d2, after).
  unfold generateSmartFallback.
  rewrite Hcode, Hprogram, Hfunction, Harith. simpl.
  now rewrite !orb_true_r.
Qed.

Lemma digit_operator_digit_is_math_witness :
  generateSmartFallback JS.toLowerCase "Write a story set on 2024-01-15"
  = Canned.math.
Proof.
  apply (digit_operator_digit_is_math JS.toLowerCase
           "Write a story set on 2024-01-15" "Write a story set on 202"
           "1-15" "4"%char "-"%char "0"%char); reflexivity.
Defined.

(** X5.  The response of [generateFallbackResponse] tells which rule fired
    and the rules are exact: it is the greeting exactly when the lower-cased
    prompt holds "hello" or "hi"; the help text exactly when it holds
    "help" and no greeting word; the question text exactly when it holds
    "what", "how" or "why" and none of the former; the thanks text exactly
    when it holds "thank" and none of the former; and the generic text
    exactly when it holds none of the seven keywords. *)
Theorem fallback_response_tells_the_rule (toLowerCase : string -> string)
  (message : string) :
  let has := fun keyword => JS.includes (toLowerCase message) keyword in
  let greets := has "hello" || has "hi" in
  let asks := has "what" || has "how" || has "why" in
  let response := generateFallbackResponse toLowerCase message in
  (response = Canned.greeting <-> greets = true)
  /\ (response = Canned.help <-> greets = false /\ has "help" = true)
  /\ (response = Canned.question
      <-> greets = false /\ has "help" = false /\ asks = true)
  /\ (response = Canned.thanks
      <-> greets = false /\ has "help" = false /\ asks = false
          /\ has "thank" = true)
  /\ (response = Canned.generic
      <-> greets = false /\ has "help" = false /\ asks = false
          /\ has "thank" = false).
Proof.
  intros has greets asks response.
  unfold response, generateFallbackResponse.
  fold (has "hello") (has "hi") (has "help") (has "what") (has "how")
       (has "why") (has "thank").
  fold greets. fold asks.
  destruct greets, (has "help"), asks, (has "thank");
    unfold Canned.greeting, Canned.help, Canned.question, Canned.thanks,
      Canned.generic;
    repeat split; intros; try reflexivity; try discriminate;
    repeat match goal with H : _ /\ _ |- _ => destruct H end;
    discriminate.
Qed.

Lemma fallback_response_tells_the_rule_witness :
  generateFallbackResponse JS.toLowerCase "Many THANKS to you" = Canned.thanks.
Proof.
  destruct (fallback_response_tells_the_rule JS.toLowerCase
              "Many THANKS to you") as [_ [_ [_ [Hthanks _]]]].
  apply Hthanks. repeat split.
Defined.

Lemma substring_whole (s : string) :
  String.substring 0 (String.length s) s = s.
Proof. induction s as [|c s IH]; simpl; [reflexivity | now rewrite IH]. Qed.

(** Cutting a prefix off by its length gives the rest back. *)
Lemma substringFrom_app (p rest : string) :
  JS.substringFrom (String.length p) (p ++ rest) = rest.
Proof.
  unfold JS.substringFrom. rewrite append_length.
  replace (String.length p + String.length rest - String.length p)
    with (String.length rest) by lia.
  induction p as [|c p IH]; simpl; [apply substring_whole | exact IH].
Qed.

Lemma startsWith_app (p rest : string) : JS.startsWith (p ++ rest) p = true.
Proof. unfold JS.startsWith. apply prefix_app. now exists rest. Qed.

Section ChainMoreFacts.

Variable toLowerCase : string -> string.
Variable trim : string -> string.
Variable fetch : Fetch.

(** What the chain does once [data[0]?.generated_text] is a string. *)
Lemma GPT_generated_string (message : string) (response : Response)
  (fields : list (string * Value)) (others : list Value) (generated : string) :
  fetch {| url := GPT_apiUrl; prompt := message |} = Return response ->
  ok response = true ->
  json response = Return (VArr (VObj fields :: others)) ->
  Json.lookup fields "generated_text" = Some (VStr generated) ->
  generated <> "" ->
  GPT_generateResponse toLowerCase trim fetch message
  = cleanGenerated trim message (Some (VStr generated)) GPT_rephrase.
Proof.
  intros Hfetch Hok Hjson Hfield Hfull.
  unfold GPT_generateResponse. rewrite Hfetch. simpl. rewrite Hok. simpl.
  rewrite Hjson. simpl. rewrite Hfield.
  destruct generated; [congruence|]. reflexivity.
Qed.

End ChainMoreFacts.

(** X6.  When the Hugging Face model answers with generated text, the GPT
    provider returns that text as it is unless it begins with the prompt;
    then the prompt is cut off the front and the rest is trimmed, and when
    nothing is left (the model only echoed the prompt) the provider answers
    with its fixed request to rephrase. *)
Theorem GPT_strips_the_echoed_prompt
  (toLowerCase trim : string -> string) (fetch : Fetch)
  (message : string) (response : Response)
  (fields : list (string * Value)) (others : list Value) (generated : string) :
  fetch {| url := GPT_apiUrl; prompt := message |} = Return response ->
  ok response = true ->
  json response = Return (VArr (VObj fields :: others)) ->
  Json.lookup fields "generated_text" = Some (VStr generated) ->
  generated <> "" ->
  (JS.startsWith generated message = false ->
   GPT_generateResponse toLowerCase trim fetch message = Return generated)
  /\ (forall rest,
        generated = message ++ rest ->
        GPT_generateResponse toLowerCase trim fetch message
        = Return (if JS.truthy (trim rest) then trim rest else GPT_rephrase))
  /\ (generated = message -> trim "" = "" ->
      GPT_generateResponse toLowerCase trim fetch message
      = Return GPT_rephrase).
Proof.
  intros Hfetch Hok Hjson Hfield Hfull.
  rewrite (GPT_generated_string toLowerCase trim fetch message response
             fields others generated Hfetch Hok Hjson Hfield Hfull).
  unfold cleanGenerated.
  assert (forall rest,
            generated = message ++ rest ->
            Return (if JS.truthy
                         (if JS.startsWith generated message
                          then trim (JS.substringFrom (String.length message)
                                       generated)
                          else generated)
                    then (if JS.startsWith generated message
                          then trim (JS.substringFrom (String.length message)
                                       generated)
                          else generated)
                    else GPT_rephrase)
            = Return (if JS.truthy (trim rest) then trim rest
                      else GPT_rephrase)) as Hecho
    by (intros rest ->; now rewrite startsWith_app, substringFrom_app).
  split; [|split].
  - intros ->. destruct generated; [congruence | reflexivity].
  - exact Hecho.
  - intros Hsame Htrim.
    rewrite (Hecho "") by (now rewrite append_nil_r).
    now rewrite Htrim.
Qed.

Lemma GPT_strips_the_echoed_prompt_witness :
  GPT_generateResponse JS.toLowerCase JS.trim
    (fun _ => Return {| ok := true; status := 200;
                        json := Return (VArr [VObj [("generated_text",
                                                      VStr "Hi there  I am fine ")]]) |})
    "Hi there"
  = Return "I am fine".
Proof.
  destruct (GPT_strips_the_echoed_prompt JS.toLowerCase JS.trim
              (fun _ => Return {| ok := true; status := 200;
                                  json := Return (VArr [VObj [("generated_text",
                                                                VStr "Hi there  I am fine ")]]) |})
              "Hi there"
              {| ok := true; status := 200;
                 json := Return (VArr [VObj [("generated_text",
                                               VStr "Hi there  I am fine ")]]) |}
              [("generated_text", VStr "Hi there  I am fine ")] []
              "Hi there  I am fine " eq_refl eq_refl eq_refl eq_refl)
    as [_ [Hecho _]]; [discriminate|].
  apply (Hecho "  I am fine "). reflexivity.
Defined.

(** X7.  Every way in which the Hugging Face attempt of the GPT provider
    can fail ends in the rule-based fallback: a rejected [fetch], a status
    that is not ok, a body that is no JSON, a body that is no array, an
    array whose first element has no truthy [generated_text], and a
    [generated_text] that is no string. *)
Theorem GPT_every_failure_falls_back
  (toLowerCase trim : string -> string) (fetch : Fetch) (message : string) :
  (forall e,
      fetch {| url := GPT_apiUrl; prompt := message |} = Throw e ->
      GPT_generateResponse toLowerCase trim fetch message
      = Return (generateFallbackResponse toLowerCase message))
  /\ (forall response,
        fetch {| url := GPT_apiUrl; prompt := message |} = Return response ->
        ok response = false
        \/ (exists e, json response = Throw e)
        \/ (exists data,
              json response = Return data
              /\ (Json.isArray data = false
                  \/ Json.truthy
                       (Json.optGet (Json.first data) "generated_text")
                     = false
                  \/ (forall s,
                        Json.optGet (Json.first data) "generated_text"
                        <> Some (VStr s)))) ->
        GPT_generateResponse toLowerCase trim fetch message
        = Return (generateFallbackResponse toLowerCase message)).
Proof.
  unfold GPT_generateResponse. split.
  - intros e ->. reflexivity.
  - intros response -> [Hok|[[e He]|[data [Hdata Hshape]]]]; simpl.
    + now rewrite Hok.
    + rewrite He. now destruct (ok response).
    + rewrite Hdata. destruct (ok response); [|reflexivity]. simpl.
      destruct Hshape as [Harray|[Hfalsy|Hother]].
      * now rewrite Harray.
      * now rewrite Hfalsy, andb_false_r.
      * destruct (Json.isArray data && _); [|reflexivity].
        unfold cleanGenerated.
        destruct (Json.optGet (Json.first data) "generated_text")
          as [[ | | |s| | ]|]; try reflexivity.
        now destruct (Hother s).
Qed.

Lemma GPT_every_failure_falls_back_witness :
  GPT_generateResponse JS.toLowerCase JS.trim
    (fun _ => Return {| ok := true; status := 200;
                        json := Return (VObj [("error",
                                               VStr "Model is loading")]) |})
    "hello"
  = Return Canned.greeting.
Proof.
  destruct (GPT_every_failure_falls_back JS.toLowerCase JS.trim
              (fun _ => Return {| ok := true; status := 200;
                                  json := Return (VObj [("error",
                                                         VStr "Model is loading")]) |})
              "hello") as [_ Hresponse].
  apply (Hresponse {| ok := true; status := 200;
                      json := Return (VObj [("error",
                                             VStr "Model is loading")]) |}).
  - reflexivity.
  - right. right. eexists. split; [reflexivity|]. left. reflexivity.
Defined.

(** X8.  The Groq provider tries its strategies in order and one at a time.
    When the Groq endpoint answers ok with a truthy
    [choices[0].message.content], that content is the result and the later
    stages play no part; in every other case (a rejected [fetch], a status
    that is not ok, a body that is no JSON or is [null], no truthy
    [choices], no truthy content) the result is that of the Hugging Face
    stage, which ends in the rule-based fallback. *)
Theorem Groq_tries_its_strategies_in_order
  (toLowerCase trim : string -> string) (fetch : Fetch) (message : string) :
  let nextStage :=
    (text <- generateHuggingFaceResponse toLowerCase trim fetch message ;;
     Return (VStr text))%result in
  (forall e,
      fetch {| url := Groq_apiUrl; prompt := message |} = Throw e ->
      Groq_generateResponse toLowerCase trim fetch message = nextStage)
  /\ (forall response,
        fetch {| url := Groq_apiUrl; prompt := message |} = Return response ->
        ok response = false
        \/ (exists e, json response = Throw e)
        \/ json response = Return VNull
        \/ (exists data choices,
              json response = Return data
              /\ Json.get data "choices" = Return choices
              /\ (Json.truthy choices = false
                  \/ Json.truthy
                       (Json.optGet
                          (Json.optGet (Json.index0 choices) "message")
                          "content") = false)) ->
        Groq_generateResponse toLowerCase trim fetch message = nextStage)
  /\ (forall response data choices content,
        fetch {| url := Groq_apiUrl; prompt := message |} = Return response ->
        ok response = true ->
        json response = Return data ->
        Json.get data "choices" = Return choices ->
        Json.truthy choices = true ->
        Json.optGet (Json.optGet (Json.index0 choices) "message") "content"
          = Some content ->
        Json.truthy (Some content) = true ->
        Groq_generateResponse toLowerCase trim fetch message
        = Return content).
Proof.
  intros nextStage. unfold nextStage, Groq_generateResponse.
  split; [|split].
  - intros e ->. reflexivity.
  - intros response -> [Hok|[[e He]|[Hnull|[data [choices [Hdata [Hget Hno]]]]]]];
      simpl.
    + rewrite Hok. simpl.
      now destruct (generateHuggingFaceResponse toLowerCase trim fetch message).
    + rewrite He. destruct (ok response); simpl;
        now destruct (generateHuggingFaceResponse toLowerCase trim fetch
                        message).
    + rewrite Hnull. destruct (ok response); simpl;
        now destruct (generateHuggingFaceResponse toLowerCase trim fetch
                        message).
    + rewrite Hdata. destruct (ok response); simpl.
      * rewrite Hget. simpl.
        assert (Json.truthy choices
                && Json.truthy
                     (Json.optGet
                        (Json.optGet (Json.index0 choices) "message")
                        "content") = false) as ->
          by (destruct Hno as [-> | ->];
              [reflexivity | apply andb_false_r]).
        now destruct (generateHuggingFaceResponse toLowerCase trim fetch
                        message).
      * now destruct (generateHuggingFaceResponse toLowerCase trim fetch
                        message).
  - intros response data choices content -> Hok Hdata Hget Hchoices Hcontent
      Htruthy. simpl.
    rewrite Hok, Hdata. simpl. rewrite Hget. simpl.
    rewrite Hchoices, Hcontent, Htruthy. reflexivity.
Qed.

Lemma Groq_tries_its_strategies_in_order_witness :
  Groq_generateResponse JS.toLowerCase JS.trim
    (fun request =>
       if String.eqb (url request) Groq_apiUrl
       then Return {| ok := false; status := 401;
                      json := Return (VObj []) |}
       else Throw (Err "Failed to fetch"))
    "explain closures"
  = Return (VStr Canned.explanation).
Proof.
  destruct (Groq_tries_its_strategies_in_order JS.toLowerCase JS.trim
              (fun request =>
                 if String.eqb (url request) Groq_apiUrl
                 then Return {| ok := false; status := 401;
                                json := Return (VObj []) |}
                 else Throw (Err "Failed to fetch"))
              "explain closures") as [_ [Hfail _]].
  rewrite (Hfail {| ok := false; status := 401; json := Return (VObj []) |}).
  - reflexivity.
  - reflexivity.
  - left. reflexivity.
Defined.

(** ** The remote providers and their errors *)

Lemma In_middle (before after : string) (z : ascii) :
  In z (list_ascii_of_string (before ++ String z after)).
Proof. induction before as [|c before IH]; simpl; [now left | now right]. Qed.

Lemma In_append_r (a b : string) (z : ascii) :
  In z (list_ascii_of_string b) -> In z (list_ascii_of_string (a ++ b)).
Proof. induction a as [|c a IH]; simpl; [trivial | intros H; right; auto]. Qed.

Lemma prefix_append (k a b : string) :
  String.prefix k a = true -> String.prefix k (a ++ b) = true.
Proof.
  intros H. apply prefix_app in H as [rest ->]. apply prefix_app.
  exists (rest ++ b). apply append_assoc.
Qed.

(** A keyword that ends in a letter cannot reach into a run of digits. *)
Lemma prefix_into_digits (b : string) (z : ascii) :
  JS.is_digit z = false ->
  (forall c, In c (list_ascii_of_string b) -> JS.is_digit c = true) ->
  forall a k0,
    String.prefix (k0 ++ String z "") (a ++ b) = true ->
    String.prefix (k0 ++ String z "") a = true.
Proof.
  intros Hz Hb. induction a as [|x a IH]; intros k0 H.
  - apply prefix_app in H as [rest Hrest]. simpl in Hrest.
    rewrite append_assoc in Hrest. simpl in Hrest.
    assert (JS.is_digit z = true) as Habs
      by (apply Hb; rewrite Hrest; apply In_middle).
    congruence.
  - destruct k0 as [|c k0]; simpl in *.
    + destruct (ascii_dec z x); [now destruct a | discriminate].
    + destruct (ascii_dec c x); [|discriminate]. now apply IH.
Qed.

Lemma includes_into_digits (b k0 : string) (z : ascii) :
  JS.is_digit z = false ->
  (forall c, In c (list_ascii_of_string b) -> JS.is_digit c = true) ->
  forall a,
    JS.includes (a ++ b) (k0 ++ String z "")
    = JS.includes a (k0 ++ String z "").
Proof.
  intros Hz Hb.
  assert (forall a, String.prefix (k0 ++ String z "") (a ++ b)
                    = String.prefix (k0 ++ String z "") a) as Hprefix.
  { intros a.
    destruct (String.prefix (k0 ++ String z "") a) eqn:P.
    - now apply prefix_append.
    - destruct (String.prefix (k0 ++ String z "") (a ++ b)) eqn:Q;
        [|reflexivity].
      apply (prefix_into_digits b z Hz Hb) in Q. congruence. }
  induction a as [|x a IH].
  - simpl append. rewrite (includes_unfold "").
    destruct (JS.includes b (k0 ++ String z "")) eqn:I.
    + apply includes_app in I as [before [after Hocc]].
      rewrite append_assoc in Hocc. simpl in Hocc.
      assert (JS.is_digit z = true) as Habs.
      { apply Hb. rewrite Hocc. apply In_append_r. apply In_middle. }
      congruence.
    + now destruct k0.
  - simpl append. rewrite (includes_unfold (String x (a ++ b))),
      (includes_unfold (String x a)).
    change (String x (a ++ b)) with (String x a ++ b).
    now rewrite Hprefix, IH.
Qed.

Lemma decimal_digits (n : nat) (c : ascii) :
  In c (list_ascii_of_string (decimal n)) -> JS.is_digit c = true.
Proof.
  unfold decimal. generalize (Nat.to_uint n) as u.
  induction u; simpl; intros H;
    repeat match goal with
           | H : _ \/ _ |- _ => destruct H as [<-|H]; [reflexivity|]
           | H : False |- _ => destruct H
           end; auto.
Qed.

(** The status message holds none of the words that the [catch] blocks
    look for. *)
Lemma status_message_has_no_keyword (n : nat) (k0 : string) (z : ascii) :
  JS.is_digit z = false ->
  JS.includes "HTTP error! status: " (k0 ++ String z "") = false ->
  JS.includes ("HTTP error! status: " ++ decimal n) (k0 ++ String z "")
  = false.
Proof.
  intros Hz Hstatic. rewrite includes_into_digits; [exact Hstatic | exact Hz |].
  apply decimal_digits.
Qed.

Section RemoteFacts.

Variable fetch : Fetch.
Variable typeErrorMessage : string -> string.
Variable toStringOther : Value -> string.

(** The not-ok branch always throws. *)
Lemma throwHttpError_throws {A} (response : Response) :
  exists e, @throwHttpError typeErrorMessage toStringOther A response = Throw e.
Proof.
  unfold throwHttpError.
  destruct (json response) as [errorData|e]; cbn [bindR];
    [|eexists; reflexivity].
  destruct (getT typeErrorMessage (Some errorData) "error"); cbn [bindR];
    eexists; reflexivity.
Qed.

(** With a vendor message in the body, that message is thrown. *)
Lemma throwHttpError_vendor {A} (response : Response)
  (top err : list (string * Value)) (message : string) :
  json response = Return (VObj top) ->
  Json.lookup top "error" = Some (VObj err) ->
  Json.lookup err "message" = Some (VStr message) ->
  message <> "" ->
  @throwHttpError typeErrorMessage toStringOther A response
  = Throw (Err message).
Proof.
  intros Hjson Herror Hmessage Hfull. unfold throwHttpError.
  rewrite Hjson. cbn [bindR getT Json.optGet]. rewrite Herror.
  cbn [Json.optGet]. rewrite Hmessage.
  destruct message; [congruence | reflexivity].
Qed.

(** Without one, the status is. *)
Lemma throwHttpError_status {A} (response : Response)
  (top : list (string * Value)) :
  json response = Return (VObj top) ->
  Json.lookup top "error" = None ->
  @throwHttpError typeErrorMessage toStringOther A response
  = Throw (Err ("HTTP error! status: " ++ decimal (status response))).
Proof.
  intros Hjson Herror. unfold throwHttpError.
  rewrite Hjson. cbn [bindR getT Json.optGet]. rewrite Herror. reflexivity.
Qed.

End RemoteFacts.

Lemma Gemini_catch_Err (caught : Thrown) :
  exists message, Gemini_catch caught = Err message.
Proof.
  destruct caught as [message|]; unfold Gemini_catch; [|eauto].
  destruct (JS.includes message "API key not valid"),
           (JS.includes message "quota"),
           (JS.includes message "Failed to fetch"); eauto.
Qed.

Lemma Claude_catch_Err (caught : Thrown) :
  exists message, Claude_catch caught = Err message.
Proof.
  destruct caught as [message|]; unfold Claude_catch; [|eauto].
  destruct (JS.includes message "authentication"),
           (JS.includes message "rate_limit"); eauto.
Qed.

Lemma OpenAI_catch_Err (caught : Thrown) :
  exists message, OpenAI_catch caught = Err message.
Proof.
  destruct caught as [message|]; unfold OpenAI_catch; [|eauto].
  destruct (JS.includes message "Incorrect API key"),
           (JS.includes message "quota"); eauto.
Qed.

(** X9.  The [catch] blocks of the Gemini, Claude and OpenAI providers throw
    [Error] objects only, and what they throw they would throw again
    unchanged: classifying an error that a block has already classified
    gives the same error. *)
Theorem catch_blocks_settle (caught : Thrown) :
  (exists message, Gemini_catch caught = Err message)
  /\ (exists message, Claude_catch caught = Err message)
  /\ (exists message, OpenAI_catch caught = Err message)
  /\ Gemini_catch (Gemini_catch caught) = Gemini_catch caught
  /\ Claude_catch (Claude_catch caught) = Claude_catch caught
  /\ OpenAI_catch (OpenAI_catch caught) = OpenAI_catch caught.
Proof.
  split; [apply Gemini_catch_Err|].
  split; [apply Claude_catch_Err|].
  split; [apply OpenAI_catch_Err|].
  destruct caught as [message|].
  - unfold Gemini_catch, Claude_catch, OpenAI_catch.
    repeat split.
    + destruct (JS.includes message "API key not valid") eqn:H1;
        [reflexivity|].
      destruct (JS.includes message "quota") eqn:H2; [reflexivity|].
      destruct (JS.includes message "Failed to fetch") eqn:H3;
        [reflexivity|].
      now rewrite H1, H2, H3.
    + destruct (JS.includes message "authentication") eqn:H1;
        [reflexivity|].
      destruct (JS.includes message "rate_limit") eqn:H2; [reflexivity|].
      now rewrite H1, H2.
    + destruct (JS.includes message "Incorrect API key") eqn:H1;
        [reflexivity|].
      destruct (JS.includes message "quota") eqn:H2; [reflexivity|].
      now rewrite H1, H2.
  - repeat split.
Qed.

(** X10.  [GeminiProvider.generateResponse] resolves only from a response
    that is ok and whose body is JSON; whatever else happens it rejects,
    and always with an [Error] object.  A rejected [fetch] whose message
    says "Failed to fetch" (and names neither key nor quota) is reported as
    the network error. *)
Theorem Gemini_resolves_only_from_ok_json
  (fetch : Fetch) (typeErrorMessage : string -> string)
  (toStringOther : Value -> string) (apiKey message : string) :
  let request := {| url := Gemini_apiUrl ++ "?key=" ++ apiKey;
                    prompt := message |} in
  let result := Gemini_generateResponse fetch typeErrorMessage toStringOther
                  apiKey message in
  (forall value,
      result = Return value ->
      exists response data,
        fetch request = Return response /\ ok response = true
        /\ json response = Return data)
  /\ (forall e, result = Throw e -> exists text, e = Err text)
  /\ (forall text,
        fetch request = Throw (Err text) ->
        JS.includes text "API key not valid" = false ->
        JS.includes text "quota" = false ->
        JS.includes text "Failed to fetch" = true ->
        result
        = Throw (Err "Network error. Please check your internet connection.")).
Proof.
  intros request result. unfold result, Gemini_generateResponse.
  fold request. split; [|split].
  - intros value.
    destruct (fetch request) as [response|e]; cbn [bindR tryCatch];
      [|discriminate].
    destruct (ok response) eqn:Hok; cbn [negb].
    + destruct (json response) as [data|e] eqn:Hjson; cbn [bindR tryCatch];
        [|discriminate].
      intros _. now exists response, data.
    + destruct (throwHttpError_throws typeErrorMessage toStringOther
                  (A := option Value) response) as [e ->].
      discriminate.
  - intros e H.
    match type of H with
    | tryCatch ?body _ = _ => destruct body as [v|caught]
    end; cbn [tryCatch] in H; [discriminate|].
    injection H as <-. apply Gemini_catch_Err.
  - intros text -> H1 H2 H3. cbn [bindR tryCatch]. unfold Gemini_catch.
    now rewrite H1, H2, H3.
Qed.

Lemma Gemini_resolves_only_from_ok_json_witness :
  Gemini_generateResponse (fun _ => Throw (Err "TypeError: Failed to fetch"))
    (fun k => k) (fun _ => "[object Object]") "key" "hi"
  = Throw (Err "Network error. Please check your internet connection.").
Proof.
  destruct (Gemini_resolves_only_from_ok_json
              (fun _ => Throw (Err "TypeError: Failed to fetch"))
              (fun k => k) (fun _ => "[object Object]") "key" "hi")
    as [_ [_ Hnetwork]].
  apply (Hnetwork "TypeError: Failed to fetch"); reflexivity.
Defined.

(** X11.  When the Gemini endpoint answers with a status that is not ok,
    the provider rejects with the vendor's [error.message], classified by
    the [catch] block (so a message about an invalid key or a quota becomes
    the fixed text for it), and, when the body holds no [error], with
    "HTTP error! status: N" for the status N, which no classification
    touches. *)
Theorem Gemini_reports_http_failures
  (fetch : Fetch) (typeErrorMessage : string -> string)
  (toStringOther : Value -> string) (apiKey message : string)
  (response : Response) (top : list (string * Value)) :
  fetch {| url := Gemini_apiUrl ++ "?key=" ++ apiKey; prompt := message |}
    = Return response ->
  ok response = false ->
  json response = Return (VObj top) ->
  let result := Gemini_generateResponse fetch typeErrorMessage toStringOther
                  apiKey message in
  (forall err vendor,
      Json.lookup top "error" = Some (VObj err) ->
      Json.lookup err "message" = Some (VStr vendor) ->
      vendor <> "" ->
      result = Throw (Gemini_catch (Err vendor))
      /\ (JS.includes vendor "API key not valid" = true ->
          result
          = Throw (Err "Invalid API key. Please check your Gemini API key."))
      /\ (JS.includes vendor "API key not valid" = false ->
          JS.includes vendor "quota" = true ->
          result = Throw (Err "API quota exceeded. Please try again later.")))
  /\ (Json.lookup top "error" = None ->
      result
      = Throw (Err ("HTTP error! status: " ++ decimal (status response)))).
Proof.
  intros Hfetch Hok Hjson result.
  unfold result, Gemini_generateResponse. rewrite Hfetch.
  cbn [bindR]. rewrite Hok. cbn [negb]. split.
  - intros err vendor Herror Hvendor Hfull.
    rewrite (throwHttpError_vendor typeErrorMessage toStringOther response
               top err vendor Hjson Herror Hvendor Hfull).
    cbn [tryCatch]. split; [reflexivity|]. unfold Gemini_catch. split.
    + now intros ->.
    + now intros -> ->.
  - intros Herror.
    rewrite (throwHttpError_status typeErrorMessage toStringOther response
               top Hjson Herror).
    cbn [tryCatch]. unfold Gemini_catch.
    pose proof (status_message_has_no_keyword (status response)
                  "API key not vali" "d"%char eq_refl eq_refl) as H1.
    pose proof (status_message_has_no_keyword (status response)
                  "quot" "a"%char eq_refl eq_refl) as H2.
    pose proof (status_message_has_no_keyword (status response)
                  "Failed to fetc" "h"%char eq_refl eq_refl) as H3.
    change ("API key not vali" ++ "d") with "API key not valid" in H1.
    change ("quot" ++ "a") with "quota" in H2.
    change ("Failed to fetc" ++ "h") with "Failed to fetch" in H3.
    now rewrite H1, H2, H3.
Qed.

Lemma Gemini_reports_http_failures_witness :
  Gemini_generateResponse
    (fun _ => Return {| ok := false; status := 429;
                        json := Return (VObj [("error",
                          VObj [("code", VNum 429);
                                ("message",
                                 VStr "You exceeded your current quota")])]) |})
    (fun k => k) (fun _ => "[object Object]") "key" "hi"
  = Throw (Err "API quota exceeded. Please try again later.")
  /\ Gemini_generateResponse
       (fun _ => Return {| ok := false; status := 503;
                           json := Return (VObj []) |})
       (fun k => k) (fun _ => "[object Object]") "key" "hi"
     = Throw (Err "HTTP error! status: 503").
Proof.
  split.
  - destruct (Gemini_reports_http_failures
                (fun _ => Return {| ok := false; status := 429;
                                    json := Return (VObj [("error",
                                      VObj [("code", VNum 429);
                                            ("message",
                                             VStr "You exceeded your current quota")])]) |})
                (fun k => k) (fun _ => "[object Object]") "key" "hi"
                {| ok := false; status := 429;
                   json := Return (VObj [("error",
                     VObj [("code", VNum 429);
                           ("message",
                            VStr "You exceeded your current quota")])]) |}
                [("error", VObj [("code", VNum 429);
                                 ("message",
                                  VStr "You exceeded your current quota")])]
                eq_refl eq_refl eq_refl) as [Hvendor _].
    destruct (Hvendor [("code", VNum 429);
                       ("message", VStr "You exceeded your current quota")]
                "You exceeded your current quota" eq_refl eq_refl)
      as [_ [_ Hquota]]; [discriminate|].
    apply Hquota; reflexivity.
  - destruct (Gemini_reports_http_failures
                (fun _ => Return {| ok := false; status := 503;
                                    json := Return (VObj []) |})
                (fun k => k) (fun _ => "[object Object]") "key" "hi"
                {| ok := false; status := 503; json := Return (VObj []) |}
                [] eq_refl eq_refl eq_refl) as [_ Hstatus].
    apply Hstatus. reflexivity.
Defined.

(** X12.  From an ok response the Gemini provider takes the text of the
    first part of the first candidate; a body without candidates, or with an
    empty list of them, is rejected as "Invalid response format from Gemini
    API", a message that the [catch] block leaves as it is. *)
Theorem Gemini_reads_the_first_candidate
  (fetch : Fetch) (typeErrorMessage : string -> string)
  (toStringOther : Value -> string) (apiKey message : string)
  (response : Response) (top : list (string * Value)) :
  fetch {| url := Gemini_apiUrl ++ "?key=" ++ apiKey; prompt := message |}
    = Return response ->
  ok response = true ->
  json response = Return (VObj top) ->
  let result := Gemini_generateResponse fetch typeErrorMessage toStringOther
                  apiKey message in
  (forall candidate moreCandidates content part moreParts text,
      Json.lookup top "candidates"
        = Some (VArr (VObj candidate :: moreCandidates)) ->
      Json.lookup candidate "content" = Some (VObj content) ->
      Json.lookup content "parts" = Some (VArr (VObj part :: moreParts)) ->
      Json.lookup part "text" = Some text ->
      result = Return (Some text))
  /\ (Json.lookup top "candidates" = None
      \/ Json.lookup top "candidates" = Some (VArr []) ->
      result = Throw (Err "Invalid response format from Gemini API")).
Proof.
  intros Hfetch Hok Hjson result.
  unfold result, Gemini_generateResponse. rewrite Hfetch.
  cbn [bindR]. rewrite Hok. cbn [negb]. rewrite Hjson.
  cbn [bindR getT Json.optGet]. split.
  - intros candidate moreCandidates content part moreParts text
      Hcandidates Hcontent Hparts Htext.
    rewrite Hcandidates.
    cbn [bindR Json.truthy Json.index0 Json.first Json.optGet negb orb].
    rewrite Hcontent.
    cbn [bindR Json.truthy negb orb getT Json.optGet].
    rewrite Hparts.
    cbn [bindR index0T Json.index0 Json.first getT Json.optGet].
    now rewrite Htext.
  - intros [Hnone|Hempty].
    + rewrite Hnone. reflexivity.
    + rewrite Hempty. reflexivity.
Qed.

Lemma Gemini_reads_the_first_candidate_witness :
  Gemini_generateResponse
    (fun _ => Return {| ok := true; status := 200;
                        json := Return (VObj [("candidates",
                          VArr [VObj [("content",
                            VObj [("parts",
                                   VArr [VObj [("text", VStr "Bonjour")]])])]])]) |})
    (fun k => k) (fun _ => "[object Object]") "key" "hi"
  = Return (Some (VStr "Bonjour")).
Proof.
  destruct (Gemini_reads_the_first_candidate
              (fun _ => Return {| ok := true; status := 200;
                                  json := Return (VObj [("candidates",
                                    VArr [VObj [("content",
                                      VObj [("parts",
                                             VArr [VObj [("text", VStr "Bonjour")]])])]])]) |})
              (fun k => k) (fun _ => "[object Object]") "key" "hi"
              {| ok := true; status := 200;
                 json := Return (VObj [("candidates",
                   VArr [VObj [("content",
                     VObj [("parts",
                            VArr [VObj [("text", VStr "Bonjour")]])])]])]) |}
              [("candidates",
                VArr [VObj [("content",
                  VObj [("parts", VArr [VObj [("text", VStr "Bonjour")]])])]])]
              eq_refl eq_refl eq_refl) as [Hwell _].
  apply (Hwell [("content",
                 VObj [("parts", VArr [VObj [("text", VStr "Bonjour")]])])]
               []
               [("parts", VArr [VObj [("text", VStr "Bonjour")]])]
               [("text", VStr "Bonjour")] [] (VStr "Bonjour"));
    reflexivity.
Defined.

(** X13.  The Anthropic provider: from an ok response it takes the text of
    the first content block, and rejects a body without content blocks as
    "Invalid response format from Claude API"; from a status that is not ok
    it rejects with the vendor's message, turned into the fixed key text
    when it says "authentication" and otherwise into the fixed rate-limit
    text when it says "rate_limit", or with "HTTP error! status: N" when
    the body holds no [error]; and it only ever rejects with an [Error]
    object. *)
Theorem Claude_remote_outcomes
  (fetch : Fetch) (typeErrorMessage : string -> string)
  (toStringOther : Value -> string) (message : string)
  (response : Response) (top : list (string * Value)) :
  fetch {| url := Claude_apiUrl; prompt := message |} = Return response ->
  json response = Return (VObj top) ->
  let result := Claude_generateResponse fetch typeErrorMessage toStringOther
                  message in
  (ok response = true ->
   (forall block more text,
       Json.lookup top "content" = Some (VArr (VObj block :: more)) ->
       Json.lookup block "text" = Some text ->
       Json.truthy (Some text) = true ->
       result = Return (Some text))
   /\ (Json.lookup top "content" = None
       \/ Json.lookup top "content" = Some (VArr []) ->
       result = Throw (Err "Invalid response format from Claude API")))
  /\ (ok response = false ->
      (forall err vendor,
          Json.lookup top "error" = Some (VObj err) ->
          Json.lookup err "message" = Some (VStr vendor) ->
          vendor <> "" ->
          result = Throw (Claude_catch (Err vendor))
          /\ (JS.includes vendor "authentication" = true ->
              result
              = Throw (Err "Invalid Claude API key. Please check your API key."))
          /\ (JS.includes vendor "authentication" = false ->
              JS.includes vendor "rate_limit" = true ->
              result
              = Throw (Err "Claude API rate limit exceeded. Please try again later.")))
      /\ (Json.lookup top "error" = None ->
          result
          = Throw (Err ("HTTP error! status: " ++ decimal (status response)))))
  /\ (forall e, result = Throw e -> exists text, e = Err text).
Proof.
  intros Hfetch Hjson result.
  unfold result, Claude_generateResponse. split; [|split].
  - intros Hok. rewrite Hfetch. cbn [bindR]. rewrite Hok. cbn [negb].
    rewrite Hjson. cbn [bindR getT Json.optGet]. split.
    + intros block more text Hcontent Htext Htruthy.
      rewrite Hcontent.
      cbn [bindR Json.truthy Json.index0 Json.first Json.optGet negb orb].
      rewrite Htext, Htruthy. reflexivity.
    + intros [Hnone|Hempty]; [rewrite Hnone | rewrite Hempty]; reflexivity.
  - intros Hok. rewrite Hfetch. cbn [bindR]. rewrite Hok. cbn [negb]. split.
    + intros err vendor Herror Hvendor Hfull.
      rewrite (throwHttpError_vendor typeErrorMessage toStringOther response
                 top err vendor Hjson Herror Hvendor Hfull).
      cbn [tryCatch]. split; [reflexivity|]. unfold Claude_catch. split.
      * now intros ->.
      * now intros -> ->.
    + intros Herror.
      rewrite (throwHttpError_status typeErrorMessage toStringOther response
                 top Hjson Herror).
      cbn [tryCatch]. unfold Claude_catch.
      pose proof (status_message_has_no_keyword (status response)
                    "authenticatio" "n"%char eq_refl eq_refl) as H1.
      pose proof (status_message_has_no_keyword (status response)
                    "rate_limi" "t"%char eq_refl eq_refl) as H2.
      change ("authenticatio" ++ "n") with "authentication" in H1.
      change ("rate_limi" ++ "t") with "rate_limit" in H2.
      now rewrite H1, H2.
  - intros e H.
    match type of H with
    | tryCatch ?body _ = _ => destruct body as [v|caught]
    end; cbn [tryCatch] in H; [discriminate|].
    injection H as <-. apply Claude_catch_Err.
Qed.

Lemma Claude_remote_outcomes_witness :
  Claude_generateResponse
    (fun _ => Return {| ok := false; status := 429;
                        json := Return (VObj [("error",
                          VObj [("type", VStr "rate_limit_error");
                                ("message",
                                 VStr "rate_limit_error: too many requests")])]) |})
    (fun k => k) (fun _ => "[object Object]") "hi"
  = Throw (Err "Claude API rate limit exceeded. Please try again later.").
Proof.
  destruct (Claude_remote_outcomes
              (fun _ => Return {| ok := false; status := 429;
                                  json := Return (VObj [("error",
                                    VObj [("type", VStr "rate_limit_error");
                                          ("message",
                                           VStr "rate_limit_error: too many requests")])]) |})
              (fun k => k) (fun _ => "[object Object]") "hi"
              {| ok := false; status := 429;
                 json := Return (VObj [("error",
                   VObj [("type", VStr "rate_limit_error");
                         ("message",
                          VStr "rate_limit_error: too many requests")])]) |}
              [("error", VObj [("type", VStr "rate_limit_error");
                               ("message",
                                VStr "rate_limit_error: too many requests")])]
              eq_refl eq_refl) as [_ [Hfailed _]].
  destruct (Hfailed eq_refl) as [Hvendor _].
  destruct (Hvendor [("type", VStr "rate_limit_error");
                     ("message", VStr "rate_limit_error: too many requests")]
              "rate_limit_error: too many requests" eq_refl eq_refl)
    as [_ [_ Hrate]]; [discriminate|].
  apply Hrate; reflexivity.
Defined.

(** X14.  The OpenAI provider: from an ok response it takes
    [choices[0].message.content], and rejects a body without choices as
    "Invalid response format from OpenAI API"; from a status that is not ok
    it rejects with the vendor's message, turned into the fixed key text
    when it says "Incorrect API key" and otherwise into the fixed quota
    text when it says "quota", or with "HTTP error! status: N" when the
    body holds no [error]; and it only ever rejects with an [Error]
    object. *)
Theorem OpenAI_remote_outcomes
  (fetch : Fetch) (typeErrorMessage : string -> string)
  (toStringOther : Value -> string) (message : string)
  (response : Response) (top : list (string * Value)) :
  fetch {| url := OpenAI_apiUrl; prompt := message |} = Return response ->
  json response = Return (VObj top) ->
  let result := OpenAI_generateResponse fetch typeErrorMessage toStringOther
                  message in
  (ok response = true ->
   (forall choice more reply,
       Json.lookup top "choices" = Some (VArr (VObj choice :: more)) ->
       Json.lookup choice "message" = Some (VObj reply) ->
       result = Return (Json.lookup reply "content"))
   /\ (Json.lookup top "choices" = None
       \/ Json.lookup top "choices" = Some (VArr []) ->
       result = Throw (Err "Invalid response format from OpenAI API")))
  /\ (ok response = false ->
      (forall err vendor,
          Json.lookup top "error" = Some (VObj err) ->
          Json.lookup err "message" = Some (VStr vendor) ->
          vendor <> "" ->
          result = Throw (OpenAI_catch (Err vendor))
          /\ (JS.includes vendor "Incorrect API key" = true ->
              result
              = Throw (Err "Invalid OpenAI API key. Please check your API key."))
          /\ (JS.includes vendor "Incorrect API key" = false ->
              JS.includes vendor "quota" = true ->
              result
              = Throw (Err "OpenAI API quota exceeded. Please try again later.")))
      /\ (Json.lookup top "error" = None ->
          result
          = Throw (Err ("HTTP error! status: " ++ decimal (status response)))))
  /\ (forall e, result = Throw e -> exists text, e = Err text).
Proof.
  intros Hfetch Hjson result.
  unfold result, OpenAI_generateResponse. split; [|split].
  - intros Hok. rewrite Hfetch. cbn [bindR]. rewrite Hok. cbn [negb].
    rewrite Hjson. cbn [bindR getT Json.optGet]. split.
    + intros choice more reply Hchoices Hreply.
      rewrite Hchoices.
      cbn [bindR Json.truthy Json.index0 Json.first Json.optGet negb orb].
      rewrite Hreply. reflexivity.
    + intros [Hnone|Hempty]; [rewrite Hnone | rewrite Hempty]; reflexivity.
  - intros Hok. rewrite Hfetch. cbn [bindR]. rewrite Hok. cbn [negb]. split.
    + intros err vendor Herror Hvendor Hfull.
      rewrite (throwHttpError_vendor typeErrorMessage toStringOther response
                 top err vendor Hjson Herror Hvendor Hfull).
      cbn [tryCatch]. split; [reflexivity|]. unfold OpenAI_catch. split.
      * now intros ->.
      * now intros -> ->.
    + intros Herror.
      rewrite (throwHttpError_status typeErrorMessage toStringOther response
                 top Hjson Herror).
      cbn [tryCatch]. unfold OpenAI_catch.
      pose proof (status_message_has_no_keyword (status response)
                    "Incorrect API ke" "y"%char eq_refl eq_refl) as H1.
      pose proof (status_message_has_no_keyword (status response)
                    "quot" "a"%char eq_refl eq_refl) as H2.
      change ("Incorrect API ke" ++ "y") with "Incorrect API key" in H1.
      change ("quot" ++ "a") with "quota" in H2.
      now rewrite H1, H2.
  - intros e H.
    match type of H with
    | tryCatch ?body _ = _ => destruct body as [v|caught]
    end; cbn [tryCatch] in H; [discriminate|].
    injection H as <-. apply OpenAI_catch_Err.
Qed.

Lemma OpenAI_remote_outcomes_witness :
  OpenAI_generateResponse
    (fun _ => Return {| ok := true; status := 200;
                        json := Return (VObj [("choices",
                          VArr [VObj [("message",
                            VObj [("role", VStr "assistant");
                                  ("content", VStr "Hello!")])]])]) |})
    (fun k => k) (fun _ => "[object Object]") "hi"
  = Return (Some (VStr "Hello!")).
Proof.
  destruct (OpenAI_remote_outcomes
              (fun _ => Return {| ok := true; status := 200;
                                  json := Return (VObj [("choices",
                                    VArr [VObj [("message",
                                      VObj [("role", VStr "assistant");
                                            ("content", VStr "Hello!")])]])]) |})
              (fun k => k) (fun _ => "[object Object]") "hi"
              {| ok := true; status := 200;
                 json := Return (VObj [("choices",
                   VArr [VObj [("message",
                     VObj [("role", VStr "assistant");
                           ("content", VStr "Hello!")])]])]) |}
              [("choices",
                VArr [VObj [("message",
                  VObj [("role", VStr "assistant");
                        ("content", VStr "Hello!")])]])]
              eq_refl eq_refl) as [Hok _].
  destruct (Hok eq_refl) as [Hwell _].
  apply (Hwell [("message", VObj [("role", VStr "assistant");
                                  ("content", VStr "Hello!")])]
               []
               [("role", VStr "assistant"); ("content", VStr "Hello!")]);
    reflexivity.
Defined.

(** ** Sending, retrying and regenerating *)

Section SendFacts.

Variable uuidv4_at : nat -> string.
Variable date_at : nat -> Z.
Variable aiService : AIService.
Variable settings : Settings.

(** The two ways a send can end. *)
Lemma send_cases (messageText : string)
  (attachments : option (list Attachment.t)) (s : Sys) :
  let userMessage := sentMessage uuidv4_at date_at s messageText attachments in
  let outcome := handleSendMessage uuidv4_at date_at aiService settings
                   messageText attachments s in
  fst outcome = Return tt
  /\ ((exists e,
         chatState (snd outcome)
         = {| messages := messages (chatState s) ++ [userMessage];
              isLoading := false;
              error := Some (errorText e) |})
      \/ (exists provider response,
            Root.getProvider aiService (aiModel settings) = Return provider
            /\ generateResponse provider
                 (contextualMessage messageText attachments) = Return response
            /\ chatState (snd outcome)
               = {| messages :=
                      messages (chatState s)
                        ++ [userMessage;
                            {| Message.id := uuidv4_at (S (S (drawn s)));
                               Message.type := ai;
                               Message.text := response;
                               Message.timestamp :=
                                 date_at (S (S (S (drawn s))));
                               Message.model := Some (getName provider);
                               Message.attachments := None |}];
                    isLoading := false;
                    error := None |})).
Proof.
  intros userMessage outcome. unfold outcome, userMessage.
  destruct (Root.getProvider aiService (aiModel settings))
    as [provider|e] eqn:Hget.
  - destruct (generateResponse provider
                (contextualMessage messageText attachments))
      as [response|e] eqn:Hgen.
    + rewrite (send_answered uuidv4_at date_at aiService settings messageText
                 attachments s provider response Hget Hgen).
      split; [reflexivity|]. right. exists provider, response.
      split; [reflexivity|]. split; [exact Hgen|]. simpl.
      now rewrite <- app_assoc.
    + rewrite (send_rejected uuidv4_at date_at aiService settings messageText
                 attachments s provider e Hget Hgen).
      split; [reflexivity|]. left. now exists e.
  - rewrite (send_unresolved uuidv4_at date_at aiService settings messageText
               attachments s e Hget).
    split; [reflexivity|]. left. now exists e.
Qed.

End SendFacts.

(** X15.  A send never throws and ends in one of two states: answered, with
    exactly the user message and the assistant's answer appended and no
    error, or failed, with exactly the user message appended and the error
    text set.  In both the loading flag is down, and the messages that were
    there are all kept, in place. *)
Theorem send_ends_answered_or_failed
  (uuidv4_at : nat -> string) (date_at : nat -> Z) (aiService : AIService)
  (settings : Settings) (messageText : string)
  (attachments : option (list Attachment.t)) (s : Sys) :
  let outcome := handleSendMessage uuidv4_at date_at aiService settings
                   messageText attachments s in
  let after := chatState (snd outcome) in
  fst outcome = Return tt
  /\ isLoading after = false
  /\ List.firstn (List.length (messages (chatState s))) (messages after)
     = messages (chatState s)
  /\ ((error after = None
       /\ List.length (messages after)
          = 2 + List.length (messages (chatState s))
       /\ List.map Message.type
            (List.skipn (List.length (messages (chatState s)))
               (messages after)) = [user; ai])
      \/ (error after <> None
          /\ List.length (messages after)
             = 1 + List.length (messages (chatState s))
          /\ List.map Message.type
               (List.skipn (List.length (messages (chatState s)))
                  (messages after)) = [user])).
Proof.
  intros outcome after. unfold after, outcome.
  destruct (send_cases uuidv4_at date_at aiService settings messageText
              attachments s) as [Hret [[e Hfailed]|[provider [response
              [_ [_ Hanswered]]]]]].
  - split; [exact Hret|]. rewrite Hfailed. simpl.
    split; [reflexivity|].
    split; [now rewrite firstn_app, Nat.sub_diag, firstn_all, app_nil_r|].
    right. split; [discriminate|].
    split; [rewrite length_app; simpl; lia|].
    now rewrite skipn_app, Nat.sub_diag, skipn_all.
  - split; [exact Hret|]. rewrite Hanswered. simpl.
    split; [reflexivity|].
    split; [now rewrite firstn_app, Nat.sub_diag, firstn_all, app_nil_r|].
    left. split; [reflexivity|].
    split; [rewrite length_app; simpl; lia|].
    now rewrite skipn_app, Nat.sub_diag, skipn_all.
Qed.

(** X16.  The mock providers of the root registry always answer: with
    [aiModel] "gpt" or "claude" a send ends answered, and the answer quotes
    the effective prompt, attachment context included, between double
    quotes. *)
Theorem mock_providers_quote_the_prompt
  (uuidv4_at : nat -> string) (date_at : nat -> Z)
  (gemini_remote : string -> string -> Result string) (env : Env)
  (aiService : AIService) (settings : Settings) (messageText : string)
  (attachments : option (list Attachment.t)) (s : Sys) :
  Root.AIService_new gemini_remote env = Return aiService ->
  aiModel settings = "gpt" \/ aiModel settings = "claude" ->
  exists answer,
    chatState (snd (handleSendMessage uuidv4_at date_at aiService settings
                      messageText attachments s))
    = {| messages :=
           messages (chatState s)
             ++ [sentMessage uuidv4_at date_at s messageText attachments;
                 answer];
         isLoading := false;
         error := None |}
    /\ Message.type answer = ai
    /\ (aiModel settings = "gpt" ->
        Message.model answer = Some "GPT-4"
        /\ Message.text answer
           = "GPT-4 Response: This is a simulated response to " ++ JS.dquote
               ++ contextualMessage messageText attachments ++ JS.dquote
               ++ ". To use real GPT-4, implement OpenAI API integration.")
    /\ (aiModel settings = "claude" ->
        Message.model answer = Some "Claude 3"
        /\ Message.text answer
           = "Claude 3 Response: This is a simulated response to " ++ JS.dquote
               ++ contextualMessage messageText attachments ++ JS.dquote
               ++ ". To use real Claude, implement Anthropic API integration.").
Proof.
  intros Hnew Hmodel.
  unfold Root.AIService_new, GeminiProvider_new in Hnew.
  destruct (credential (VITE_GEMINI_API_KEY env)) as [apiKey|];
    [|discriminate Hnew].
  cbn [bindR Root.GPTProvider_new Root.ClaudeProvider_new] in Hnew.
  injection Hnew as Hbuilt.
  destruct Hmodel as [Hmodel|Hmodel].
  - assert (Root.getProvider aiService (aiModel settings)
            = Return {| generateResponse := Root.GPT_generateResponse;
                        getName := "GPT-4" |}) as Hget
      by (rewrite <- Hbuilt, Hmodel; reflexivity).
    eexists. split.
    + rewrite (send_answered uuidv4_at date_at aiService settings messageText
                 attachments s _ _ Hget eq_refl).
      simpl. rewrite <- app_assoc. reflexivity.
    + split; [reflexivity|]. split; [intros _; split; reflexivity|].
      rewrite Hmodel. discriminate.
  - assert (Root.getProvider aiService (aiModel settings)
            = Return {| generateResponse := Root.Claude_generateResponse;
                        getName := "Claude 3" |}) as Hget
      by (rewrite <- Hbuilt, Hmodel; reflexivity).
    eexists. split.
    + rewrite (send_answered uuidv4_at date_at aiService settings messageText
                 attachments s _ _ Hget eq_refl).
      simpl. rewrite <- app_assoc. reflexivity.
    + split; [reflexivity|]. split; [rewrite Hmodel; discriminate|].
      intros _. split; reflexivity.
Qed.

Lemma mock_providers_quote_the_prompt_witness :
  List.map Message.text
    (messages (chatState (snd
       (handleSendMessage Demo.uuidv4_at Demo.date_at Demo.aiService
          {| aiModel := "claude" |} "Look" (Some [Demo.image])
          (Demo.idle [])))))
  = ["Look";
     String.concat JS.dquote
       ["Claude 3 Response: This is a simulated response to ";
        String.concat JS.nl
          ["Look"; ""; "Attached files:"; "File attached: a.png (image/png)"];
        ". To use real Claude, implement Anthropic API integration."]].
Proof.
  destruct (mock_providers_quote_the_prompt Demo.uuidv4_at Demo.date_at
              (fun _ _ => Throw (Err "Failed to fetch")) Demo.env
              Demo.aiService {| aiModel := "claude" |} "Look"
              (Some [Demo.image]) (Demo.idle []) eq_refl
              (or_intror eq_refl))
    as [answer [Hstate [_ [_ Hclaude]]]].
  rewrite Hstate. destruct (Hclaude eq_refl) as [_ Htext].
  simpl. rewrite Htext. reflexivity.
Defined.

Lemma is_user_false_iff (msg : Message.t) :
  is_user msg = false <-> Message.type msg = ai.
Proof. unfold is_user. destruct (Message.type msg); simpl; intuition congruence. Qed.

(** A sequence with a user message splits at its last one. *)
Lemma last_user_split (l : list Message.t) :
  (exists m, In m l /\ Message.type m = user) ->
  exists before lastUser after,
    l = (before ++ lastUser :: after)%list
    /\ Message.type lastUser = user
    /\ (forall m, In m after -> Message.type m = ai).
Proof.
  induction l as [|x l IH]; intros [m [Hin Huser]]; [destruct Hin|].
  destruct (List.existsb is_user l) eqn:E.
  - apply existsb_exists in E as [u [Hu Hutype]].
    destruct IH as [before [lastUser [after [-> [Hlast Hafter]]]]].
    { exists u. split; [exact Hu | now apply is_user_iff]. }
    now exists (x :: before), lastUser, after.
  - assert (forall y, In y l -> Message.type y = ai) as Hall.
    { intros y Hy. apply is_user_false_iff.
      destruct (is_user y) eqn:Ey; [|reflexivity].
      assert (List.existsb is_user l = true) as Habs
        by (apply existsb_exists; now exists y).
      congruence. }
    destruct Hin as [->|Hin].
    + now exists [], m, l.
    + rewrite (Hall m Hin) in Huser. discriminate Huser.
Qed.

(** Where the regenerate handler is handed out. *)
Lemma offered_on_last_assistant (ms : list Message.t) (index : nat) :
  regenerateOffered ms index = true ->
  exists kept last,
    ms = (kept ++ [last])%list /\ Message.type last = ai
    /\ index = List.length kept.
Proof.
  unfold regenerateOffered.
  destruct (nth_error ms index) as [message|] eqn:Hnth; [|discriminate].
  intros H. apply andb_prop in H as [Hrole Hindex].
  apply Nat.eqb_eq in Hindex.
  apply nth_error_split in Hnth as [kept [rest [-> Hlen]]].
  rewrite length_app in Hindex. simpl in Hindex.
  assert (rest = []) as -> by (destruct rest; [reflexivity | simpl in Hindex; lia]).
  exists kept, message. split; [reflexivity|]. split; [|now symmetry].
  destruct (Message.type message); [discriminate | reflexivity].
Qed.

Section RegenerateFacts.

Variable uuidv4_at : nat -> string.
Variable date_at : nat -> Z.
Variable aiService : AIService.
Variable settings : Settings.

(** What regenerate does once the last user message is known. *)
Lemma regenerate_unfold (s : Sys) (before after : list Message.t)
  (lastUser : Message.t) :
  messages (chatState s) = (before ++ lastUser :: after)%list ->
  Message.type lastUser = user ->
  (forall m, In m after -> Message.type m = ai) ->
  handleRegenerate uuidv4_at date_at aiService settings s
  = handleSendMessage uuidv4_at date_at aiService settings
      (Message.text lastUser) None
      {| chatState := {| messages := slice_0_minus1 (messages (chatState s));
                         isLoading := isLoading (chatState s);
                         error := None |};
         drawn := drawn s;
         log := log s
                ++ [SetChatState
                      {| messages := slice_0_minus1 (messages (chatState s));
                         isLoading := isLoading (chatState s);
                         error := None |}] |}.
Proof.
  intros Hmsgs Huser Hafter.
  assert (List.find is_user (List.rev (messages (chatState s)))
          = Some lastUser) as Hfind
    by (rewrite Hmsgs; now apply last_user_found).
  unfold handleRegenerate, bind, getChatState, setChatState. simpl.
  now rewrite Hfind.
Qed.

(** And what retry does. *)
Lemma retry_unfold (s : Sys) (before after : list Message.t)
  (lastUser : Message.t) :
  messages (chatState s) = (before ++ lastUser :: after)%list ->
  Message.type lastUser = user ->
  (forall m, In m after -> Message.type m = ai) ->
  handleRetry uuidv4_at date_at aiService settings s
  = handleSendMessage uuidv4_at date_at aiService settings
      (Message.text lastUser) None
      {| chatState := {| messages := messages (chatState s);
                         isLoading := isLoading (chatState s);
                         error := None |};
         drawn := drawn s;
         log := log s
                ++ [SetChatState
                      {| messages := messages (chatState s);
                         isLoading := isLoading (chatState s);
                         error := None |}] |}.
Proof.
  intros Hmsgs Huser Hafter.
  assert (List.find is_user (List.rev (messages (chatState s)))
          = Some lastUser) as Hfind
    by (rewrite Hmsgs; now apply last_user_found).
  unfold handleRetry, bind, getChatState, setChatState. simpl.
  now rewrite Hfind.
Qed.

End RegenerateFacts.




(** X17.  Retry removes nothing.  Without a user message it leaves the
    application as it is; with one it clears the error and sends the text
    of the most recent user message again, without attachments, so that
    afterwards every message that was there is still there, in place, and
    at least one message has been added. *)
Theorem retry_keeps_every_message
  (uuidv4_at : nat -> string) (date_at : nat -> Z) (aiService : AIService)
  (settings : Settings) (s : Sys) :
  ((forall m, In m (messages (chatState s)) -> Message.type m = ai) ->
   handleRetry uuidv4_at date_at aiService settings s = (Return tt, s))
  /\ (forall before lastUser after,
        messages (chatState s) = (before ++ lastUser :: after)%list ->
        Message.type lastUser = user ->
        (forall m, In m after -> Message.type m = ai) ->
        let after_ := chatState (snd (handleRetry uuidv4_at date_at aiService
                                        settings s)) in
        exists resent answers,
          messages after_
          = (messages (chatState s) ++ resent :: answers)%list
          /\ Message.type resent = user
          /\ Message.text resent = Message.text lastUser
          /\ Message.attachments resent = None).
Proof.
  split.
  - intros Hnone. unfold handleRetry, bind, getChatState. simpl.
    rewrite find_all_false; [reflexivity|].
    intros m Hm. apply in_rev in Hm. apply not_user_ai. now apply Hnone.
  - intros before lastUser after Hmsgs Huser Hafter after_. unfold after_.
    rewrite (retry_unfold uuidv4_at date_at aiService settings s before after
               lastUser Hmsgs Huser Hafter).
    match goal with
    | |- context [handleSendMessage _ _ _ _ ?text ?atts ?s1] =>
        destruct (send_cases uuidv4_at date_at aiService settings text atts s1)
          as [_ [[e Hstate]|[provider [response [_ [_ Hstate]]]]]];
          rewrite Hstate; simpl; eexists; eexists;
          (split; [reflexivity|]); repeat split
    end.
Qed.

Lemma retry_keeps_every_message_witness :
  List.map Message.text
    (messages (chatState (snd
       (handleRetry Demo.uuidv4_at Demo.date_at Demo.aiService Demo.unknown
          (Demo.idle [Demo.userSays "hi"])))))
  = ["hi"; "hi"].
Proof.
  destruct (retry_keeps_every_message Demo.uuidv4_at Demo.date_at
              Demo.aiService Demo.unknown (Demo.idle [Demo.userSays "hi"]))
    as [_ Hresend].
  destruct (Hresend [] (Demo.userSays "hi") [] eq_refl eq_refl)
    as [resent [answers [Hafter _]]]; [intros m []|].
  reflexivity.
Defined.

(** X18.  Regenerate is handed to one message at most: the last one, and
    only when it is an assistant's. *)
Theorem regenerate_is_offered_on_the_last_answer
  (ms : list Message.t) (index : nat) :
  regenerateOffered ms index = true
  <-> exists kept last,
        ms = (kept ++ [last])%list /\ Message.type last = ai
        /\ index = List.length kept.
Proof.
  split; [apply offered_on_last_assistant|].
  intros [kept [last [-> [Hai ->]]]]. unfold regenerateOffered.
  rewrite nth_error_app2, Nat.sub_diag by lia. simpl.
  rewrite Hai, length_app. simpl.
  replace (List.length kept + 1 - 1) with (List.length kept) by lia.
  now rewrite Nat.eqb_refl.
Qed.

Lemma regenerate_is_offered_on_the_last_answer_witness :
  regenerateOffered [Demo.userSays "hi"; Demo.aiSays "hello"] 1 = true
  /\ regenerateOffered [Demo.aiSays "hello"; Demo.userSays "hi"] 0 = false.
Proof.
  split.
  - apply regenerate_is_offered_on_the_last_answer.
    exists [Demo.userSays "hi"], (Demo.aiSays "hello"). repeat split.
  - reflexivity.
Defined.

(** X19.  Where regenerate is offered and the sequence holds a user message,
    regenerating removes the final assistant message and nothing else,
    sends the text of the most recent user message (the one that only
    assistant messages follow) again as a new user message without
    attachments, and so leaves every user message in the sequence; the
    sequence ends one message longer than it was when the provider answers,
    and as long as it was when the send fails. *)
Theorem regenerate_where_offered
  (uuidv4_at : nat -> string) (date_at : nat -> Z) (aiService : AIService)
  (settings : Settings) (s : Sys) (index : nat) :
  regenerateOffered (messages (chatState s)) index = true ->
  (exists m, In m (messages (chatState s)) /\ Message.type m = user) ->
  let after_ := chatState (snd (handleRegenerate uuidv4_at date_at aiService
                                  settings s)) in
  exists before lastUser between removed resent answers,
    messages (chatState s)
      = (before ++ lastUser :: between ++ [removed])%list
    /\ Message.type lastUser = user
    /\ (forall m, In m between -> Message.type m = ai)
    /\ Message.type removed = ai
    /\ messages after_
       = (before ++ lastUser :: between ++ resent :: answers)%list
    /\ Message.type resent = user
    /\ Message.text resent = Message.text lastUser
    /\ Message.attachments resent = None
    /\ ((error after_ = None
         /\ List.length (messages after_)
            = 1 + List.length (messages (chatState s)))
        \/ (error after_ <> None
            /\ List.length (messages after_)
               = List.length (messages (chatState s))))
    /\ (forall m,
          In m (messages (chatState s)) -> Message.type m = user ->
          In m (messages after_)).
Proof.
  intros Hoffered Huser after_.
  apply offered_on_last_assistant in Hoffered
    as [kept [removed [Hmsgs [Hai _]]]].
  assert (exists m, In m kept /\ Message.type m = user) as Hkept.
  { destruct Huser as [m [Hin Hm]]. exists m. split; [|exact Hm].
    rewrite Hmsgs in Hin. apply in_app_or in Hin as [Hin|[<-|[]]];
      [exact Hin | congruence]. }
  destruct (last_user_split kept Hkept)
    as [before [lastUser [between [Hsplit [Hlast Hbetween]]]]].
  assert (messages (chatState s)
          = (before ++ lastUser :: (between ++ [removed]))%list) as Hfull
    by (rewrite Hmsgs, Hsplit, <- app_assoc; reflexivity).
  assert (forall m, In m (between ++ [removed]) -> Message.type m = ai)
    as Hafter.
  { intros m Hin. apply in_app_or in Hin as [Hin|[<-|[]]];
      [now apply Hbetween | exact Hai]. }
  assert (slice_0_minus1 (messages (chatState s)) = kept) as Hslice
    by (rewrite Hmsgs; apply removelast_snoc).
  assert (forall tail : list Message.t,
            (kept ++ tail)%list
            = (before ++ lastUser :: between ++ tail)%list) as Hshape
    by (intros tail; rewrite Hsplit, <- app_assoc; reflexivity).
  unfold after_.
  rewrite (regenerate_unfold uuidv4_at date_at aiService settings s before
             (between ++ [removed]) lastUser Hfull Hlast Hafter).
  rewrite Hslice.
  match goal with
  | |- context [handleSendMessage _ _ _ _ ?text ?atts ?s1] =>
      destruct (send_cases uuidv4_at date_at aiService settings text atts s1)
        as [_ [[e Hstate]|[provider [response [_ [_ Hstate]]]]]];
        rewrite Hstate; cbn [chatState messages error];
        exists before, lastUser, between, removed; eexists; eexists;
        (split; [exact Hfull|]); (split; [exact Hlast|]);
        (split; [exact Hbetween|]); (split; [exact Hai|]);
        (split; [apply Hshape|]); (split; [reflexivity|]);
        (split; [reflexivity|]); (split; [reflexivity|])
  end.
  - split.
    + right. split; [discriminate|].
      rewrite Hmsgs, !length_app. simpl. lia.
    + intros m Hm Hmuser. rewrite Hmsgs in Hm.
      apply in_app_or in Hm as [Hm|[<-|[]]]; [|congruence].
      apply in_or_app. now left.
  - split.
    + left. split; [reflexivity|].
      rewrite Hmsgs, !length_app. simpl. lia.
    + intros m Hm Hmuser. rewrite Hmsgs in Hm.
      apply in_app_or in Hm as [Hm|[<-|[]]]; [|congruence].
      apply in_or_app. now left.
Qed.

Lemma regenerate_where_offered_witness :
  List.map (fun m => (Message.type m, Message.text m))
    (messages (chatState (snd
       (handleRegenerate Demo.uuidv4_at Demo.date_at Demo.aiService
          Demo.unknown
          (Demo.idle [Demo.userSays "first question"; Demo.aiSays "one";
                      Demo.userSays "second question";
                      Demo.aiSays "two"])))))
  = [(user, "first question"); (ai, "one"); (user, "second question");
     (user, "second question")].
Proof.
  destruct (regenerate_where_offered Demo.uuidv4_at Demo.date_at
              Demo.aiService Demo.unknown
              (Demo.idle [Demo.userSays "first question"; Demo.aiSays "one";
                          Demo.userSays "second question";
                          Demo.aiSays "two"]) 3
              eq_refl)
    as [before [lastUser [between [removed [resent [answers _]]]]]].
  - exists (Demo.userSays "first question").
    split; [now left | reflexivity].
  - reflexivity.
Defined.

(** X20.  On a sequence that ends with an assistant message and holds a user
    message before it, regenerate is retry run on the sequence without that
    last message: the two handlers leave the same chat state, the same
    draws and the same event log. *)
Theorem regenerate_is_retry_without_the_answer
  (uuidv4_at : nat -> string) (date_at : nat -> Z) (aiService : AIService)
  (settings : Settings) (s : Sys) (kept : list Message.t)
  (removed : Message.t) :
  messages (chatState s) = (kept ++ [removed])%list ->
  Message.type removed = ai ->
  (exists m, In m kept /\ Message.type m = user) ->
  handleRegenerate uuidv4_at date_at aiService settings s
  = handleRetry uuidv4_at date_at aiService settings
      {| chatState := {| messages := kept;
                         isLoading := isLoading (chatState s);
                         error := error (chatState s) |};
         drawn := drawn s;
         log := log s |}.
Proof.
  intros Hmsgs Hai Hkept.
  destruct (last_user_split kept Hkept)
    as [before [lastUser [after [Hsplit [Hlast Hafter]]]]].
  rewrite (regenerate_unfold uuidv4_at date_at aiService settings s before
             (after ++ [removed]) lastUser).
  - rewrite (retry_unfold uuidv4_at date_at aiService settings
               {| chatState := {| messages := kept;
                                  isLoading := isLoading (chatState s);
                                  error := error (chatState s) |};
                  drawn := drawn s;
                  log := log s |}
               before after lastUser Hsplit Hlast Hafter).
    cbn [chatState messages isLoading error drawn log].
    rewrite Hmsgs. unfold slice_0_minus1. now rewrite removelast_snoc.
  - rewrite Hmsgs, Hsplit, <- app_assoc. reflexivity.
  - exact Hlast.
  - intros m Hin. apply in_app_or in Hin as [Hin|[<-|[]]];
      [now apply Hafter | exact Hai].
Qed.

Lemma regenerate_is_retry_without_the_answer_witness :
  handleRegenerate Demo.uuidv4_at Demo.date_at Demo.aiService Demo.gpt
    (Demo.idle [Demo.userSays "hi"; Demo.aiSays "hello"])
  = handleRetry Demo.uuidv4_at Demo.date_at Demo.aiService Demo.gpt
      (Demo.idle [Demo.userSays "hi"]).
Proof.
  apply (regenerate_is_retry_without_the_answer Demo.uuidv4_at Demo.date_at
           Demo.aiService Demo.gpt
           (Demo.idle [Demo.userSays "hi"; Demo.aiSays "hello"])
           [Demo.userSays "hi"] (Demo.aiSays "hello")).
  - reflexivity.
  - reflexivity.
  - exists (Demo.userSays "hi"). split; [now left | reflexivity].
Defined.

(** X21.  A conversation title never has more than 33 characters, whatever
    the messages: 30 of the first user message and the three dots at most,
    or the 16 of "New Conversation". *)
Theorem title_has_at_most_33_characters (messages : list Message.t) :
  String.length (generateConversationTitle messages) <= 33.
Proof.
  unfold generateConversationTitle.
  destruct (List.find is_user messages) as [first|]; [|simpl; lia].
  destruct (Nat.ltb_spec 30 (String.length (Message.text first))); [|lia].
  destruct (substring0_prefix 30 (Message.text first)) as [Hlen _]; [lia|].
  rewrite append_length, Hlen. simpl. lia.
Qed.

(** ** The conversation list *)

Lemma find_id_None (k : string) (l : list Conversation) :
  List.find (id_is k) l = None <-> ~ In k (List.map conv_id l).
Proof.
  unfold id_is. induction l as [|c l IH]; simpl; [tauto|].
  destruct (String.eqb_spec (conv_id c) k) as [E|E].
  - split; [discriminate | tauto].
  - rewrite IH. tauto.
Qed.

Lemma replace_keeps_ids (conversation : Conversation) (l : list Conversation) :
  List.map conv_id
    (List.map (fun c => if id_is (conv_id conversation) c
                        then conversation else c) l)
  = List.map conv_id l.
Proof.
  unfold id_is. induction l as [|c l IH]; simpl; [reflexivity|].
  rewrite IH. f_equal.
  destruct (String.eqb_spec (conv_id c) (conv_id conversation));
    congruence.
Qed.

Lemma replace_found (conversation : Conversation) (l : list Conversation) :
  In (conv_id conversation) (List.map conv_id l) ->
  List.find (id_is (conv_id conversation))
    (List.map (fun c => if id_is (conv_id conversation) c
                        then conversation else c) l)
  = Some conversation.
Proof.
  unfold id_is. induction l as [|c l IH]; simpl; [tauto|].
  destruct (String.eqb_spec (conv_id c) (conv_id conversation)) as [E|E].
  - intros _. now rewrite String.eqb_refl.
  - intros [H|H]; [congruence|].
    destruct (String.eqb_spec (conv_id c) (conv_id conversation));
      [congruence | now apply IH].
Qed.

(** X22.  Saving a conversation into the list puts it where a conversation
    of the same id was, and at the front when there was none: afterwards the
    list finds the saved conversation under its id, the ids are the old ones
    in the old order (with the new id in front if it was new), conversations
    of other ids are untouched, and ids that were distinct stay distinct. *)
Theorem upsert_replaces_or_prepends
  (conversation : Conversation) (prev : list Conversation) :
  List.find (id_is (conv_id conversation)) (upsertConversation conversation prev)
    = Some conversation
  /\ (In (conv_id conversation) (List.map conv_id prev) ->
      List.map conv_id (upsertConversation conversation prev)
      = List.map conv_id prev)
  /\ (~ In (conv_id conversation) (List.map conv_id prev) ->
      upsertConversation conversation prev = conversation :: prev)
  /\ (forall other,
        conv_id other <> conv_id conversation ->
        (In other (upsertConversation conversation prev) <-> In other prev))
  /\ (NoDup (List.map conv_id prev) ->
      NoDup (List.map conv_id (upsertConversation conversation prev))).
Proof.
  unfold upsertConversation.
  destruct (List.find (id_is (conv_id conversation)) prev) as [existing|] eqn:F.
  - assert (In (conv_id conversation) (List.map conv_id prev)) as Hin.
    { destruct (in_dec string_dec (conv_id conversation)
                  (List.map conv_id prev)) as [H|H]; [exact H|].
      apply find_id_None in H. congruence. }
    split; [now apply replace_found|].
    split; [intros _; apply replace_keeps_ids|].
    split; [tauto|].
    split; [|intros Hnodup; now rewrite replace_keeps_ids].
    intros other Hother. rewrite in_map_iff. unfold id_is. split.
    + intros [c [Hc Hinc]].
      destruct (String.eqb_spec (conv_id c) (conv_id conversation));
        [congruence | now subst].
    + intros Hino. exists other. split; [|exact Hino].
      destruct (String.eqb_spec (conv_id other) (conv_id conversation));
        [congruence | reflexivity].
  - apply find_id_None in F.
    split; [simpl; unfold id_is; now rewrite String.eqb_refl|].
    split; [tauto|].
    split; [reflexivity|].
    split.
    + intros other Hother. simpl. split; [|tauto].
      intros [<-|H]; [congruence | exact H].
    + intros Hnodup. simpl. now constructor.
Qed.

Lemma upsert_replaces_or_prepends_witness :
  List.map title
    (upsertConversation
       {| conv_id := "b"; title := "second, saved again";
          conv_messages := []; createdAt := 5%Z; updatedAt := 5%Z |}
       [{| conv_id := "a"; title := "first"; conv_messages := [];
           createdAt := 1%Z; updatedAt := 1%Z |};
        {| conv_id := "b"; title := "second"; conv_messages := [];
           createdAt := 2%Z; updatedAt := 2%Z |}])
  = ["first"; "second, saved again"]
  /\ List.map conv_id
       (upsertConversation
          {| conv_id := "b"; title := "second, saved again";
             conv_messages := []; createdAt := 5%Z; updatedAt := 5%Z |}
          [{| conv_id := "a"; title := "first"; conv_messages := [];
              createdAt := 1%Z; updatedAt := 1%Z |};
           {| conv_id := "b"; title := "second"; conv_messages := [];
              createdAt := 2%Z; updatedAt := 2%Z |}])
     = ["a"; "b"].
Proof.
  split; [reflexivity|].
  apply (upsert_replaces_or_prepends
           {| conv_id := "b"; title := "second, saved again";
              conv_messages := []; createdAt := 5%Z; updatedAt := 5%Z |}).
  simpl. tauto.
Defined.

Lemma remove_replaced (conversation : Conversation) (l : list Conversation) :
  removeConversation (conv_id conversation)
    (List.map (fun c => if id_is (conv_id conversation) c
                        then conversation else c) l)
  = removeConversation (conv_id conversation) l.
Proof.
  unfold removeConversation, id_is.
  induction l as [|c l IH]; simpl; [reflexivity|].
  destruct (String.eqb_spec (conv_id c) (conv_id conversation)); simpl.
  - rewrite String.eqb_refl. simpl. apply IH.
  - destruct (String.eqb_spec (conv_id c) (conv_id conversation));
      [congruence|]. simpl. f_equal. apply IH.
Qed.

(** X23.  Deleting from the list removes every conversation of the given id
    and nothing else, keeps the order of the rest, and undoes a save: a list
    from which the id was absent comes back as it was when a conversation of
    that id is saved into it and then deleted. *)
Theorem remove_undoes_upsert (conversationId : string)
  (prev : list Conversation) :
  ~ In conversationId
      (List.map conv_id (removeConversation conversationId prev))
  /\ (forall c,
        In c (removeConversation conversationId prev)
        <-> In c prev /\ conv_id c <> conversationId)
  /\ (~ In conversationId (List.map conv_id prev) ->
      removeConversation conversationId prev = prev)
  /\ (forall conversation,
        conv_id conversation = conversationId ->
        removeConversation conversationId
          (upsertConversation conversation prev)
        = removeConversation conversationId prev)
  /\ (forall conversation,
        conv_id conversation = conversationId ->
        ~ In conversationId (List.map conv_id prev) ->
        removeConversation conversationId
          (upsertConversation conversation prev) = prev).
Proof.
  assert (forall c,
            In c (removeConversation conversationId prev)
            <-> In c prev /\ conv_id c <> conversationId) as Hin.
  { intros c. unfold removeConversation, id_is. rewrite filter_In.
    destruct (String.eqb_spec (conv_id c) conversationId); simpl;
      intuition congruence. }
  assert (forall l, ~ In conversationId (List.map conv_id l) ->
                    removeConversation conversationId l = l) as Habsent.
  { intros l. unfold removeConversation, id_is.
    induction l as [|c l IH]; simpl; [reflexivity|].
    intros H. destruct (String.eqb_spec (conv_id c) conversationId);
      simpl; [tauto|]. rewrite IH; tauto. }
  assert (forall conversation,
            conv_id conversation = conversationId ->
            removeConversation conversationId
              (upsertConversation conversation prev)
            = removeConversation conversationId prev) as Hupsert.
  { intros conversation <-. unfold upsertConversation.
    destruct (List.find (id_is (conv_id conversation)) prev).
    - apply remove_replaced.
    - unfold removeConversation at 1. simpl. unfold id_is at 1.
      now rewrite String.eqb_refl. }
  split; [|split; [exact Hin|split; [apply Habsent|split; [exact Hupsert|]]]].
  - intros H. apply in_map_iff in H as [c [Hid Hc]].
    apply Hin in Hc. tauto.
  - intros conversation Hid Hnew. rewrite (Hupsert conversation Hid).
    now apply Habsent.
Qed.

Lemma remove_undoes_upsert_witness :
  removeConversation "b"
    (upsertConversation
       {| conv_id := "b"; title := "second"; conv_messages := [];
          createdAt := 2%Z; updatedAt := 2%Z |}
       [{| conv_id := "a"; title := "first"; conv_messages := [];
           createdAt := 1%Z; updatedAt := 1%Z |}])
  = [{| conv_id := "a"; title := "first"; conv_messages := [];
        createdAt := 1%Z; updatedAt := 1%Z |}].
Proof.
  apply (remove_undoes_upsert "b").
  - reflexivity.
  - simpl. intros [H|[]]. discriminate H.
Defined.

Section ConversationFacts.

Variable uuidv4_at : nat -> string.
Variable date_at : nat -> Z.
Variable settings : Settings.

(** What [handleNewConversation] leaves, by what the render saw. *)
Lemma newConversation_cases (rendered app : AppState) :
  let after_ := handleNewConversation uuidv4_at date_at settings rendered app in
  currentConversationId after_ = None
  /\ isSidebarOpen after_ = false
  /\ isSettingsOpen after_ = isSettingsOpen app
  /\ (exists welcome,
        chatState (sys after_)
        = {| messages := [welcome]; isLoading := false; error := None |}
        /\ Message.type welcome = ai
        /\ Message.text welcome = welcomeText
        /\ Message.model welcome = Some (aiModel settings))
  /\ (messages (chatState (sys rendered)) = [] ->
      conversations after_ = conversations app
      /\ storage after_ = (storage app ++ [ClearCurrentConversation])%list)
  /\ (messages (chatState (sys rendered)) <> [] ->
      exists saved,
        storage after_
        = (storage app ++ [SaveConversation saved; ClearCurrentConversation])%list
        /\ conversations after_
           = upsertConversation saved (conversations app)
        /\ conv_messages saved = messages (chatState (sys rendered))
        /\ title saved
           = generateConversationTitle (messages (chatState (sys rendered)))
        /\ conv_id saved
           = match JS.present (currentConversationId rendered) with
             | Some id => id
             | None => uuidv4_at (drawn (sys app))
             end).
Proof.
  unfold handleNewConversation.
  destruct (messages (chatState (sys rendered))) as [|m ms] eqn:Hmsgs.
  - cbn. repeat split; try reflexivity; try (intros H; congruence).
    eexists. repeat split.
  - destruct (JS.present (currentConversationId rendered)) as [id|];
      cbn; repeat split; try reflexivity; try discriminate;
      try (eexists; repeat split; fail);
      intros _; eexists; rewrite <- app_assoc; repeat split.
Qed.

End ConversationFacts.

(** X24.  Starting a new conversation always ends with the chat holding the
    welcome message alone (an assistant message carrying the selected
    model), nothing loading, no error, no conversation open and the sidebar
    closed.  A chat that was empty is not saved; a chat with messages is
    saved once, before the current buffer is cleared, under the id of the
    open conversation or else a fresh one, with its messages and the title
    derived from them, and enters the list by that id. *)
Theorem new_conversation_saves_then_resets
  (uuidv4_at : nat -> string) (date_at : nat -> Z) (settings : Settings)
  (app : AppState) :
  let after_ := click (handleNewConversation uuidv4_at date_at settings) app in
  currentConversationId after_ = None
  /\ isSidebarOpen after_ = false
  /\ (exists welcome,
        chatState (sys after_)
        = {| messages := [welcome]; isLoading := false; error := None |}
        /\ Message.type welcome = ai
        /\ Message.text welcome = welcomeText
        /\ Message.model welcome = Some (aiModel settings))
  /\ (messages (chatState (sys app)) = [] ->
      conversations after_ = conversations app
      /\ storage after_ = (storage app ++ [ClearCurrentConversation])%list)
  /\ (messages (chatState (sys app)) <> [] ->
      exists saved,
        storage after_
        = (storage app ++ [SaveConversation saved; ClearCurrentConversation])%list
        /\ conversations after_
           = upsertConversation saved (conversations app)
        /\ List.find (id_is (conv_id saved)) (conversations after_)
           = Some saved
        /\ conv_messages saved = messages (chatState (sys app))
        /\ title saved
           = generateConversationTitle (messages (chatState (sys app)))
        /\ conv_id saved
           = match JS.present (currentConversationId app) with
             | Some id => id
             | None => uuidv4_at (drawn (sys app))
             end).
Proof.
  intros after_. unfold after_, click.
  destruct (newConversation_cases uuidv4_at date_at settings app app)
    as [Hcurrent [Hsidebar [_ [Hwelcome [Hempty Hsaved]]]]].
  split; [exact Hcurrent|]. split; [exact Hsidebar|].
  split; [exact Hwelcome|]. split; [exact Hempty|].
  intros Hfull. destruct (Hsaved Hfull)
    as [saved [Hstorage [Hlist [Hmsgs [Htitle Hid]]]]].
  exists saved. split; [exact Hstorage|]. split; [exact Hlist|].
  split; [|now repeat split].
  rewrite Hlist. unfold upsertConversation.
  destruct (List.find (id_is (conv_id saved)) (conversations app)) eqn:F.
  - apply replace_found.
    destruct (in_dec string_dec (conv_id saved)
                (List.map conv_id (conversations app))) as [H|H]; [exact H|].
    apply find_id_None in H. congruence.
  - simpl. unfold id_is. now rewrite String.eqb_refl.
Qed.

Lemma new_conversation_saves_then_resets_witness :
  List.map (fun c => (conv_id c, title c))
    (conversations
       (click (handleNewConversation Demo.uuidv4_at Demo.date_at Demo.gpt)
          (DemoApp.showing [Demo.userSays "hey"] None)))
  = [("id-0", "hey"); ("c1", "hi"); ("c2", "bye")].
Proof.
  destruct (new_conversation_saves_then_resets Demo.uuidv4_at Demo.date_at
              Demo.gpt (DemoApp.showing [Demo.userSays "hey"] None))
    as [_ [_ [_ [_ Hsaved]]]].
  destruct Hsaved as [saved [_ [Hlist [_ [_ [Htitle Hid]]]]]];
    [discriminate|].
  rewrite Hlist. unfold upsertConversation. rewrite Hid. simpl.
  rewrite Hid, Htitle. reflexivity.
Defined.

Lemma removed_id_absent (conversationId : string) (l : list Conversation) :
  ~ In conversationId (List.map conv_id (removeConversation conversationId l)).
Proof.
  unfold removeConversation, id_is. intros H.
  apply in_map_iff in H as [c [Hid Hc]]. apply filter_In in Hc as [_ Hc].
  rewrite Hid, String.eqb_refl in Hc. discriminate Hc.
Qed.

(** X25.  Deleting a conversation that is not the open one removes it from
    the list, asks the storage to delete it and touches nothing else.
    Deleting the open conversation does the same and then starts a new
    conversation with what the render saw: the open chat, when it holds
    messages, is saved again under the very id that was deleted (the storage
    is asked to save it after it was asked to delete it) and stands at the
    front of the list. *)
Theorem deleting_the_open_conversation_saves_it_again
  (uuidv4_at : nat -> string) (date_at : nat -> Z) (settings : Settings)
  (conversationId : string) (app : AppState) :
  let after_ := click (handleDeleteConversation uuidv4_at date_at settings
                         conversationId) app in
  (currentConversationId app <> Some conversationId ->
   conversations after_
     = removeConversation conversationId (conversations app)
   /\ storage after_
      = (storage app ++ [DeleteConversation conversationId])%list
   /\ sys after_ = sys app
   /\ currentConversationId after_ = currentConversationId app)
  /\ (currentConversationId app = Some conversationId ->
      conversationId <> "" ->
      messages (chatState (sys app)) <> [] ->
      exists saved,
        conv_id saved = conversationId
        /\ conv_messages saved = messages (chatState (sys app))
        /\ conversations after_
           = saved :: removeConversation conversationId (conversations app)
        /\ storage after_
           = (storage app
                ++ [DeleteConversation conversationId;
                    SaveConversation saved;
                    ClearCurrentConversation])%list
        /\ currentConversationId after_ = None).
Proof.
  intros after_. unfold after_, click, handleDeleteConversation. split.
  - intros Hother.
    destruct (currentConversationId app) as [current|] eqn:Hcurrent.
    + destruct (String.eqb_spec current conversationId) as [->|Hne];
        [congruence|]. cbn. now rewrite Hcurrent.
    + cbn. now rewrite Hcurrent.
  - intros Hcurrent Hid Hfull. rewrite Hcurrent, String.eqb_refl.
    match goal with
    | |- context [handleNewConversation _ _ _ app ?app1] =>
        destruct (newConversation_cases uuidv4_at date_at settings app app1)
          as [Hnone [_ [_ [_ [_ Hsaved]]]]]
    end.
    destruct (Hsaved Hfull)
      as [saved [Hstorage [Hlist [Hmsgs [_ Hsavedid]]]]].
    assert (conv_id saved = conversationId) as Hsame.
    { rewrite Hsavedid, Hcurrent. simpl.
      destruct conversationId; [congruence | reflexivity]. }
    exists saved. split; [exact Hsame|]. split; [exact Hmsgs|].
    split; [|split; [|exact Hnone]].
    + rewrite Hlist. cbn [conversations setConversations storageCall].
      pose proof (removed_id_absent conversationId (conversations app))
        as Habsent.
      unfold upsertConversation. rewrite Hsame.
      now rewrite (proj2 (find_id_None conversationId _) Habsent).
    + rewrite Hstorage. cbn [storage setConversations storageCall].
      now rewrite <- app_assoc.
Qed.

Lemma deleting_the_open_conversation_saves_it_again_witness :
  List.map conv_id
    (conversations
       (click (handleDeleteConversation Demo.uuidv4_at Demo.date_at Demo.gpt
                 "c1")
          (DemoApp.showing (conv_messages DemoApp.first) (Some "c1"))))
  = ["c1"; "c2"]
  /\ List.map conv_id
       (conversations
          (click (handleDeleteConversation Demo.uuidv4_at Demo.date_at
                    Demo.gpt "c1")
             (DemoApp.showing (conv_messages DemoApp.second) (Some "c2"))))
     = ["c2"].
Proof.
  split.
  - destruct (deleting_the_open_conversation_saves_it_again Demo.uuidv4_at
                Demo.date_at Demo.gpt "c1"
                (DemoApp.showing (conv_messages DemoApp.first) (Some "c1")))
      as [_ Hopen].
    destruct Hopen as [saved [Hid [_ [Hlist _]]]];
      [reflexivity | discriminate | discriminate |].
    rewrite Hlist. simpl. now rewrite Hid.
  - destruct (deleting_the_open_conversation_saves_it_again Demo.uuidv4_at
                Demo.date_at Demo.gpt "c1"
                (DemoApp.showing (conv_messages DemoApp.second) (Some "c2")))
      as [Hother _].
    destruct Hother as [Hlist _]; [discriminate|].
    rewrite Hlist. reflexivity.
Defined.

(** X26.  Opening a conversation of the list shows its messages with no
    error and nothing loading and makes it the open one; leaving it by
    starting a new conversation saves it back in place: the list has the
    same ids in the same order as before it was opened, and under the id
    stands a conversation with the same messages and the title derived from
    them. *)
Theorem reopening_a_conversation_does_not_duplicate_it
  (uuidv4_at : nat -> string) (date_at : nat -> Z) (settings : Settings)
  (conversation : Conversation) (app : AppState) :
  In (conv_id conversation) (List.map conv_id (conversations app)) ->
  conv_id conversation <> "" ->
  conv_messages conversation <> [] ->
  let opened := handleSelectConversation conversation app in
  let after_ := click (handleNewConversation uuidv4_at date_at settings)
                  opened in
  chatState (sys opened)
    = {| messages := conv_messages conversation; isLoading := false;
         error := None |}
  /\ currentConversationId opened = Some (conv_id conversation)
  /\ conversations opened = conversations app
  /\ List.map conv_id (conversations after_)
     = List.map conv_id (conversations app)
  /\ exists saved,
       List.find (id_is (conv_id conversation)) (conversations after_)
         = Some saved
       /\ conv_messages saved = conv_messages conversation
       /\ title saved
          = generateConversationTitle (conv_messages conversation).
Proof.
  intros Hin Hid Hfull opened after_.
  assert (chatState (sys opened)
          = {| messages := conv_messages conversation; isLoading := false;
               error := None |}) as Hchat by reflexivity.
  assert (currentConversationId opened = Some (conv_id conversation))
    as Hcurrent by reflexivity.
  assert (conversations opened = conversations app) as Hlist by reflexivity.
  split; [exact Hchat|]. split; [exact Hcurrent|]. split; [exact Hlist|].
  unfold after_, click.
  destruct (newConversation_cases uuidv4_at date_at settings opened opened)
    as [_ [_ [_ [_ [_ Hsaved]]]]].
  destruct Hsaved as [saved [_ [Hafter [Hmsgs [Htitle Hsavedid]]]]].
  { rewrite Hchat. exact Hfull. }
  assert (conv_id saved = conv_id conversation) as Hsame.
  { rewrite Hsavedid, Hcurrent. simpl.
    destruct (conv_id conversation); [congruence | reflexivity]. }
  rewrite Hchat in Hmsgs, Htitle. cbn [messages] in Hmsgs, Htitle.
  rewrite Hafter, Hlist. unfold upsertConversation.
  destruct (List.find (id_is (conv_id saved)) (conversations app)) eqn:F.
  - split; [apply replace_keeps_ids|].
    exists saved. split; [|now split].
    rewrite <- Hsame. apply replace_found. now rewrite Hsame.
  - apply find_id_None in F. rewrite Hsame in F. contradiction.
Qed.

Lemma reopening_a_conversation_does_not_duplicate_it_witness :
  List.map conv_id
    (conversations
       (click (handleNewConversation Demo.uuidv4_at Demo.date_at Demo.gpt)
          (handleSelectConversation DemoApp.second
             (DemoApp.showing [] None))))
  = ["c1"; "c2"].
Proof.
  destruct (reopening_a_conversation_does_not_duplicate_it Demo.uuidv4_at
              Demo.date_at Demo.gpt DemoApp.second (DemoApp.showing [] None))
    as [_ [_ [_ [Hids _]]]].
  - simpl. tauto.
  - discriminate.
  - discriminate.
  - exact Hids.
Defined.

(** ** The image prompts *)

Section ImageFacts.

Variable toLowerCase : string -> string.
Variable trim : string -> string.

Lemma includes_prefix (s p k : string) :
  JS.startsWith s p = true -> JS.includes p k = true ->
  JS.includes s k = true.
Proof.
  unfold JS.startsWith. intros Hp Hk.
  apply prefix_app in Hp as [rest ->].
  apply includes_app in Hk as [before [after ->]].
  apply includes_app. exists before, (after ++ rest).
  now rewrite !append_assoc.
Qed.

Lemma stripFirstPrefix_none (prefixes : list string) (cleanPrompt : string) :
  (forall p, In p prefixes -> JS.startsWith cleanPrompt p = false) ->
  stripFirstPrefix trim prefixes cleanPrompt = cleanPrompt.
Proof.
  induction prefixes as [|p rest IH]; simpl; intros H; [reflexivity|].
  rewrite (H p) by now left. apply IH. intros q Hq. apply H. now right.
Qed.

End ImageFacts.

(** X27.  Every prompt from which [extractImagePrompt] would cut a prefix is
    one that [isImageGenerationPrompt] accepts: each of the eleven prefixes
    contains one of the keywords.  (The reverse fails: "sketch" is a
    keyword and no prefix.) *)
Theorem a_cut_prefix_is_an_image_prompt (toLowerCase : string -> string)
  (text : string) (p : string) :
  In p imagePrefixes ->
  JS.startsWith (toLowerCase text) p = true ->
  isImageGenerationPrompt toLowerCase text = true.
Proof.
  intros Hp Hstarts. unfold isImageGenerationPrompt.
  apply existsb_exists.
  assert (exists keyword, In keyword imageKeywords
                          /\ JS.includes p keyword = true) as [k [Hk Hpk]].
  { apply existsb_exists. unfold imagePrefixes in Hp. simpl in Hp.
    repeat (destruct Hp as [<-|Hp]; [reflexivity|]).
    destruct Hp. }
  exists k. split; [exact Hk|].
  now apply (includes_prefix (toLowerCase text) p k).
Qed.

Lemma a_cut_prefix_is_an_image_prompt_witness :
  isImageGenerationPrompt JS.toLowerCase "Generate a photo of a red fox"
  = true.
Proof.
  apply (a_cut_prefix_is_an_image_prompt JS.toLowerCase
           "Generate a photo of a red fox" "generate a photo of").
  - simpl. tauto.
  - reflexivity.
Defined.

Lemma stripFirstPrefix_first (trim : string -> string)
  (earlier later : list string) (p rest : string) :
  (forall q, In q earlier -> JS.startsWith (p ++ rest) q = false) ->
  stripFirstPrefix trim (earlier ++ p :: later) (p ++ rest) = trim rest.
Proof.
  induction earlier as [|q earlier IH]; simpl; intros H.
  - now rewrite startsWith_app, substringFrom_app.
  - rewrite (H q) by now left. apply IH. intros r Hr. apply H. now right.
Qed.

(** X28.  [extractImagePrompt] cuts one prefix at most, the first of its
    list that the lower-cased text starts with, and gives the trimmed rest
    in lower case; when no prefix fits it gives the lower-cased text; and
    whenever its result would be empty it gives the text back as it was, so
    that a non-empty text never yields an empty prompt. *)
Theorem extractImagePrompt_cuts_the_first_prefix
  (toLowerCase trim : string -> string) (text : string) :
  (forall earlier p later rest,
      imagePrefixes = (earlier ++ p :: later)%list ->
      (forall q, In q earlier -> JS.startsWith (toLowerCase text) q = false) ->
      toLowerCase text = p ++ rest ->
      extractImagePrompt toLowerCase trim text
      = if JS.truthy (trim rest) then trim rest else text)
  /\ ((forall q, In q imagePrefixes ->
                 JS.startsWith (toLowerCase text) q = false) ->
      extractImagePrompt toLowerCase trim text
      = if JS.truthy (toLowerCase text) then toLowerCase text else text)
  /\ (text <> "" -> extractImagePrompt toLowerCase trim text <> "").
Proof.
  split; [|split].
  - intros earlier p later rest Hlist Hearlier Hlower.
    unfold extractImagePrompt. rewrite Hlist, Hlower.
    rewrite Hlower in Hearlier.
    now rewrite (stripFirstPrefix_first trim earlier later p rest Hearlier).
  - intros Hnone. unfold extractImagePrompt.
    now rewrite (stripFirstPrefix_none trim imagePrefixes _ Hnone).
  - intros Hfull. unfold extractImagePrompt.
    destruct (stripFirstPrefix trim imagePrefixes (toLowerCase text))
      as [|c cleanPrompt]; simpl; [exact Hfull | discriminate].
Qed.

Lemma extractImagePrompt_cuts_the_first_prefix_witness :
  extractImagePrompt JS.toLowerCase JS.trim "Draw  a design of a Bridge "
  = "a design of a bridge".
Proof.
  destruct (extractImagePrompt_cuts_the_first_prefix JS.toLowerCase JS.trim
              "Draw  a design of a Bridge ") as [Hcut _].
  apply (Hcut ["generate image of"; "create image of"] "draw"
              ["paint"; "make a picture of"; "show me"; "visualize";
               "illustrate"; "generate a photo of"; "create artwork of";
               "design"]
              "  a design of a bridge ").
  - reflexivity.
  - intros q [<-|[<-|[]]]; reflexivity.
  - reflexivity.
Defined.
